(** * Scoring and leaderboard aggregation of goofy-guesser

    A shallow embedding of the scoring subsystem: the tables of
    [supabase/schema.sql], the [leaderboard_scores] views of the
    scoring scripts, the refresh triggers of [realtime_scoring.sql], and
    the client functions of [useGameResults.ts], [useGroups.ts] and
    [Leaderboard.tsx] that write to the tables.

    Tables are bags of rows (lists); a nullable column is an [option];
    a [DATE] is the number of its day (days since the epoch), a
    [TIMESTAMPTZ] a number of milliseconds since the epoch. *)

From Stdlib Require Import ZArith List Bool Lia Permutation String.
Import ListNotations.
Open Scope Z_scope.

(** ** Relational primitives *)

Module Sql.

(** [a = b] on nullable columns, as a join or WHERE condition sees it: the
    condition holds only when both sides are non-null and equal. *)
Definition eq_is_true {A} (eqb : A -> A -> bool) (x y : option A) : bool :=
  match x, y with
  | Some a, Some b => eqb a b
  | _, _ => false
  end.

(** Equality of grouping keys: GROUP BY and DISTINCT put nulls together. *)
Definition not_distinct {A} (eqb : A -> A -> bool) (x y : option A) : bool :=
  match x, y with
  | Some a, Some b => eqb a b
  | None, None => true
  | _, _ => false
  end.

(** [MIN(col)] and [SUM(col)] over a group of non-null values: NULL on an
    empty input. *)
Definition min (l : list Z) : option Z :=
  match l with
  | [] => None
  | x :: l' => Some (fold_left Z.min l' x)
  end.

Definition sum (l : list Z) : option Z :=
  match l with
  | [] => None
  | _ => Some (fold_left Z.add l 0)
  end.

Definition coalesce (x : option Z) (d : Z) : Z :=
  match x with Some v => v | None => d end.

(** [SELECT DISTINCT]: the first occurrence of every value. *)
Fixpoint distinct {K} (keqb : K -> K -> bool) (l : list K) : list K :=
  match l with
  | [] => []
  | k :: l' => k :: filter (fun k' => negb (keqb k' k)) (distinct keqb l')
  end.

(** [SELECT key, agg(...) FROM rows GROUP BY key]. *)
Definition group_by {R K V} (keqb : K -> K -> bool) (key : R -> K)
    (agg : list R -> V) (rows : list R) : list (K * V) :=
  map (fun k => (k, agg (filter (fun r => keqb (key r) k) rows)))
      (distinct keqb (map key rows)).

(** [t JOIN u ON cond]: the rows of [u] matching a row of [t]. *)
Definition join_matches {U} (cond : U -> bool) (u : list U) : list U :=
  filter cond u.

(** [t LEFT JOIN u ON cond]: as [JOIN], with one all-null row when nothing
    matches. *)
Definition left_join_matches {U} (cond : U -> bool) (u : list U)
    : list (option U) :=
  match filter cond u with
  | [] => [None]
  | m => map Some m
  end.

(** [DELETE FROM t WHERE cond]. *)
Definition delete_where {R} (cond : R -> bool) (t : list R) : list R :=
  filter (fun r => negb (cond r)) t.

End Sql.

(** ** Schema ([schema.sql], with the columns added by later scripts) *)

Abbreviation uuid := N (only parsing).
Abbreviation date := Z (only parsing).
Abbreviation timestamptz := Z (only parsing).

Record Profile := mkProfile {
  p_id : uuid;
  p_username : string
}.

Record Group := mkGroup {
  g_id : uuid;
  g_name : string;
  g_invite_code : string;
  g_creator_id : uuid
}.

Record GroupMember := mkGroupMember {
  gm_user_id : uuid;
  gm_group_id : uuid;
  gm_joined_at : timestamptz;
  gm_is_admin : bool
}.

(** [group_id] is nullable since [allow_null_group.sql] (a personal play);
    [utc_date] was added nullable by [utc_scoring.sql]. *)
Record DailyResult := mkDailyResult {
  dr_user_id : uuid;
  dr_group_id : option uuid;
  dr_day_index : Z;
  dr_guess_count : Z;
  dr_solved : bool;
  dr_submitted_at : timestamptz;
  dr_local_date : date;
  dr_timezone_offset : Z;
  dr_utc_date : option date
}.

Record ScoreAdjustment := mkScoreAdjustment {
  sa_user_id : uuid;
  sa_group_id : uuid;
  sa_adjustment : Z;
  sa_reason : option string;
  sa_adjusted_by : uuid;
  sa_created_at : timestamptz
}.

Record LeaderboardEntry := mkLeaderboardEntry {
  le_group_id : uuid;
  le_user_id : uuid;
  le_username : string;
  le_total_score : Z;
  le_games_won : Z
}.

Record Database := mkDatabase {
  profiles : list Profile;
  groups : list Group;
  group_members : list GroupMember;
  daily_results : list DailyResult;
  score_adjustments : list ScoreAdjustment
}.

(** Grouping keys and their equality. *)
Definition opt_uuid_eqb : option uuid -> option uuid -> bool :=
  Sql.not_distinct N.eqb.

Definition group_day_eqb (a b : option uuid * option date) : bool :=
  opt_uuid_eqb (fst a) (fst b) && Sql.not_distinct Z.eqb (snd a) (snd b).

Definition group_user_eqb (a b : option uuid * uuid) : bool :=
  opt_uuid_eqb (fst a) (fst b) && N.eqb (snd a) (snd b).

Definition member_key_eqb (a b : uuid * uuid) : bool :=
  N.eqb (fst a) (fst b) && N.eqb (snd a) (snd b).

(** ** The leaderboard view

    The scoring scripts define the same query over three different day
    columns: [day_index] (schema.sql, fix_leaderboard_view.sql), [utc_date]
    (utc_scoring.sql, realtime_scoring.sql) and [local_date]
    (local_date_scoring.sql, reset_local_date_scoring.sql).  The query is
    written once here, over the day column [day] and the input rows; each
    script is an instance. *)

Module View.

Section Query.

Variable day : DailyResult -> option date.

Definition day_key (r : DailyResult) : option uuid * option date :=
  (dr_group_id r, day r).

Record DailyWinner := mkDailyWinner {
  dw_group_id : option uuid;
  dw_day : option date;
  dw_min_guesses : option Z
}.

(** [daily_winners]: per group and day, the least guess count among the
    solved results. *)
Definition daily_winners (rs : list DailyResult) : list DailyWinner :=
  map (fun kv => mkDailyWinner (fst (fst kv)) (snd (fst kv)) (snd kv))
      (Sql.group_by group_day_eqb day_key
         (fun grp => Sql.min (map dr_guess_count grp))
         (filter dr_solved rs)).

(** The ON condition of [point_earners]. *)
Definition earner_on (dr : DailyResult) (dw : DailyWinner) : bool :=
  Sql.eq_is_true N.eqb (dr_group_id dr) (dw_group_id dw)
  && Sql.eq_is_true Z.eqb (day dr) (dw_day dw)
  && Sql.eq_is_true Z.eqb (Some (dr_guess_count dr)) (dw_min_guesses dw).

(** [daily_results dr JOIN daily_winners dw ON ... WHERE dr.solved]: the
    [dr] side of every joined pair. *)
Definition point_earner_rows (rs : list DailyResult) : list DailyResult :=
  filter dr_solved
    (flat_map (fun dr =>
                 map (fun _ => dr)
                     (Sql.join_matches (earner_on dr) (daily_winners rs)))
              rs).

Record PointEarner := mkPointEarner {
  pe_user_id : uuid;
  pe_group_id : option uuid;
  pe_points : Z
}.

Definition point_earners (rs : list DailyResult) : list PointEarner :=
  map (fun dr => mkPointEarner (dr_user_id dr) (dr_group_id dr) 1)
      (point_earner_rows rs).

(** [earned_scores] and [adjustment_totals]. *)
Definition earned_scores (rs : list DailyResult)
    : list ((option uuid * uuid) * option Z) :=
  Sql.group_by group_user_eqb
    (fun pe => (pe_group_id pe, pe_user_id pe))
    (fun grp => Sql.sum (map pe_points grp))
    (point_earners rs).

Definition adjustment_totals (adj : list ScoreAdjustment)
    : list ((uuid * uuid) * option Z) :=
  Sql.group_by member_key_eqb
    (fun sa => (sa_group_id sa, sa_user_id sa))
    (fun grp => Sql.sum (map sa_adjustment grp))
    adj.

(** [all_members] (SELECT DISTINCT) and [current_members] (plain SELECT):
    the scripts use one or the other as the row source of the final
    SELECT. *)
Definition all_members (gm : list GroupMember) : list (uuid * uuid) :=
  Sql.distinct member_key_eqb
    (map (fun m => (gm_group_id m, gm_user_id m)) gm).


Variable members : list GroupMember -> list (uuid * uuid).

(** The final SELECT over [rs], the rows the query reads from
    [daily_results]. *)
Definition leaderboard_rows (db : Database) (rs : list DailyResult)
    : list LeaderboardEntry :=
  flat_map (fun am =>
    flat_map (fun p =>
      flat_map (fun es =>
        map (fun at_ =>
               let earned := Sql.coalesce (match es with
                                           | Some e => snd e
                                           | None => None end) 0 in
               let adjusted := Sql.coalesce (match at_ with
                                             | Some a => snd a
                                             | None => None end) 0 in
               mkLeaderboardEntry (fst am) (snd am) (p_username p)
                 (earned + adjusted) earned)
          (Sql.left_join_matches
             (fun a => N.eqb (fst (fst a)) (fst am)
                       && N.eqb (snd (fst a)) (snd am))
             (adjustment_totals (score_adjustments db))))
        (Sql.left_join_matches
           (fun e => Sql.eq_is_true N.eqb (fst (fst e)) (Some (fst am))
                     && N.eqb (snd (fst e)) (snd am))
           (earned_scores rs)))
      (Sql.join_matches (fun p => N.eqb (p_id p) (snd am)) (profiles db)))
    (members (group_members db)).

End Query.

End View.

(** [local_date_scoring.sql]: the adopted view groups on [local_date]. *)
Definition local_day (r : DailyResult) : option date :=
  Some (dr_local_date r).

Definition leaderboard_scores (db : Database) : list LeaderboardEntry :=
  View.leaderboard_rows local_day View.all_members db
    (daily_results db).

(** The day's winners of a group: the users of the [point_earners] rows
    of that group and local date (the view projects the date away; the
    joined rows still carry it). *)
Definition winners (rs : list DailyResult) (g : uuid) (d : date) : list uuid :=
  map dr_user_id
      (filter (fun dr => Sql.eq_is_true N.eqb (dr_group_id dr) (Some g)
                         && Z.eqb (dr_local_date dr) d)
              (View.point_earner_rows local_day rs)).

Fixpoint insert_desc (e : LeaderboardEntry) (l : list LeaderboardEntry)
    : list LeaderboardEntry :=
  match l with
  | [] => [e]
  | x :: l' => if le_total_score x <=? le_total_score e
               then e :: x :: l'
               else x :: insert_desc e l'
  end.

(** [ORDER BY total_score DESC].  The database leaves the order of rows of
    equal score open; this function returns them in their input order, one
    of the orders a read may see, and the properties below speak of the
    rows of a read, not of the place of a row among its equals. *)
Definition order_desc (l : list LeaderboardEntry) : list LeaderboardEntry :=
  fold_right insert_desc [] l.


(** ** UTC-12 finalisation ([utc_scoring.sql]) *)

Module Utc12.

Definition ms_per_hour : Z := 60 * 60 * 1000.
Definition ms_per_day : Z := 24 * ms_per_hour.

(** [utc_date + INTERVAL '1 day' + INTERVAL '12 hours'], read in a UTC
    session as the database runs it. *)
Definition finalizes_at (d : date) : timestamptz :=
  d * ms_per_day + ms_per_day + 12 * ms_per_hour.

(** [is_day_finalized(check_date)]. *)
Definition is_day_finalized (now : timestamptz) (check_date : date) : bool :=
  finalizes_at check_date <=? now.

(** The WHERE of [finalized_days]; a NULL [utc_date] makes it unknown and
    the row is left out. *)
Definition row_finalized (now : timestamptz) (r : DailyResult) : bool :=
  match dr_utc_date r with
  | Some d => finalizes_at d <=? now
  | None => false
  end.

Definition finalized_days (now : timestamptz) (rs : list DailyResult)
    : list DailyResult :=
  filter (row_finalized now) rs.

(** The WHERE of [pending_daily_results]. *)
Definition row_pending (now : timestamptz) (r : DailyResult) : bool :=
  match dr_utc_date r with
  | Some d => now <? finalizes_at d
  | None => false
  end.

(** The view is a plain VIEW: every read evaluates the query at the
    current time over the current tables. *)
Definition leaderboard_scores (now : timestamptz) (db : Database)
    : list LeaderboardEntry :=
  order_desc
    (View.leaderboard_rows dr_utc_date View.all_members db
       (finalized_days now (daily_results db))).

Definition winners (now : timestamptz) (rs : list DailyResult) (g : uuid)
    (d : date) : list uuid :=
  map dr_user_id
      (filter (fun dr => Sql.eq_is_true N.eqb (dr_group_id dr) (Some g)
                         && Sql.eq_is_true Z.eqb (dr_utc_date dr) (Some d))
              (View.point_earner_rows dr_utc_date (finalized_days now rs))).

(** The winners of a UTC day without the finalisation gate, as
    [realtime_scoring.sql] computes them over all stored rows. *)
Definition realtime_winners (rs : list DailyResult) (g : uuid) (d : date)
    : list uuid :=
  map dr_user_id
      (filter (fun dr => Sql.eq_is_true N.eqb (dr_group_id dr) (Some g)
                         && Sql.eq_is_true Z.eqb (dr_utc_date dr) (Some d))
              (View.point_earner_rows dr_utc_date rs)).

(** The rows of the other UTC days. *)
Definition without_day (d : date) (rs : list DailyResult)
    : list DailyResult :=
  filter (fun r => negb (Sql.eq_is_true Z.eqb (dr_utc_date r) (Some d))) rs.

Inductive DayState := PENDING | FINALIZED.

Definition day_state (now : timestamptz) (d : date) : DayState :=
  if is_day_finalized now d then FINALIZED else PENDING.

End Utc12.

(** ** Statements and constraints

    First the statements with the constraints of the tables, as a session
    that bypasses row-level security runs them (the table owner in the SQL
    editor, the service role); then, in [run_as], the same statements as
    the app's session runs them, under the row-level policies.  The [id]
    columns (random defaults) are left out. *)

Inductive DbError :=
| CheckViolation
| UniqueViolation
| ForeignKeyViolation
| OutOfRange
| PolicyViolation.

Definition has_profile (db : Database) (u : uuid) : bool :=
  existsb (fun p => N.eqb (p_id p) u) (profiles db).

Definition has_group (db : Database) (g : uuid) : bool :=
  existsb (fun x => N.eqb (g_id x) g) (groups db).

(** CHECK (guess_count >= 1 AND guess_count <= 6). *)
Definition guess_count_check (r : DailyResult) : bool :=
  (1 <=? dr_guess_count r) && (dr_guess_count r <=? 6).

(** UNIQUE(user_id, group_id, day_index): rows with a NULL [group_id]
    never conflict. *)
Definition conflicts_day_index (r r' : DailyResult) : bool :=
  N.eqb (dr_user_id r') (dr_user_id r)
  && Sql.eq_is_true N.eqb (dr_group_id r') (dr_group_id r)
  && Z.eqb (dr_day_index r') (dr_day_index r).

(** [idx_daily_results_personal_play]: UNIQUE (user_id, local_date)
    WHERE group_id IS NULL. *)
Definition is_personal (r : DailyResult) : bool :=
  match dr_group_id r with None => true | Some _ => false end.

Definition conflicts_personal (r r' : DailyResult) : bool :=
  is_personal r && is_personal r'
  && N.eqb (dr_user_id r') (dr_user_id r)
  && Z.eqb (dr_local_date r') (dr_local_date r).

Definition set_daily_results (db : Database) (rs : list DailyResult)
    : Database :=
  mkDatabase (profiles db) (groups db) (group_members db) rs
             (score_adjustments db).

Definition set_score_adjustments (db : Database)
    (adj : list ScoreAdjustment) : Database :=
  mkDatabase (profiles db) (groups db) (group_members db)
             (daily_results db) adj.

Definition set_group_members (db : Database) (gm : list GroupMember)
    : Database :=
  mkDatabase (profiles db) (groups db) gm (daily_results db)
             (score_adjustments db).

Definition insert_daily_result (db : Database) (r : DailyResult)
    : DbError + Database :=
  if negb (guess_count_check r) then inl CheckViolation
  else if existsb (conflicts_day_index r) (daily_results db)
          || existsb (conflicts_personal r) (daily_results db)
       then inl UniqueViolation
  else if negb (has_profile db (dr_user_id r)
                && match dr_group_id r with
                   | Some g => has_group db g
                   | None => true
                   end)
       then inl ForeignKeyViolation
  else inr (set_daily_results db (daily_results db ++ [r])).

(** [adjustment INTEGER NOT NULL]: a value outside the 32-bit range is
    refused when the row is read in. *)
Definition is_int4 (x : Z) : bool :=
  (- 2147483648 <=? x) && (x <=? 2147483647).

Definition insert_score_adjustment (db : Database) (a : ScoreAdjustment)
    : DbError + Database :=
  if negb (is_int4 (sa_adjustment a)) then inl OutOfRange
  else if negb (has_profile db (sa_user_id a) && has_group db (sa_group_id a)
                && has_profile db (sa_adjusted_by a))
  then inl ForeignKeyViolation
  else inr (set_score_adjustments db (score_adjustments db ++ [a])).

(** UNIQUE(user_id, group_id) on [group_members]. *)
Definition insert_group_member (db : Database) (m : GroupMember)
    : DbError + Database :=
  if existsb (fun m' => N.eqb (gm_user_id m') (gm_user_id m)
                        && N.eqb (gm_group_id m') (gm_group_id m))
             (group_members db)
  then inl UniqueViolation
  else if negb (has_profile db (gm_user_id m) && has_group db (gm_group_id m))
  then inl ForeignKeyViolation
  else inr (set_group_members db (group_members db ++ [m])).

(** [DELETE FROM daily_results WHERE group_id = g], every row of the group
    being within reach of the session. *)
Definition delete_daily_results (db : Database) (g : uuid) : Database :=
  set_daily_results db
    (Sql.delete_where
       (fun r => Sql.eq_is_true N.eqb (dr_group_id r) (Some g))
       (daily_results db)).

(** [DELETE FROM score_adjustments WHERE group_id = g], likewise: for the
    app's session, which reaches no row of this table, see [run_as]. *)
Definition delete_score_adjustments (db : Database) (g : uuid) : Database :=
  set_score_adjustments db
    (Sql.delete_where (fun a => N.eqb (sa_group_id a) g)
       (score_adjustments db)).

(** [DELETE FROM group_members WHERE user_id = u AND group_id = g],
    likewise. *)
Definition delete_group_member (db : Database) (u g : uuid) : Database :=
  set_group_members db
    (Sql.delete_where
       (fun m => N.eqb (gm_user_id m) u && N.eqb (gm_group_id m) g)
       (group_members db)).

Inductive Statement :=
| InsertResult (r : DailyResult)
| DeleteResults (g : uuid)
| InsertAdjustment (a : ScoreAdjustment)
| DeleteAdjustments (g : uuid)
| InsertMember (m : GroupMember)
| DeleteMember (u g : uuid).

Definition run_statement (db : Database) (st : Statement)
    : DbError + Database :=
  match st with
  | InsertResult r => insert_daily_result db r
  | DeleteResults g => inr (delete_daily_results db g)
  | InsertAdjustment a => insert_score_adjustment db a
  | DeleteAdjustments g => inr (delete_score_adjustments db g)
  | InsertMember m => insert_group_member db m
  | DeleteMember u g => inr (delete_group_member db u g)
  end.

(** The client ignores the error of a failed statement and goes on. *)
Definition run_script (db : Database) (script : list Statement) : Database :=
  fold_left (fun d st => match run_statement d st with
                         | inr d' => d'
                         | inl _ => d
                         end) script db.

(** *** Row-level security

    The app talks to the database as the role [authenticated] with
    [auth.uid()] the signed-in user, and every table has row-level security
    enabled.  An INSERT whose row fails the WITH CHECK of the table's policy
    is an error; a DELETE skips, without an error, the rows its USING clause
    does not admit, and on a table without a DELETE policy it sees no row at
    all.  The role holds the table privileges of the hosting platform's
    defaults, to which the GRANT statements of the scripts only add, so
    each statement is let through to the policies. *)

(** [EXISTS (SELECT 1 FROM group_members WHERE group_id = g AND user_id =
    auth.uid() AND is_admin = true)]. *)
Definition is_group_admin (db : Database) (uid g : uuid) : bool :=
  existsb (fun m => N.eqb (gm_group_id m) g && N.eqb (gm_user_id m) uid
                    && gm_is_admin m)
          (group_members db).

(** A statement as the session of user [uid] runs it:
    - [daily_results]: INSERT WITH CHECK (auth.uid() = user_id); DELETE
      USING (the caller is an admin of the row's group);
    - [score_adjustments]: INSERT WITH CHECK (the caller is an admin of the
      row's group); no DELETE policy;
    - [group_members]: INSERT WITH CHECK (auth.uid() = user_id); DELETE
      USING (auth.uid() = user_id). *)
Definition run_as (uid : uuid) (db : Database) (st : Statement)
    : DbError + Database :=
  match st with
  | InsertResult r =>
      if N.eqb (dr_user_id r) uid then insert_daily_result db r
      else inl PolicyViolation
  | DeleteResults g =>
      inr (if is_group_admin db uid g then delete_daily_results db g else db)
  | InsertAdjustment a =>
      if negb (is_int4 (sa_adjustment a)) then inl OutOfRange
      else if is_group_admin db uid (sa_group_id a)
      then insert_score_adjustment db a
      else inl PolicyViolation
  | DeleteAdjustments g => inr db
  | InsertMember m =>
      if N.eqb (gm_user_id m) uid then insert_group_member db m
      else inl PolicyViolation
  | DeleteMember u g =>
      inr (if N.eqb u uid then delete_group_member db u g else db)
  end.

Definition run_script_as (uid : uuid) (db : Database)
    (script : list Statement) : Database :=
  fold_left (fun d st => match run_as uid d st with
                         | inr d' => d'
                         | inl _ => d
                         end) script db.

(** ** The client ([useGameResults.ts], [useGroups.ts], [Leaderboard.tsx]) *)

Module Client.

(** The time zone of the device, as a [Date] sees it, in the minutes and
    sign of [getTimezoneOffset()] (minutes to add to local time to reach
    UTC): the offset in force at an instant, and the offset the zone gives
    a local wall-clock time when a [Date] is set from local fields.  With
    daylight saving the two depend on their argument. *)
Record Zone := mkZone {
  offset_at : timestamptz -> Z;
  offset_of_local : Z -> Z
}.

(** What [new Date()] gives a caller: the instant, in the zone of the
    device.  One call reads one clock. *)
Record Clock := mkZonedClock {
  now : timestamptz;
  zone : Zone
}.

(** [new Date().getTimezoneOffset()]. *)
Definition tz_offset (c : Clock) : Z := offset_at (zone c) (now c).

(** A clock in a zone whose offset never changes. *)
Definition mkClock (now : timestamptz) (offset : Z) : Clock :=
  mkZonedClock now (mkZone (fun _ => offset) (fun _ => offset)).

Definition ms_per_day : Z := 24 * 60 * 60 * 1000.

(** Local wall-clock time of an instant. *)
Definition local_ms (c : Clock) (t : timestamptz) : Z :=
  t - offset_at (zone c) t * 60000.

(** [d.setHours(0, 0, 0, 0); d.getTime()]: the local fields of the instant
    with the time of day set to zero, read back as an instant with the
    offset the zone gives that local midnight. *)
Definition startOfLocalDay (c : Clock) (t : timestamptz) : timestamptz :=
  let midnight := (local_ms c t / ms_per_day) * ms_per_day in
  midnight + offset_of_local (zone c) midnight * 60000.

(** [calculateDayIndex]: the whole days (of 24 hours) between the local
    midnight of the join date and the local midnight of today. *)
Definition calculateDayIndex (c : Clock) (joinedAt : timestamptz) : Z :=
  (startOfLocalDay c (now c) - startOfLocalDay c joinedAt) / ms_per_day.

(** [getLocalDate]: the date made of [getFullYear()], [getMonth() + 1] and
    [getDate()], the local calendar date. *)
Definition getLocalDate (c : Clock) : date :=
  local_ms c (now c) / ms_per_day.

(** [getLocalDate] of the earlier revision of the hook:
    [now.toISOString().split('T')[0]], the UTC calendar date. *)
Definition getLocalDate_iso (c : Clock) : date :=
  now c / ms_per_day.

Definition getTimezoneOffset (c : Clock) : Z := tz_offset c.

Record GroupWithMembership := mkGroupWithMembership {
  gw_id : uuid;
  gw_name : string;
  gw_invite_code : string;
  gw_is_admin : bool;
  gw_joined_at : timestamptz
}.

Record SubmitResultParams := mkParams {
  guessCount : Z;
  solved : bool
}.

(** The error strings of the hook: ['Not authenticated'], the message of
    a database error, and [`Failed for ${group.name}: ${error.message}`]. *)
Inductive SubmitError :=
| NotAuthenticated
| ErrorMessage (e : DbError)
| FailedFor (group_name : string) (e : DbError).

Record SubmitOutcome := mkOutcome {
  success : bool;
  submitted : nat;
  errors : list SubmitError
}.

(** [.maybeSingle()] / [.single()]: the row when exactly one matches, no
    data otherwise. *)
Definition maybeSingle {R} (rows : list R) : option R :=
  match rows with
  | [r] => Some r
  | _ => None
  end.

(** The row [submitResult] inserts for a group; [submitted_at] takes its
    default NOW() and [utc_date] stays NULL. *)
Definition group_row (c : Clock) (uid : uuid) (group : GroupWithMembership)
    (params : SubmitResultParams) : DailyResult :=
  mkDailyResult uid (Some (gw_id group))
    (calculateDayIndex c (gw_joined_at group))
    (guessCount params) (solved params) (now c)
    (getLocalDate c) (getTimezoneOffset c) None.

Definition personal_row (c : Clock) (uid : uuid)
    (params : SubmitResultParams) : DailyResult :=
  mkDailyResult uid None 0 (guessCount params) (solved params) (now c)
    (getLocalDate c) (getTimezoneOffset c) None.

(** [fetchGroups]: the memberships of the user, each with its group. *)
Definition fetchGroups (db : Database) (uid : uuid)
    : list GroupWithMembership :=
  flat_map (fun m =>
              map (fun g => mkGroupWithMembership (g_id g) (g_name g)
                              (g_invite_code g) (gm_is_admin m)
                              (gm_joined_at m))
                  (filter (fun g => N.eqb (g_id g) (gm_group_id m))
                          (groups db)))
           (filter (fun m => N.eqb (gm_user_id m) uid) (group_members db)).

(** [submitPersonalResult]. *)
Definition submitPersonalResult (c : Clock) (user : option uuid)
    (params : SubmitResultParams) (db : Database)
    : Database * (bool * option SubmitError) :=
  match user with
  | None => (db, (false, Some NotAuthenticated))
  | Some uid =>
      match maybeSingle
              (filter (fun r => N.eqb (dr_user_id r) uid
                                && is_personal r
                                && Z.eqb (dr_local_date r) (getLocalDate c))
                      (daily_results db)) with
      | Some _ => (db, (true, None))
      | None =>
          match insert_daily_result db (personal_row c uid params) with
          | inl e => (db, (false, Some (ErrorMessage e)))
          | inr db' => (db', (true, None))
          end
      end
  end.

(** One turn of the loop of [submitResult]. *)
Definition submit_to_group (c : Clock) (uid : uuid)
    (params : SubmitResultParams)
    (st : Database * nat * list SubmitError)
    (group : GroupWithMembership)
    : Database * nat * list SubmitError :=
  let '(db, n, errs) := st in
  match maybeSingle
          (filter (fun r => N.eqb (dr_user_id r) uid
                            && Sql.eq_is_true N.eqb (dr_group_id r)
                                 (Some (gw_id group))
                            && Z.eqb (dr_day_index r)
                                 (calculateDayIndex c (gw_joined_at group)))
                  (daily_results db)) with
  | Some _ => (db, n, errs)
  | None =>
      match insert_daily_result db (group_row c uid group params) with
      | inl e => (db, n, errs ++ [FailedFor (gw_name group) e])
      | inr db' => (db', S n, errs)
      end
  end.

(** [submitResult]. *)
Definition submitResult (c : Clock) (user : option uuid)
    (groups : list GroupWithMembership) (params : SubmitResultParams)
    (db : Database) : Database * SubmitOutcome :=
  match user with
  | None => (db, mkOutcome false 0 [NotAuthenticated])
  | Some uid =>
      match groups with
      | [] =>
          let '(db', (ok, err)) := submitPersonalResult c user params db in
          (db', mkOutcome ok (if ok then 1%nat else 0%nat)
                  (match err with
                   | Some e => [e]
                   | None => []
                   end))
      | _ =>
          let '(db', n, errs) :=
            fold_left (submit_to_group c uid params) groups (db, 0%nat, []) in
          (db', mkOutcome (match errs with [] => true | _ => false end)
                  n errs)
      end
  end.

(** [joinGroup], from the normalised invite code on. *)
Definition joinGroup (c : Clock) (user : option uuid) (code : string)
    (db : Database) : Database * bool :=
  match user with
  | None => (db, false)
  | Some uid =>
      match maybeSingle
              (filter (fun g => String.eqb (g_invite_code g) code)
                      (groups db)) with
      | None => (db, false)
      | Some group =>
          match maybeSingle
                  (filter (fun m => N.eqb (gm_user_id m) uid
                                    && N.eqb (gm_group_id m) (g_id group))
                          (group_members db)) with
          | Some _ => (db, false)
          | None =>
              match insert_group_member db
                      (mkGroupMember uid (g_id group) (now c) false) with
              | inl _ => (db, false)
              | inr db' => (db', true)
              end
          end
      end
  end.

(** [leaveGroup]. *)
Definition leaveGroup (user : option uuid) (groupId : uuid) (db : Database)
    : Database * bool :=
  match user with
  | None => (db, false)
  | Some uid => (delete_group_member db uid groupId, true)
  end.

(** The statements [handleAdjustScore] and [handleResetScores] issue. *)
Definition handleAdjustScore_script (c : Clock) (user : option uuid)
    (groupId targetUserId : uuid) (adjustment : Z) : list Statement :=
  match user with
  | None => []
  | Some uid =>
      if Z.eqb adjustment 0 then []
      else [InsertAdjustment
              (mkScoreAdjustment targetUserId groupId adjustment
                 (Some (if 0 <? adjustment then "Manual increase"%string
                        else "Manual decrease"%string))
                 uid (now c))]
  end.

Definition handleResetScores_script (user : option uuid) (groupId : uuid)
    : list Statement :=
  match user with
  | None => []
  | Some _ => [DeleteResults groupId; DeleteAdjustments groupId]
  end.

(** Both run their statements as the signed-in user and ignore the
    outcome. *)
Definition handleAdjustScore (c : Clock) (user : option uuid)
    (groupId targetUserId : uuid) (adjustment : Z) (db : Database)
    : Database :=
  match user with
  | None => db
  | Some uid =>
      run_script_as uid db
        (handleAdjustScore_script c user groupId targetUserId adjustment)
  end.

Definition handleResetScores (user : option uuid) (groupId : uuid)
    (db : Database) : Database :=
  match user with
  | None => db
  | Some uid => run_script_as uid db (handleResetScores_script user groupId)
  end.

(** [fetchLeaderboard]: the rows of the group, best score first, read from
    whatever [leaderboard_scores] currently holds ([order_desc] fixes one of
    the orders the database may return for rows of equal score). *)
Definition getLeaderboard (view : list LeaderboardEntry) (groupId : uuid)
    : list LeaderboardEntry :=
  order_desc (filter (fun e => N.eqb (le_group_id e) groupId) view).

(** What the query of [fetchLeaderboard] may return: the rows of the group
    in any order in which the total score never goes up. *)
Fixpoint descending (l : list LeaderboardEntry) : Prop :=
  match l with
  | [] => True
  | x :: t => (forall y, In y t -> le_total_score y <= le_total_score x)
              /\ descending t
  end.

Definition is_read (view : list LeaderboardEntry) (groupId : uuid)
    (l : list LeaderboardEntry) : Prop :=
  Permutation l (filter (fun e => N.eqb (le_group_id e) groupId) view)
  /\ descending l.

End Client.

(** ** Materialised view and refresh triggers ([realtime_scoring.sql]) *)

Module Refresh.

(** The tables, the stored contents of the materialised view, and the
    number of refreshes run so far. *)
Record System := mkSystem {
  sys_db : Database;
  sys_snapshot : list LeaderboardEntry;
  sys_refreshes : nat
}.

(** [refresh_leaderboard()]: REFRESH MATERIALIZED VIEW. *)
Definition refresh_leaderboard (s : System) : System :=
  mkSystem (sys_db s) (leaderboard_scores (sys_db s)) (S (sys_refreshes s)).

(** The statement-level triggers: AFTER INSERT and AFTER DELETE on
    [daily_results], AFTER INSERT OR DELETE on [score_adjustments]. *)
Definition fires_refresh (st : Statement) : bool :=
  match st with
  | InsertResult _ | DeleteResults _ => true
  | InsertAdjustment _ | DeleteAdjustments _ => true
  | InsertMember _ | DeleteMember _ _ => false
  end.

(** A statement that fails changes nothing and fires nothing; one that
    succeeds fires its trigger once, whatever number of rows it touched. *)
Definition exec (s : System) (st : Statement) : System :=
  match run_statement (sys_db s) st with
  | inl _ => s
  | inr db' =>
      let s' := mkSystem db' (sys_snapshot s) (sys_refreshes s) in
      if fires_refresh st then refresh_leaderboard s' else s'
  end.

Definition exec_script (s : System) (script : list Statement) : System :=
  fold_left exec script s.

(** The same for a statement of the app's session: the triggers are
    statement-level, so a DELETE that the policies leave without rows fires
    its trigger all the same; [refresh_leaderboard()] is SECURITY DEFINER
    and reads the whole tables. *)
Definition exec_as (uid : uuid) (s : System) (st : Statement) : System :=
  match run_as uid (sys_db s) st with
  | inl _ => s
  | inr db' =>
      let s' := mkSystem db' (sys_snapshot s) (sys_refreshes s) in
      if fires_refresh st then refresh_leaderboard s' else s'
  end.

Definition exec_script_as (uid : uuid) (s : System)
    (script : list Statement) : System :=
  fold_left (exec_as uid) script s.

(** A read serves the stored snapshot. *)
Definition getLeaderboard (s : System) (groupId : uuid)
    : list LeaderboardEntry :=
  Client.getLeaderboard (sys_snapshot s) groupId.

(** The snapshot is what the query gives on the tables as they are. *)
Definition consistent (s : System) : Prop :=
  sys_snapshot s = leaderboard_scores (sys_db s).

(** *** The client on the system

    [joinGroup] and [leaveGroup] write to [group_members] only, which has
    no trigger: the tables change and the snapshot stays. *)
Definition joinGroup (c : Client.Clock) (user : option uuid) (code : string)
    (s : System) : System * bool :=
  let '(db', ok) := Client.joinGroup c user code (sys_db s) in
  (mkSystem db' (sys_snapshot s) (sys_refreshes s), ok).

Definition leaveGroup (user : option uuid) (groupId : uuid) (s : System)
    : System * bool :=
  let '(db', ok) := Client.leaveGroup user groupId (sys_db s) in
  (mkSystem db' (sys_snapshot s) (sys_refreshes s), ok).

Definition handleAdjustScore (c : Client.Clock) (user : option uuid)
    (groupId targetUserId : uuid) (adjustment : Z) (s : System) : System :=
  match user with
  | None => s
  | Some uid =>
      exec_script_as uid s
        (Client.handleAdjustScore_script c user groupId targetUserId
           adjustment)
  end.

Definition handleResetScores (user : option uuid) (groupId : uuid)
    (s : System) : System :=
  match user with
  | None => s
  | Some uid =>
      exec_script_as uid s (Client.handleResetScores_script user groupId)
  end.

(** The INSERT of [submitResult] and [submitPersonalResult], with its
    trigger. *)
Definition insert_result (s : System) (r : DailyResult) : DbError + System :=
  match insert_daily_result (sys_db s) r with
  | inl e => inl e
  | inr db' =>
      inr (refresh_leaderboard
             (mkSystem db' (sys_snapshot s) (sys_refreshes s)))
  end.

(** [submitPersonalResult], [submitResult] and its loop, as in [Client],
    reading the tables of the system and inserting with the trigger. *)
Definition submitPersonalResult (c : Client.Clock) (user : option uuid)
    (params : Client.SubmitResultParams) (s : System)
    : System * (bool * option Client.SubmitError) :=
  match user with
  | None => (s, (false, Some Client.NotAuthenticated))
  | Some uid =>
      match Client.maybeSingle
              (filter (fun r => N.eqb (dr_user_id r) uid
                                && is_personal r
                                && Z.eqb (dr_local_date r)
                                     (Client.getLocalDate c))
                      (daily_results (sys_db s))) with
      | Some _ => (s, (true, None))
      | None =>
          match insert_result s (Client.personal_row c uid params) with
          | inl e => (s, (false, Some (Client.ErrorMessage e)))
          | inr s' => (s', (true, None))
          end
      end
  end.

Definition submit_to_group (c : Client.Clock) (uid : uuid)
    (params : Client.SubmitResultParams)
    (st : System * nat * list Client.SubmitError)
    (group : Client.GroupWithMembership)
    : System * nat * list Client.SubmitError :=
  let '(s, n, errs) := st in
  match Client.maybeSingle
          (filter (fun r => N.eqb (dr_user_id r) uid
                            && Sql.eq_is_true N.eqb (dr_group_id r)
                                 (Some (Client.gw_id group))
                            && Z.eqb (dr_day_index r)
                                 (Client.calculateDayIndex c
                                    (Client.gw_joined_at group)))
                  (daily_results (sys_db s))) with
  | Some _ => (s, n, errs)
  | None =>
      match insert_result s (Client.group_row c uid group params) with
      | inl e => (s, n, errs ++ [Client.FailedFor (Client.gw_name group) e])
      | inr s' => (s', S n, errs)
      end
  end.

Definition submitResult (c : Client.Clock) (user : option uuid)
    (groups : list Client.GroupWithMembership)
    (params : Client.SubmitResultParams) (s : System)
    : System * Client.SubmitOutcome :=
  match user with
  | None => (s, Client.mkOutcome false 0 [Client.NotAuthenticated])
  | Some uid =>
      match groups with
      | [] =>
          let '(s', (ok, err)) := submitPersonalResult c user params s in
          (s', Client.mkOutcome ok (if ok then 1%nat else 0%nat)
                 (match err with
                  | Some e => [e]
                  | None => []
                  end))
      | _ =>
          let '(s', n, errs) :=
            fold_left (submit_to_group c uid params) groups (s, 0%nat, []) in
          (s', Client.mkOutcome (match errs with [] => true | _ => false end)
                 n errs)
      end
  end.

End Refresh.

(** The membership test of the view, spelt out: a solved row of a real
    group whose guess count is the least among the solved rows of its
    group and day. *)
Definition is_winner (day : DailyResult -> option date)
    (rs : list DailyResult) (r : DailyResult) : bool :=
  dr_solved r
  && match dr_group_id r, day r with
     | Some _, Some _ =>
         Sql.eq_is_true Z.eqb (Some (dr_guess_count r))
           (Sql.min
              (map dr_guess_count
                 (filter (fun r' => group_day_eqb (View.day_key day r')
                                      (View.day_key day r))
                         (filter dr_solved rs))))
     | _, _ => false
     end.

(** What the view computes for a member: the number of [point_earners]
    rows, and the sum of the adjustments. *)
Definition games_won_of (day : DailyResult -> option date)
    (rs : list DailyResult) (g u : uuid) : Z :=
  Z.of_nat
    (List.length (filter (fun r => Sql.eq_is_true N.eqb (dr_group_id r) (Some g)
                              && N.eqb (dr_user_id r) u)
                    (View.point_earner_rows day rs))).

Definition adjustment_sum (adj : list ScoreAdjustment) (g u : uuid) : Z :=
  fold_left Z.add
    (map sa_adjustment
       (filter (fun a => N.eqb (sa_group_id a) g && N.eqb (sa_user_id a) u)
               adj))
    0.

(** The entry the view computes for member [u] of group [g] with profile
    name [name]. *)
Definition entry_of (day : DailyResult -> option date) (db : Database)
    (rs : list DailyResult) (g u : uuid) (name : string) : LeaderboardEntry :=
  mkLeaderboardEntry g u name
    (games_won_of day rs g u + adjustment_sum (score_adjustments db) g u)
    (games_won_of day rs g u).

(** ** Schema constraints the properties rely on

    PRIMARY KEY on [profiles.id], the foreign key from
    [group_members.user_id] to it, and UNIQUE(user_id, group_id) on
    [group_members]. *)
Record schema_ok (db : Database) : Prop := mkSchemaOk {
  profiles_pk : NoDup (map p_id (profiles db));
  members_fk : forall m, In m (group_members db) ->
                         has_profile db (gm_user_id m) = true;
  members_unique :
    NoDup (map (fun m => (gm_group_id m, gm_user_id m)) (group_members db))
}.

Definition is_member (db : Database) (g u : uuid) : Prop :=
  exists m, In m (group_members db) /\ gm_group_id m = g /\ gm_user_id m = u.

(** The results a user has stored in a group, and the day keys (local
    dates) on which the user is among the group's winners. *)
Definition results_of (rs : list DailyResult) (g u : uuid)
    : list DailyResult :=
  filter (fun r => Sql.eq_is_true N.eqb (dr_group_id r) (Some g)
                   && N.eqb (dr_user_id r) u) rs.

Definition days_won (rs : list DailyResult) (g u : uuid) : list date :=
  filter (fun d => existsb (N.eqb u) (winners rs g d))
         (Sql.distinct Z.eqb (map dr_local_date rs)).

(** ** Stored results

    The two uniqueness rules of [daily_results], as properties of the
    table: UNIQUE(user_id, group_id, day_index) binds the rows of a group
    (a NULL [group_id] never conflicts), the partial index binds the
    personal plays by (user_id, local_date). *)
Definition unique_day_index (rs : list DailyResult) : Prop :=
  NoDup (map (fun r => (dr_user_id r, dr_group_id r, dr_day_index r))
             (filter (fun r => negb (is_personal r)) rs)).

Definition unique_personal_play (rs : list DailyResult) : Prop :=
  NoDup (map (fun r => (dr_user_id r, dr_local_date r))
             (filter is_personal rs)).

(** [db'] is [db] after a series of successful inserts of rows satisfying
    [P] into [daily_results]. *)
Inductive inserts (P : DailyResult -> Prop) : Database -> Database -> Prop :=
| inserts_none : forall db, inserts P db db
| inserts_more : forall db db1 db2 r,
    inserts P db db1 ->
    insert_daily_result db1 r = inr db2 ->
    P r ->
    inserts P db db2.

(** ** A worked example

    Group 7 with members 1, 2 and 3.  Day 100: 1 and 2 solve in three
    guesses, 3 fails.  Day 101: only 1 solves, in five.  An admin gives
    member 3 two points. *)
Module Example.

Definition results : list DailyResult :=
  [ mkDailyResult 1 (Some 7%N) 0 3 true 8640000000 100 0 None;
    mkDailyResult 2 (Some 7%N) 0 3 true 8640000001 100 0 None;
    mkDailyResult 3 (Some 7%N) 0 6 false 8640000002 100 0 None;
    mkDailyResult 1 (Some 7%N) 1 5 true 8726400000 101 0 None ].

Definition db : Database :=
  mkDatabase
    [ mkProfile 1 "ann"; mkProfile 2 "bob"; mkProfile 3 "cat";
      mkProfile 4 "dan" ]
    [ mkGroup 7 "friends" "abc123" 1 ]
    [ mkGroupMember 1 7 8640000000 true;
      mkGroupMember 2 7 8640000000 false;
      mkGroupMember 3 7 8640000000 false ]
    results
    [ mkScoreAdjustment 3 7 2 (Some "Manual increase"%string) 1 8730000000 ].

(** The same group before any play: member 2 joined on day 95, plays on
    day 100, leaves, joins again the same day and plays once more. *)
Definition roster : Database :=
  mkDatabase (profiles db) (groups db)
    [ mkGroupMember 1 7 8208000000 true;
      mkGroupMember 2 7 8208000000 false ]
    [] [].

Definition noon : Client.Clock := Client.mkClock 8683200000 0.
Definition one_pm : Client.Clock := Client.mkClock 8686800000 0.
Definition two_pm : Client.Clock := Client.mkClock 8690400000 0.

Definition first_play : Database :=
  fst (Client.submitResult noon (Some 2%N) (Client.fetchGroups roster 2)
         (Client.mkParams 3 true) roster).

Definition rejoined : Database :=
  fst (Client.joinGroup one_pm (Some 2%N) "abc123"
         (fst (Client.leaveGroup (Some 2%N) 7 first_play))).

Definition second_play : Database * Client.SubmitOutcome :=
  Client.submitResult two_pm (Some 2%N) (Client.fetchGroups rejoined 2)
    (Client.mkParams 3 true) rejoined.

(** A zone on UTC that moves its clocks forward by an hour at 01:00 of day
    101, and two clocks in it: noon (UTC) of day 101 and of day 102. *)
Definition summer_time : Client.Zone :=
  Client.mkZone
    (fun t => if t <? 101 * 86400000 + 3600000 then 0 else -60)
    (fun l => if l <? 101 * 86400000 + 3600000 then 0 else -60).

Definition day_of_change : Client.Clock :=
  Client.mkZonedClock (101 * 86400000 + 43200000) summer_time.

Definition day_after_change : Client.Clock :=
  Client.mkZonedClock (102 * 86400000 + 43200000) summer_time.

End Example.

(** ** The game ([gameLogic.ts], and the key colouring of [App.tsx]) *)

Module Game.

Inductive LetterState := correct | present | absent | initial.

Definition LetterState_eqb (a b : LetterState) : bool :=
  match a, b with
  | correct, correct | present, present
  | absent, absent | initial, initial => true
  | _, _ => false
  end.

(** A JavaScript array: a cell holds a value or nothing (a hole, an index
    past the end, or the empty string that marks a used letter). *)
Definition cell {A} (l : list (option A)) (i : nat) : option A :=
  match nth_error l i with
  | Some x => x
  | None => None
  end.

(** [l[i] = x]: in range the cell is replaced, past the end the array
    grows, leaving holes. *)
Fixpoint put {A} (l : list (option A)) (i : nat) (x : option A)
    : list (option A) :=
  match i, l with
  | O, [] => [x]
  | O, _ :: t => x :: t
  | S i', [] => None :: put [] i' x
  | S i', y :: t => y :: put t i' x
  end.

(** [l.indexOf(c)]. *)
Fixpoint indexOf (l : list (option Ascii.ascii)) (c : Ascii.ascii)
    : option nat :=
  match l with
  | [] => None
  | x :: t =>
      match x with
      | Some c' => if Ascii.eqb c' c then Some O
                   else option_map S (indexOf t c)
      | None => option_map S (indexOf t c)
      end
  end.

(** [chars.forEach((char, i) => ...)] from index [i] on. *)
Fixpoint forEach {St} (body : nat -> Ascii.ascii -> St -> St) (i : nat)
    (chars : list Ascii.ascii) (st : St) : St :=
  match chars with
  | [] => st
  | c :: t => forEach body (S i) t (body i c st)
  end.

Definition Marks : Type :=
  list (option LetterState) * list (option Ascii.ascii).

Definition is_cell_char (x : option Ascii.ascii) (c : Ascii.ascii) : bool :=
  match x with
  | Some c' => Ascii.eqb c' c
  | None => false
  end.

Definition is_correct (x : option LetterState) : bool :=
  match x with
  | Some correct => true
  | _ => false
  end.

(** First pass: the letters in the right place. *)
Definition mark_correct (i : nat) (char : Ascii.ascii) (st : Marks) : Marks :=
  if is_cell_char (cell (snd st) i) char
  then (put (fst st) i (Some correct), put (snd st) i None)
  else st.

(** Second pass: the letters present elsewhere. *)
Definition mark_present (i : nat) (char : Ascii.ascii) (st : Marks) : Marks :=
  if negb (is_correct (cell (fst st) i))
  then match indexOf (snd st) char with
       | Some index => (put (fst st) i (Some present), put (snd st) index None)
       | None => st
       end
  else st.

(** [checkGuess]. *)
Definition checkGuess (guess solution : list Ascii.ascii)
    : list (option LetterState) :=
  fst (forEach mark_present 0 guess
         (forEach mark_correct 0 guess
            (repeat (Some absent) 5, map Some solution))).

(** [isValidGuess], over the word list of [words.ts]. *)
Definition isValidGuess (VALID_GUESSES : list string) (guess : string) : bool :=
  existsb (String.eqb guess) VALID_GUESSES.

(** ToInt32. *)
Definition toInt32 (x : Z) : Z := (x + 2 ^ 31) mod 2 ^ 32 - 2 ^ 31.

(** One turn of the loop of [hashDateString]:
    [hash = ((hash << 5) - hash) + char; hash = hash & hash]. *)
Definition hash_step (hash char : Z) : Z :=
  toInt32 ((toInt32 (Z.shiftl (toInt32 hash) 5) - hash) + char).

Definition charCodes (s : string) : list Z :=
  map (fun c => Z.of_N (Ascii.N_of_ascii c)) (list_ascii_of_string s).

(** [hashDateString]. *)
Definition hashDateString (dateStr : string) : Z :=
  Z.abs (fold_left hash_step (charCodes dateStr) 0).

(** [getWordOfDay], for the local date string and the word list of
    [words.ts]; indexing an empty list gives nothing. *)
Definition getWordOfDay (WORDS : list string) (localDate : string)
    : option string :=
  match WORDS with
  | [] => None
  | _ => nth_error WORDS
           (Z.to_nat (hashDateString localDate
                      mod Z.of_nat (List.length WORDS)))
  end.

(** The keyboard colours: an object from letters to states. *)
Definition UsedKeys : Type := list (Ascii.ascii * LetterState).

Fixpoint key_state (keys : UsedKeys) (c : Ascii.ascii) : option LetterState :=
  match keys with
  | [] => None
  | (k, v) :: t => if Ascii.eqb k c then Some v else key_state t c
  end.

Fixpoint key_set (keys : UsedKeys) (c : Ascii.ascii) (v : LetterState)
    : UsedKeys :=
  match keys with
  | [] => [(c, v)]
  | (k, w) :: t => if Ascii.eqb k c then (k, v) :: t
                   else (k, w) :: key_set t c v
  end.

(** The body of the loop that folds a checked guess into the key
    colours. *)
Definition merge_key (result : list (option LetterState)) (i : nat)
    (char : Ascii.ascii) (keys : UsedKeys) : UsedKeys :=
  let currentState := key_state keys char in
  match cell result i with
  | Some correct => key_set keys char correct
  | Some present =>
      if negb (is_correct currentState) then key_set keys char present
      else keys
  | Some absent =>
      match currentState with
      | Some correct | Some present => keys
      | _ => key_set keys char absent
      end
  | _ => keys
  end.

Definition updateUsedKeys (usedKeys : UsedKeys) (currentGuess : list Ascii.ascii)
    (result : list (option LetterState)) : UsedKeys :=
  forEach (merge_key result) 0 currentGuess usedKeys.

(** How far a key has been revealed. *)
Definition rank (x : option LetterState) : nat :=
  match x with
  | Some correct => 3
  | Some present => 2
  | Some absent => 1
  | _ => 0
  end.

(** The tiles of letter [c] that a checked guess colours green or
    yellow, and the occurrences of a letter in a word. *)
Definition is_coloured (x : option LetterState) : bool :=
  match x with
  | Some correct | Some present => true
  | _ => false
  end.

Definition coloured (guess : list Ascii.ascii)
    (result : list (option LetterState)) (c : Ascii.ascii) : nat :=
  List.length
    (filter (fun i => is_cell_char (cell (map Some guess) i) c
                      && is_coloured (cell result i))
            (seq 0 (List.length guess))).

Definition occurrences (word : list Ascii.ascii) (c : Ascii.ascii) : nat :=
  List.length (filter (fun x => Ascii.eqb x c) word).

(** Whether the guess has the solution's letter at a position, and the
    cell of a fresh result, [Array(5).fill('absent')]. *)
Definition same_at (guess solution : list Ascii.ascii) (j : nat) : bool :=
  match nth_error guess j, nth_error solution j with
  | Some a, Some b => Ascii.eqb b a
  | _, _ => false
  end.

Definition blank (j : nat) : option LetterState :=
  if Nat.ltb j 5 then Some absent else None.

(** The letters of the solution not yet used up by a coloured tile. *)
Definition available (sol : list (option Ascii.ascii)) (c : Ascii.ascii)
    : nat :=
  List.length (filter (fun x => is_cell_char x c) sol).

End Game.

(** ** More of the hooks and components *)

Module Hooks.




Definition set_groups (db : Database) (gs : list Group) : Database :=
  mkDatabase (profiles db) gs (group_members db) (daily_results db)
             (score_adjustments db).

(** INSERT INTO groups: the primary key, UNIQUE on [invite_code], the
    foreign key of [creator_id], then the row trigger [on_group_created]
    whose [handle_new_group] makes the creator an admin member; a failure
    of the trigger's insert fails the statement.  [id] and [code] stand
    for the random defaults of the two columns. *)
Definition insert_group (now : timestamptz) (db : Database) (g : Group)
    : DbError + Database :=
  if existsb (fun x => N.eqb (g_id x) (g_id g)
                       || String.eqb (g_invite_code x) (g_invite_code g))
             (groups db)
  then inl UniqueViolation
  else if negb (has_profile db (g_creator_id g))
  then inl ForeignKeyViolation
  else insert_group_member (set_groups db (groups db ++ [g]))
         (mkGroupMember (g_creator_id g) (g_id g) now true).

(** [createGroup] ([useGroups.ts]). *)
Definition createGroup (c : Client.Clock) (user : option uuid) (name : string)
    (id : uuid) (code : string) (db : Database) : Database * option Group :=
  match user with
  | None => (db, None)
  | Some uid =>
      match insert_group (Client.now c) db (mkGroup id name code uid) with
      | inl _ => (db, None)
      | inr db' => (db', Some (mkGroup id name code uid))
      end
  end.





(** What an adjustment of [a] points for [target] in group [g] does to an
    entry. *)
Definition bump (g target : uuid) (a : Z) (e : LeaderboardEntry)
    : LeaderboardEntry :=
  if N.eqb (le_group_id e) g && N.eqb (le_user_id e) target
  then mkLeaderboardEntry (le_group_id e) (le_user_id e) (le_username e)
         (le_total_score e + a) (le_games_won e)
  else e.

End Hooks.

(** ** The first leaderboard view ([schema.sql], section 4)

    Built on the point earners alone: no membership, no adjustments. *)

Module FirstView.

Record Entry := mkEntry {
  fv_group_id : option uuid;
  fv_user_id : uuid;
  fv_username : string;
  fv_total_score : option Z;
  fv_days_won : Z
}.

Definition key_eqb (a b : option uuid * uuid * string) : bool :=
  group_user_eqb (fst a) (fst b) && String.eqb (snd a) (snd b).

Definition day_index_day (r : DailyResult) : option date :=
  Some (dr_day_index r).

(** [point_earners pe JOIN profiles p ON p.id = pe.user_id]. *)
Definition earners_with_profile (db : Database)
    : list (DailyResult * Profile) :=
  flat_map (fun pe =>
              map (fun p => (pe, p))
                  (Sql.join_matches (fun p => N.eqb (p_id p) (dr_user_id pe))
                     (profiles db)))
           (View.point_earner_rows day_index_day (daily_results db)).

(** [ORDER BY total_score DESC]: nulls first, rows of equal score in their
    input order. *)
Definition sorts_after (a b : option Z) : bool :=
  match a, b with
  | _, None => true
  | None, Some _ => false
  | Some x, Some y => x <=? y
  end.

Fixpoint insert_desc (e : Entry) (l : list Entry) : list Entry :=
  match l with
  | [] => [e]
  | x :: l' => if sorts_after (fv_total_score x) (fv_total_score e)
               then e :: x :: l'
               else x :: insert_desc e l'
  end.

Definition order_desc (l : list Entry) : list Entry :=
  fold_right insert_desc [] l.

Definition leaderboard_scores (db : Database) : list Entry :=
  order_desc
    (map (fun kv => mkEntry (fst (fst (fst kv))) (snd (fst (fst kv)))
                      (snd (fst kv)) (fst (snd kv)) (snd (snd kv)))
         (Sql.group_by key_eqb
            (fun x => (dr_group_id (fst x), dr_user_id (fst x),
                       p_username (snd x)))
            (fun grp => (Sql.sum (map (fun _ => 1) grp),
                         Z.of_nat (List.length grp)))
            (earners_with_profile db))).

End FirstView.

(** ** Saved games *)

(** In the browser ([gameLogic.ts]): one item of local storage, written as
    JSON and read back as written. *)
Module LocalStore.

Record GameProgress := mkGameProgress {
  gp_date : string;
  gp_guesses : list string;
  gp_guessStates : list (list (option Game.LetterState));
  gp_turn : Z;
  gp_isGameOver : bool;
  gp_isGameWon : bool;
  gp_usedKeys : Game.UsedKeys
}.

(** The argument of [saveGameProgress]; a [date] property, when the
    caller's object has one, comes after the function's own in the spread
    and wins. *)
Record ProgressData := mkProgressData {
  pd_date : option string;
  pd_guesses : list string;
  pd_guessStates : list (list (option Game.LetterState));
  pd_turn : Z;
  pd_isGameOver : bool;
  pd_isGameWon : bool;
  pd_usedKeys : Game.UsedKeys
}.

Definition Storage : Type := option GameProgress.

Definition saveGameProgress (today : string) (progress : ProgressData)
    (st : Storage) : Storage :=
  Some (mkGameProgress
          (match pd_date progress with Some d => d | None => today end)
          (pd_guesses progress) (pd_guessStates progress) (pd_turn progress)
          (pd_isGameOver progress) (pd_isGameWon progress)
          (pd_usedKeys progress)).

Definition clearGameProgress (st : Storage) : Storage := None.

Definition loadGameProgress (today : string) (st : Storage)
    : Storage * option GameProgress :=
  match st with
  | None => (st, None)
  | Some data =>
      if negb (String.eqb (gp_date data) today)
      then (clearGameProgress st, None)
      else (st, Some data)
  end.

Definition hasCompletedGameToday (today : string) (st : Storage)
    : Storage * bool :=
  let '(st', progress) := loadGameProgress today st in
  (st', match progress with
        | Some p => gp_isGameOver p
        | None => false
        end).

(** [saveGuestPlayStatus]; [solved] is the optional property of the
    status. *)
Definition saveGuestPlayStatus (today : string) (solved : option bool)
    (st : Storage) : Storage :=
  let '(st', existing) := loadGameProgress today st in
  match existing with
  | Some e =>
      saveGameProgress today
        (mkProgressData (Some (gp_date e)) (gp_guesses e) (gp_guessStates e)
           (gp_turn e) true
           (match solved with Some b => b | None => false end)
           (gp_usedKeys e))
        st'
  | None => st'
  end.

Definition hasGuestPlayedToday (today : string) (st : Storage)
    : Storage * bool :=
  hasCompletedGameToday today st.

End LocalStore.

(** In the database ([user_game_progress.sql] and the hook). *)
Module ProgressDb.

Record Row := mkRow {
  ugp_user_id : uuid;
  ugp_local_date : date;
  ugp_guesses : list string;
  ugp_guess_states : list (list (option Game.LetterState));
  ugp_turn : Z;
  ugp_is_game_over : bool;
  ugp_is_game_won : bool;
  ugp_used_keys : Game.UsedKeys;
  ugp_updated_at : timestamptz
}.




(** [cleanup_old_game_progress()]: the rows left and the number deleted;
    [CURRENT_DATE] is the day of the server's clock. *)
Definition cleanup_old_game_progress (now : timestamptz) (t : list Row)
    : list Row * Z :=
  let current_date := now / Client.ms_per_day in
  let kept := Sql.delete_where
                (fun r => ugp_local_date r <? current_date - 2) t in
  (kept, Z.of_nat (List.length t - List.length kept)).




End ProgressDb.

(** * Properties *)

(** ** Relational primitives *)

Section SqlFacts.

Context {K : Type} (keqb : K -> K -> bool).
Hypothesis keqb_eq : forall x y, keqb x y = true <-> x = y.

Lemma keqb_refl : forall x, keqb x x = true.
Proof. intro x. apply keqb_eq. reflexivity. Qed.

Lemma distinct_In : forall (l : list K) x,
  In x (Sql.distinct keqb l) <-> In x l.
Proof.
  induction l as [|k l IH]; intro x; simpl; [tauto|].
  rewrite filter_In, IH. split.
  - intros [H | [H _]]; auto.
  - intros [H | H]; auto.
    destruct (keqb x k) eqn:E.
    + left. symmetry. now apply keqb_eq.
    + right. split; auto.
Qed.

Lemma NoDup_filter {A} (f : A -> bool) (l : list A) :
  NoDup l -> NoDup (filter f l).
Proof.
  induction 1 as [|x l Hx Hl IH]; simpl; [constructor|].
  destruct (f x); auto. constructor; auto.
  rewrite filter_In. tauto.
Qed.

Lemma distinct_NoDup : forall l : list K, NoDup (Sql.distinct keqb l).
Proof.
  induction l as [|k l IH]; simpl; constructor.
  - rewrite filter_In. intros [_ H]. now rewrite keqb_refl in H.
  - now apply NoDup_filter.
Qed.

Lemma filter_none {A} (f : A -> bool) (l : list A) :
  (forall x, In x l -> f x = false) -> filter f l = [].
Proof.
  induction l as [|a l IH]; simpl; intro H; auto.
  rewrite (H a) by auto. apply IH. intros; apply H; auto.
Qed.

(** A key occurs at most once in a duplicate-free list of keys. *)
Lemma filter_key_NoDup : forall (l : list K) k,
  NoDup l ->
  filter (fun x => keqb x k) l = if existsb (fun x => keqb x k) l then [k] else [].
Proof.
  induction l as [|a l IH]; intros k Hnd; simpl; auto.
  inversion Hnd as [|? ? Ha Hl]; subst.
  destruct (keqb a k) eqn:E; simpl.
  - apply keqb_eq in E. subst a. f_equal.
    apply filter_none. intros x Hx.
    destruct (keqb x k) eqn:E'; auto.
    apply keqb_eq in E'. subst. contradiction.
  - now apply IH.
Qed.

Lemma existsb_distinct : forall (l : list K) k,
  existsb (fun x => keqb x k) (Sql.distinct keqb l)
  = existsb (fun x => keqb x k) l.
Proof.
  intros l k. apply eq_true_iff_eq. rewrite !existsb_exists.
  split; intros [x [Hx E]]; exists x; split; auto; now apply distinct_In.
Qed.

Lemma existsb_map {R} (key : R -> K) (test : K -> bool) :
  forall rows : list R,
    existsb test (map key rows) = existsb (fun r => test (key r)) rows.
Proof. intro rows. induction rows as [|a l IH]; simpl; congruence. Qed.

(** A GROUP BY has at most one row per key: the aggregate of that key's
    rows. *)
Lemma group_by_lookup {R V} (key : R -> K) (agg : list R -> V)
    (rows : list R) (k : K) :
  filter (fun kv => keqb (fst kv) k) (Sql.group_by keqb key agg rows)
  = if existsb (fun r => keqb (key r) k) rows
    then [(k, agg (filter (fun r => keqb (key r) k) rows))]
    else [].
Proof.
  unfold Sql.group_by.
  set (f := fun k0 => (k0, agg (filter (fun r => keqb (key r) k0) rows))).
  assert (Hc : forall l, filter (fun kv : K * V => keqb (fst kv) k) (map f l)
                         = map f (filter (fun x => keqb x k) l)).
  { induction l as [|a l IH]; simpl; auto.
    destruct (keqb a k); simpl; now rewrite IH. }
  rewrite Hc, filter_key_NoDup by apply distinct_NoDup.
  rewrite existsb_distinct.
  rewrite existsb_map. now destruct (existsb _ rows).
Qed.

End SqlFacts.

Lemma opt_uuid_eqb_eq : forall x y, opt_uuid_eqb x y = true <-> x = y.
Proof.
  intros [a|] [b|]; simpl; try (split; congruence).
  rewrite N.eqb_eq. split; congruence.
Qed.

Lemma group_day_eqb_eq : forall x y, group_day_eqb x y = true <-> x = y.
Proof.
  intros [a b] [c d]. unfold group_day_eqb; simpl.
  rewrite andb_true_iff, opt_uuid_eqb_eq.
  assert (H : Sql.not_distinct Z.eqb b d = true <-> b = d).
  { destruct b, d; simpl; try (split; congruence).
    rewrite Z.eqb_eq. split; congruence. }
  rewrite H. split; [intros [-> ->]; auto | intro E; inversion E; auto].
Qed.

Lemma group_user_eqb_eq : forall x y, group_user_eqb x y = true <-> x = y.
Proof.
  intros [a b] [c d]. unfold group_user_eqb; simpl.
  rewrite andb_true_iff, opt_uuid_eqb_eq, N.eqb_eq.
  split; [intros [-> ->]; auto | intro E; inversion E; auto].
Qed.

Lemma member_key_eqb_eq : forall x y, member_key_eqb x y = true <-> x = y.
Proof.
  intros [a b] [c d]. unfold member_key_eqb; simpl.
  rewrite andb_true_iff, !N.eqb_eq.
  split; [intros [-> ->]; auto | intro E; inversion E; auto].
Qed.

Lemma fold_min_le : forall l x, fold_left Z.min l x <= x.
Proof.
  induction l as [|a l IH]; intro x; simpl; [lia|].
  specialize (IH (Z.min x a)). lia.
Qed.

Lemma fold_min_lower : forall l x y, In y l -> fold_left Z.min l x <= y.
Proof.
  induction l as [|a l IH]; intros x y H; simpl in *; [tauto|].
  destruct H as [-> | H]; [|now apply IH].
  pose proof (fold_min_le l (Z.min x y)). lia.
Qed.

Lemma fold_min_In : forall l x,
  fold_left Z.min l x = x \/ In (fold_left Z.min l x) l.
Proof.
  induction l as [|a l IH]; intro x; simpl; auto.
  destruct (IH (Z.min x a)) as [H | H]; auto.
  rewrite H. destruct (Z.min_spec x a) as [[_ E] | [_ E]]; rewrite E; auto.
Qed.

(** MIN is the least element of a non-empty group. *)
Lemma sql_min_spec : forall l m,
  Sql.min l = Some m <-> In m l /\ forall x, In x l -> m <= x.
Proof.
  intros [|a l] m; simpl.
  - split; [discriminate | tauto].
  - split.
    + intro E. inversion E; subst; clear E. split.
      * destruct (fold_min_In l a) as [H | H]; [left; now rewrite H | auto].
      * intros x [<- | H]; [apply fold_min_le | now apply fold_min_lower].
    + intros [Hin Hle]. f_equal.
      assert (H1 : fold_left Z.min l a <= m).
      { destruct Hin as [<- | H]; [apply fold_min_le | now apply fold_min_lower]. }
      assert (H2 : m <= fold_left Z.min l a).
      { apply Hle. destruct (fold_min_In l a) as [H | H]; [left; now rewrite H | auto]. }
      lia.
Qed.

Lemma fold_add_acc : forall l x, fold_left Z.add l x = x + fold_left Z.add l 0.
Proof.
  induction l as [|a l IH]; intro x; simpl; [lia|].
  rewrite (IH (x + a)), (IH a). lia.
Qed.

Lemma coalesce_sum : forall l, Sql.coalesce (Sql.sum l) 0 = fold_left Z.add l 0.
Proof. destruct l; reflexivity. Qed.

Lemma sum_ones {A} (l : list A) :
  fold_left Z.add (map (fun _ => 1) l) 0 = Z.of_nat (List.length l).
Proof.
  induction l as [|a l IH]; [reflexivity|].
  cbn [map fold_left List.length]. rewrite fold_add_acc, IH. lia.
Qed.

Lemma filter_map_comm {A B} (f : A -> B) (p : B -> bool) (l : list A) :
  filter p (map f l) = map f (filter (fun a => p (f a)) l).
Proof.
  induction l as [|a l IH]; simpl; auto.
  destruct (p (f a)); simpl; now rewrite IH.
Qed.

Lemma filter_andb {A} (f g : A -> bool) (l : list A) :
  filter (fun x => f x && g x) l = filter g (filter f l).
Proof.
  induction l as [|a l IH]; simpl; auto.
  destruct (f a); simpl; [destruct (g a)|]; now rewrite IH.
Qed.

Lemma filter_true {A} (l : list A) : filter (fun _ => true) l = l.
Proof. induction l as [|a l IH]; simpl; congruence. Qed.

Lemma flat_map_singleton {A B} (f : A -> B) (l : list A) :
  flat_map (fun a => [f a]) l = map f l.
Proof. induction l as [|a l IH]; simpl; congruence. Qed.

(** A LEFT JOIN against a grouped SUM yields exactly one row per left row,
    and COALESCE(sum, 0) is the sum over the matching input rows. *)
Lemma left_join_group_sum {R K} (keqb : K -> K -> bool)
    (keqb_eq : forall x y, keqb x y = true <-> x = y)
    (key : R -> K) (val : R -> Z) (rows : list R) (k : K)
    (cond : K * option Z -> bool) :
  (forall kv, cond kv = keqb (fst kv) k) ->
  exists o,
    Sql.left_join_matches cond
      (Sql.group_by keqb key (fun grp => Sql.sum (map val grp)) rows) = [o]
    /\ Sql.coalesce (match o with Some e => snd e | None => None end) 0
       = fold_left Z.add (map val (filter (fun r => keqb (key r) k) rows)) 0.
Proof.
  intro Hc. unfold Sql.left_join_matches.
  rewrite (filter_ext _ _ Hc), (group_by_lookup keqb keqb_eq).
  destruct (existsb (fun r => keqb (key r) k) rows) eqn:E.
  - eexists. split; [reflexivity|]. cbn [snd]. apply coalesce_sum.
  - exists None. split; [reflexivity|].
    rewrite filter_none; [reflexivity|].
    intros x Hx. destruct (keqb (key x) k) eqn:E'; auto.
    assert (existsb (fun r => keqb (key r) k) rows = true)
      by (apply existsb_exists; eauto).
    congruence.
Qed.

(** ** The view *)

Section ViewFacts.

Variable day : DailyResult -> option date.

(** The join of [point_earners] keeps the winning rows, each once. *)
Lemma point_earner_rows_filter : forall rs,
  View.point_earner_rows day rs = filter (is_winner day rs) rs.
Proof.
  intro rs. unfold View.point_earner_rows.
  set (dws := View.daily_winners day rs).
  assert (H : forall dr,
    filter dr_solved
      (map (fun _ => dr) (Sql.join_matches (View.earner_on day dr) dws))
    = if is_winner day rs dr then [dr] else []).
  { intro dr. unfold is_winner.
    destruct (dr_solved dr) eqn:Hs; cbn [andb].
    2:{ apply filter_none. intros x Hx. apply in_map_iff in Hx.
        destruct Hx as [_ [<- _]]. exact Hs. }
    unfold Sql.join_matches, dws, View.daily_winners.
    rewrite (filter_map_comm (fun _ => dr)), Hs.
    rewrite filter_true, filter_map_comm, map_map.
    destruct (dr_group_id dr) as [g|] eqn:Hg.
    2:{ rewrite filter_none; [reflexivity|].
        intros kv _. unfold View.earner_on. now rewrite Hg. }
    destruct (day dr) as [d|] eqn:Hd.
    2:{ rewrite filter_none; [reflexivity|].
        intros kv _. unfold View.earner_on. rewrite Hg, Hd. cbn.
        now rewrite andb_false_r. }
    rewrite (filter_ext _
               (fun kv => group_day_eqb (fst kv) (View.day_key day dr)
                          && Sql.eq_is_true Z.eqb (Some (dr_guess_count dr))
                               (snd kv))).
    2:{ intros [[a b] m]. unfold View.earner_on, View.day_key, group_day_eqb.
        rewrite Hg, Hd. cbn.
        destruct a as [a|], b as [b|]; cbn; rewrite ?andb_false_r; auto.
        now rewrite (N.eqb_sym g a), (Z.eqb_sym d b). }
    rewrite filter_andb, (group_by_lookup group_day_eqb group_day_eqb_eq).
    match goal with |- context [Sql.min ?l] => set (m := Sql.min l) end.
    destruct (existsb _ (filter dr_solved rs)) eqn:E.
    - cbn [filter snd]. destruct (Sql.eq_is_true Z.eqb _ m); cbn; auto.
    - cbn. subst m. rewrite filter_none; [reflexivity|].
      intros x Hx. destruct (group_day_eqb _ _) eqn:E'; auto.
      assert (existsb (fun r => group_day_eqb (View.day_key day r)
                                  (View.day_key day dr))
                (filter dr_solved rs) = true)
        by (apply existsb_exists; eauto).
      congruence. }
  clearbody dws. generalize rs at 1 3. intro l.
  induction l as [|a l IH]; [reflexivity|].
  cbn [flat_map filter]. rewrite filter_app, H, IH.
  destruct (is_winner _ _ a); reflexivity.
Qed.

Lemma earned_lookup : forall rs g u,
  exists o,
    Sql.left_join_matches
      (fun e : (option uuid * uuid) * option Z =>
         Sql.eq_is_true N.eqb (fst (fst e)) (Some g) && N.eqb (snd (fst e)) u)
      (View.earned_scores day rs) = [o]
    /\ Sql.coalesce (match o with Some e => snd e | None => None end) 0
       = games_won_of day rs g u.
Proof.
  intros rs g u.
  destruct (left_join_group_sum group_user_eqb group_user_eqb_eq
              (fun pe => (View.pe_group_id pe, View.pe_user_id pe))
              View.pe_points (View.point_earners day rs) (Some g, u)
              (fun e => Sql.eq_is_true N.eqb (fst (fst e)) (Some g)
                        && N.eqb (snd (fst e)) u))
    as [o [Ho Hv]]; [intros [[[a|] b] v]; reflexivity|].
  exists o. split; [exact Ho|]. rewrite Hv.
  unfold View.point_earners, games_won_of.
  rewrite filter_map_comm, map_map. cbn [View.pe_points].
  rewrite sum_ones. reflexivity.
Qed.

Lemma adjustment_lookup : forall adj g u,
  exists o,
    Sql.left_join_matches
      (fun a : (uuid * uuid) * option Z =>
         N.eqb (fst (fst a)) g && N.eqb (snd (fst a)) u)
      (View.adjustment_totals adj) = [o]
    /\ Sql.coalesce (match o with Some e => snd e | None => None end) 0
       = adjustment_sum adj g u.
Proof.
  intros adj g u.
  destruct (left_join_group_sum member_key_eqb member_key_eqb_eq
              (fun sa => (sa_group_id sa, sa_user_id sa))
              sa_adjustment adj (g, u)
              (fun a => N.eqb (fst (fst a)) g && N.eqb (snd (fst a)) u))
    as [o [Ho Hv]]; [intros [[a b] v]; reflexivity|].
  exists o. split; [exact Ho|]. rewrite Hv. reflexivity.
Qed.

(** Normal form of the final SELECT: one row per member row and matching
    profile. *)
Lemma leaderboard_rows_spec : forall members db rs,
  View.leaderboard_rows day members db rs
  = flat_map (fun am =>
      map (fun p => entry_of day db rs (fst am) (snd am) (p_username p))
          (filter (fun p => N.eqb (p_id p) (snd am)) (profiles db)))
      (members (group_members db)).
Proof.
  intros members db rs. unfold View.leaderboard_rows.
  apply flat_map_ext. intro am.
  unfold Sql.join_matches. rewrite <- flat_map_singleton.
  apply flat_map_ext. intro p.
  destruct (earned_lookup rs (fst am) (snd am)) as [oe [He Hev]].
  destruct (adjustment_lookup (score_adjustments db) (fst am) (snd am))
    as [oa [Ha Hav]].
  rewrite He, Ha. cbn [flat_map map app]. rewrite Hev, Hav. reflexivity.
Qed.

Lemma In_leaderboard_rows : forall members db rs e,
  In e (View.leaderboard_rows day members db rs) <->
  exists g u p,
    In (g, u) (members (group_members db))
    /\ In p (profiles db) /\ p_id p = u
    /\ e = entry_of day db rs g u (p_username p).
Proof.
  intros members db rs e. rewrite leaderboard_rows_spec, in_flat_map. split.
  - intros [[g u] [Hm He]]. cbn [fst snd] in He.
    apply in_map_iff in He. destruct He as [p [<- Hp]].
    apply filter_In in Hp. destruct Hp as [Hp E]. apply N.eqb_eq in E.
    exists g, u, p. auto.
  - intros [g [u [p [Hm [Hp [E ->]]]]]]. exists (g, u). split; auto.
    cbn [fst snd]. apply in_map_iff. exists p. split; auto.
    apply filter_In. split; auto. now apply N.eqb_eq.
Qed.

End ViewFacts.

Section WinnerFacts.

Variable day : DailyResult -> option date.

Lemma is_winner_solved : forall rs r,
  is_winner day rs r = true -> dr_solved r = true.
Proof. unfold is_winner. intros rs r H. now apply andb_true_iff in H. Qed.

(** Membership in the winner rows, for a stored row. *)
Lemma is_winner_spec : forall rs r,
  In r rs ->
  (is_winner day rs r = true <->
   dr_solved r = true /\ dr_group_id r <> None /\ day r <> None
   /\ forall r', In r' rs -> dr_solved r' = true ->
                 dr_group_id r' = dr_group_id r -> day r' = day r ->
                 dr_guess_count r <= dr_guess_count r').
Proof.
  intros rs r Hin. unfold is_winner.
  set (grp := filter (fun r' => group_day_eqb (View.day_key day r')
                                  (View.day_key day r))
                     (filter dr_solved rs)).
  assert (Hgrp : forall r', In r' grp <->
            In r' rs /\ dr_solved r' = true
            /\ dr_group_id r' = dr_group_id r /\ day r' = day r).
  { intro r'. unfold grp. rewrite !filter_In, group_day_eqb_eq.
    unfold View.day_key. split.
    - intros [[H1 H2] E]. inversion E. auto.
    - intros [H1 [H2 [E1 E2]]]. rewrite E1, E2. auto. }
  rewrite andb_true_iff.
  destruct (dr_group_id r) as [g|] eqn:Hg;
    [|split; [intros [_ H]; discriminate | intros [_ [H _]]; congruence]].
  destruct (day r) as [d|] eqn:Hd;
    [|split; [intros [_ H]; discriminate | intros [_ [_ [H _]]]; congruence]].
  destruct (Sql.min (map dr_guess_count grp)) as [m|] eqn:Hm; cbn.
  - apply sql_min_spec in Hm. destruct Hm as [Hmin Hle].
    rewrite Z.eqb_eq. split.
    + intros [Hs E]. repeat split; try congruence.
      intros r' H1 H2 H3 H4. rewrite E. apply Hle. apply in_map.
      apply Hgrp. auto.
    + intros [Hs [_ [_ H]]]. split; auto.
      assert (H1 : m <= dr_guess_count r).
      { apply Hle. apply in_map. apply Hgrp. auto. }
      apply in_map_iff in Hmin. destruct Hmin as [r0 [E0 H0]].
      apply Hgrp in H0. destruct H0 as [Ha [Hb [Hc He]]].
      specialize (H r0 Ha Hb Hc He). lia.
  - split; [intros [_ H]; discriminate|].
    intros [Hs _]. exfalso.
    assert (H0 : In r grp) by (apply Hgrp; auto).
    destruct grp; [contradiction | discriminate].
Qed.

Lemma filter_solved_idem : forall rs : list DailyResult,
  filter dr_solved (filter dr_solved rs) = filter dr_solved rs.
Proof.
  intro rs. rewrite <- filter_andb. apply filter_ext.
  intro r. now destruct (dr_solved r).
Qed.

(** Only the solved rows of the input matter. *)
Lemma point_earner_rows_solved_only : forall rs,
  View.point_earner_rows day (filter dr_solved rs)
  = View.point_earner_rows day rs.
Proof.
  intro rs. rewrite !point_earner_rows_filter.
  rewrite (filter_ext (is_winner day (filter dr_solved rs)) (is_winner day rs)).
  2:{ intro r. unfold is_winner. now rewrite filter_solved_idem. }
  rewrite <- filter_andb. apply filter_ext. intro r.
  destruct (dr_solved r) eqn:E; auto. cbn.
  destruct (is_winner day rs r) eqn:E'; auto.
  apply is_winner_solved in E'. congruence.
Qed.

Lemma point_earner_rows_unsolved_cons : forall rs x,
  dr_solved x = false ->
  View.point_earner_rows day (x :: rs) = View.point_earner_rows day rs.
Proof.
  intros rs x Hx. rewrite <- (point_earner_rows_solved_only (x :: rs)).
  cbn [filter]. rewrite Hx. apply point_earner_rows_solved_only.
Qed.

End WinnerFacts.

(** ** Winner selection *)

(** C1.  For every group and day, the winners are exactly the users of the
    solved results of that group and day whose guess count is the least
    among its solved results; unsolved results never win and never change
    the outcome (dropping them, or adding one, leaves the winners as they
    are); with no solved result for the group and day there is no winner. *)
Theorem winners_are_min_solved : forall (rs : list DailyResult) (g : uuid) (d : date),
  (forall u,
     In u (winners rs g d) <->
     exists r, In r rs /\ dr_user_id r = u /\ dr_solved r = true
               /\ dr_group_id r = Some g /\ dr_local_date r = d
               /\ forall r', In r' rs -> dr_solved r' = true ->
                             dr_group_id r' = Some g ->
                             dr_local_date r' = d ->
                             dr_guess_count r <= dr_guess_count r')
  /\ winners (filter dr_solved rs) g d = winners rs g d
  /\ (forall x, dr_solved x = false -> winners (x :: rs) g d = winners rs g d)
  /\ ((forall r, In r rs -> dr_group_id r = Some g -> dr_local_date r = d ->
                 dr_solved r = false) ->
      winners rs g d = []).
Proof.
  intros rs g d.
  assert (H1 : forall u,
     In u (winners rs g d) <->
     exists r, In r rs /\ dr_user_id r = u /\ dr_solved r = true
               /\ dr_group_id r = Some g /\ dr_local_date r = d
               /\ forall r', In r' rs -> dr_solved r' = true ->
                             dr_group_id r' = Some g ->
                             dr_local_date r' = d ->
                             dr_guess_count r <= dr_guess_count r').
  { intro u. unfold winners. rewrite point_earner_rows_filter, in_map_iff.
    split.
    - intros [r [Hu Hr]]. rewrite !filter_In in Hr.
      destruct Hr as [[Hin Hw] Hk]. apply andb_true_iff in Hk.
      destruct Hk as [Hg Hd]. apply Z.eqb_eq in Hd.
      destruct (dr_group_id r) as [g'|] eqn:Eg; [|discriminate].
      cbn in Hg. apply N.eqb_eq in Hg. subst g'.
      apply (is_winner_spec _ rs r Hin) in Hw. unfold local_day in Hw.
      destruct Hw as [Hs [_ [_ Hmin]]].
      exists r. repeat split; auto.
      intros r' Ha Hb Hc He. apply Hmin; auto; congruence.
    - intros [r [Hin [Hu [Hs [Hg [Hd Hmin]]]]]]. exists r. split; auto.
      rewrite !filter_In. repeat split; auto.
      + apply (is_winner_spec _ rs r Hin). unfold local_day.
        repeat split; auto; try congruence.
        intros r' Ha Hb Hc He. apply Hmin; auto; congruence.
      + rewrite Hg. cbn. rewrite N.eqb_refl. now apply Z.eqb_eq. }
  split; [exact H1|]. split; [|split].
  - unfold winners. now rewrite point_earner_rows_solved_only.
  - intros x Hx. unfold winners. now rewrite point_earner_rows_unsolved_cons.
  - intro Hnone. destruct (winners rs g d) as [|u l]; auto.
    destruct (proj1 (H1 u) (or_introl eq_refl))
      as [r [Hin [_ [Hs [Hg [Hd _]]]]]].
    specialize (Hnone r Hin Hg Hd). congruence.
Qed.

Lemma winners_example :
  winners Example.results 7 100 = [1%N; 2%N]
  /\ winners Example.results 7 101 = [1%N]
  /\ leaderboard_scores Example.db
     = [ mkLeaderboardEntry 7 1 "ann" 2 2;
         mkLeaderboardEntry 7 2 "bob" 1 1;
         mkLeaderboardEntry 7 3 "cat" 2 0 ].
Proof. repeat split; reflexivity. Qed.

Lemma winners_are_min_solved_witness :
  winners [mkDailyResult 3 (Some 7%N) 0 6 false 0 100 0 None] 7 100 = [].
Proof.
  apply (proj2 (proj2 (proj2 (winners_are_min_solved
           [mkDailyResult 3 (Some 7%N) 0 6 false 0 100 0 None] 7 100)))).
  intros r [<- | []] _ _. reflexivity.
Defined.

(** ** Reading the leaderboard *)

Lemma In_insert_desc : forall l e x,
  In x (insert_desc e l) <-> x = e \/ In x l.
Proof.
  induction l as [|a l IH]; intros e x; simpl.
  - split; intros [H | H]; auto.
  - destruct (le_total_score a <=? le_total_score e); simpl.
    + split; intros [H | H]; auto.
    + rewrite IH. split; intros [H | [H | H]]; auto.
Qed.

Lemma In_order_desc : forall l x, In x (order_desc l) <-> In x l.
Proof.
  induction l as [|a l IH]; intro x; simpl; [tauto|].
  rewrite In_insert_desc, IH. split; intros [H | H]; auto.
Qed.

Lemma In_getLeaderboard : forall view g e,
  In e (Client.getLeaderboard view g) <-> In e view /\ le_group_id e = g.
Proof.
  intros view g e. unfold Client.getLeaderboard.
  rewrite In_order_desc, filter_In, N.eqb_eq. tauto.
Qed.

(** [getLeaderboard] is one of the reads the query allows, and every such
    read has the same entries. *)
Lemma insert_desc_perm : forall l e, Permutation (insert_desc e l) (e :: l).
Proof.
  induction l as [|x l IH]; intro e; cbn [insert_desc]; [reflexivity|].
  destruct (le_total_score x <=? le_total_score e); [reflexivity|].
  rewrite IH. apply perm_swap.
Qed.

Lemma insert_desc_descending : forall l e,
  Client.descending l -> Client.descending (insert_desc e l).
Proof.
  induction l as [|x l IH]; intros e Hl; cbn [insert_desc].
  - cbn. split; [intros y []|exact I].
  - destruct Hl as [Hx Hl].
    destruct (Z.leb_spec (le_total_score x) (le_total_score e)) as [Hle|Hlt].
    + split; [|split; assumption].
      intros y [<- | Hy]; [exact Hle|]. specialize (Hx y Hy). lia.
    + split; [|now apply IH].
      intros y Hy. apply In_insert_desc in Hy.
      destruct Hy as [-> | Hy]; [lia | now apply Hx].
Qed.

Lemma getLeaderboard_is_read : forall view g,
  Client.is_read view g (Client.getLeaderboard view g).
Proof.
  intros view g. unfold Client.is_read, Client.getLeaderboard.
  induction (filter (fun e => N.eqb (le_group_id e) g) view) as [|x l IH];
    cbn [order_desc fold_right]; [split; [reflexivity | exact I]|].
  destruct IH as [Hp Hd]. fold (order_desc l) in *. split.
  - rewrite insert_desc_perm. now apply perm_skip.
  - now apply insert_desc_descending.
Qed.

Lemma read_entries : forall view g l,
  Client.is_read view g l ->
  forall e, In e l <-> In e (Client.getLeaderboard view g).
Proof.
  intros view g l [Hp _] e.
  destruct (getLeaderboard_is_read view g) as [Hq _]. split; intro H.
  - apply (Permutation_in e (Permutation_sym Hq)).
    apply (Permutation_in e Hp). exact H.
  - apply (Permutation_in e (Permutation_sym Hp)).
    apply (Permutation_in e Hq). exact H.
Qed.

Lemma In_all_members : forall db g u,
  In (g, u) (View.all_members (group_members db)) <-> is_member db g u.
Proof.
  intros db g u. unfold View.all_members, is_member.
  rewrite (distinct_In member_key_eqb member_key_eqb_eq), in_map_iff.
  split; intros [m H]; exists m.
  - destruct H as [E H]. inversion E. auto.
  - destruct H as [H [<- <-]]. auto.
Qed.


Lemma profile_unique : forall db p q,
  NoDup (map p_id (profiles db)) ->
  In p (profiles db) -> In q (profiles db) -> p_id p = p_id q -> p = q.
Proof.
  intros db p q. induction (profiles db) as [|a l IH]; simpl; [tauto|].
  intros Hnd Hp Hq E. inversion Hnd as [|? ? Ha Hl]; subst.
  destruct Hp as [-> | Hp], Hq as [-> | Hq]; auto.
  - exfalso. apply Ha. rewrite E. now apply in_map.
  - exfalso. apply Ha. rewrite <- E. now apply in_map.
Qed.

Section EntryFacts.

Variable day : DailyResult -> option date.
Variable members : list GroupMember -> list (uuid * uuid).
Variable db : Database.
Variable rs : list DailyResult.

Hypothesis members_spec : forall g u,
  In (g, u) (members (group_members db)) <-> is_member db g u.


(** Every member is listed, with the one entry the query computes. *)
Lemma member_entry : forall g u,
  schema_ok db -> is_member db g u ->
  exists name,
    forall e,
      In e (View.leaderboard_rows day members db rs)
      /\ le_group_id e = g /\ le_user_id e = u
      <-> e = entry_of day db rs g u name.
Proof.
  intros g u Hok Hm.
  assert (Hp : exists p, In p (profiles db) /\ p_id p = u).
  { destruct Hm as [m [Hin [_ Hu]]].
    pose proof (members_fk db Hok m Hin) as H. unfold has_profile in H.
    apply existsb_exists in H. destruct H as [p [Hp E]].
    apply N.eqb_eq in E. exists p. split; congruence. }
  destruct Hp as [p [Hp Hpu]]. exists (p_username p). intro e.
  rewrite In_leaderboard_rows. split.
  - intros [[g' [u' [q [_ [Hq [Hqu ->]]]]]] [Hg Hu]].
    cbn in Hg, Hu.
    assert (E : q = p)
      by (apply (profile_unique db q p (profiles_pk db Hok) Hq Hp);
          congruence).
    now rewrite Hg, Hu, E.
  - intros ->. split; [|split; reflexivity].
    exists g, u, p. repeat split; auto. now apply members_spec.
Qed.

End EntryFacts.

Lemma fold_add_nil_filter {A} (f : A -> bool) (val : A -> Z) (l : list A) :
  (forall x, In x l -> f x = false) ->
  fold_left Z.add (map val (filter f l)) 0 = 0.
Proof. intro H. now rewrite filter_none. Qed.

Lemma NoDup_map_filter {R K} (key : R -> K) (keep : R -> bool) :
  forall rows : list R,
    NoDup (map key rows) -> NoDup (map key (filter keep rows)).
Proof.
  intro rows. induction rows as [|a l IH]; simpl; intro H; [constructor|].
  inversion H as [|? ? Ha Hl]; subst.
  destruct (keep a); simpl; auto. constructor; auto.
  intro Hin. apply Ha. apply in_map_iff in Hin.
  destruct Hin as [x [E Hx]]. apply filter_In in Hx.
  rewrite <- E. apply in_map. tauto.
Qed.

Lemma In_winners : forall rs g d u,
  In u (winners rs g d) <->
  exists r, In r (results_of (View.point_earner_rows
                                local_day rs) g u)
            /\ dr_local_date r = d.
Proof.
  intros rs g d u. unfold winners, results_of. rewrite in_map_iff.
  split; intros [r H]; exists r; rewrite !filter_In in *;
    rewrite !andb_true_iff, Z.eqb_eq, N.eqb_eq in *; tauto.
Qed.

(** With at most one result per day for the member, the number of winning
    rows is the number of days won. *)
Lemma games_won_counts_days : forall rs g u,
  NoDup (map dr_local_date (results_of rs g u)) ->
  games_won_of local_day rs g u
  = Z.of_nat (List.length (days_won rs g u)).
Proof.
  intros rs g u Hnd. unfold games_won_of. f_equal.
  set (day := fun r => Some (dr_local_date r)).
  fold (results_of (View.point_earner_rows day rs) g u).
  rewrite <- (length_map dr_local_date).
  apply Permutation_length, NoDup_Permutation.
  - unfold results_of. rewrite point_earner_rows_filter.
    rewrite <- filter_andb.
    rewrite (filter_ext _ (fun r =>
               (Sql.eq_is_true N.eqb (dr_group_id r) (Some g)
                && N.eqb (dr_user_id r) u) && is_winner day rs r)).
    2:{ intro r. apply andb_comm. }
    rewrite filter_andb. now apply NoDup_map_filter.
  - unfold days_won. apply NoDup_filter, distinct_NoDup.
    intros x y. apply Z.eqb_eq.
  - intro d. unfold days_won.
    rewrite filter_In, (distinct_In Z.eqb Z.eqb_eq), existsb_exists.
    rewrite in_map_iff. split.
    + intros [r [Hd Hr]]. split.
      * apply in_map_iff. exists r. split; auto.
        unfold results_of in Hr. rewrite point_earner_rows_filter in Hr.
        rewrite !filter_In in Hr. tauto.
      * exists u. split; [|apply N.eqb_refl].
        apply In_winners. exists r. auto.
    + intros [_ [u' [Hw E]]]. apply N.eqb_eq in E. subst u'.
      apply In_winners in Hw. destruct Hw as [r [Hr Hd]]. exists r. auto.
Qed.

Lemma results_of_point_earners : forall day rs g u,
  results_of (View.point_earner_rows day rs) g u
  = filter (is_winner day rs) (results_of rs g u).
Proof.
  intros day rs g u. unfold results_of.
  rewrite point_earner_rows_filter, <- !filter_andb.
  apply filter_ext. intro r. apply andb_comm.
Qed.

(** No stored result in the group, no win. *)
Lemma games_won_none : forall day rs g u,
  results_of rs g u = [] -> games_won_of day rs g u = 0.
Proof.
  intros day rs g u H. unfold games_won_of.
  fold (results_of (View.point_earner_rows day rs) g u).
  now rewrite results_of_point_earners, H.
Qed.

Lemma adjustment_sum_none : forall adj g u,
  (forall a, In a adj -> sa_group_id a = g -> sa_user_id a <> u) ->
  adjustment_sum adj g u = 0.
Proof.
  intros adj g u H. unfold adjustment_sum. apply fold_add_nil_filter.
  intros a Ha. destruct (N.eqb (sa_group_id a) g) eqn:Eg; auto.
  destruct (N.eqb (sa_user_id a) u) eqn:Eu; auto.
  apply N.eqb_eq in Eg, Eu. now destruct (H a Ha Eg).
Qed.

Lemma schema_ok_example : schema_ok Example.db.
Proof.
  constructor.
  - repeat constructor; simpl; intuition discriminate.
  - intros m H. simpl in H. intuition (subst; reflexivity).
  - repeat constructor; simpl; intuition discriminate.
Qed.

Lemma is_member_example : forall u,
  In u [1%N; 2%N; 3%N] -> is_member Example.db 7 u.
Proof.
  intros u H. simpl in H. unfold is_member, Example.db; simpl.
  destruct H as [<- | [<- | [<- | []]]]; eexists; split;
    [left; reflexivity | split; reflexivity
    |right; left; reflexivity | split; reflexivity
    |right; right; left; reflexivity | split; reflexivity].
Qed.

(** ** Score aggregation *)

Lemma consistent_refresh : forall s,
  Refresh.consistent (Refresh.refresh_leaderboard s).
Proof. reflexivity. Qed.

(** Every day a member won has at least one winning row of the member. *)
Lemma days_won_le_games_won : forall rs g u,
  Z.of_nat (List.length (days_won rs g u)) <= games_won_of local_day rs g u.
Proof.
  intros rs g u. unfold games_won_of. apply inj_le.
  fold (results_of (View.point_earner_rows local_day rs) g u).
  rewrite <- (length_map dr_local_date
                (results_of (View.point_earner_rows local_day rs) g u)).
  apply NoDup_incl_length.
  - unfold days_won. apply NoDup_filter, distinct_NoDup.
    intros x y. apply Z.eqb_eq.
  - intros d Hd. unfold days_won in Hd. apply filter_In in Hd.
    destruct Hd as [_ Hd]. apply existsb_exists in Hd.
    destruct Hd as [u' [Hw E]]. apply N.eqb_eq in E. subst u'.
    apply In_winners in Hw. destruct Hw as [r [Hr Hdate]].
    apply in_map_iff. exists r. auto.
Qed.

(** The winning rows of a member, spelt out. *)
Lemma In_winning_rows : forall rs g u r,
  In r (results_of (View.point_earner_rows local_day rs) g u) <->
  In r rs /\ dr_user_id r = u /\ dr_group_id r = Some g
  /\ dr_solved r = true
  /\ forall r', In r' rs -> dr_solved r' = true ->
                dr_group_id r' = Some g ->
                dr_local_date r' = dr_local_date r ->
                dr_guess_count r <= dr_guess_count r'.
Proof.
  intros rs g u r. rewrite results_of_point_earners, filter_In.
  unfold results_of. rewrite filter_In, andb_true_iff, N.eqb_eq. split.
  - intros [[Hin [Hg Hu]] Hw].
    destruct (dr_group_id r) as [g'|] eqn:Eg; [|discriminate].
    cbn in Hg. apply N.eqb_eq in Hg. subst g'.
    apply (is_winner_spec local_day rs r Hin) in Hw.
    destruct Hw as [Hs [_ [_ Hmin]]]. repeat split; auto.
    intros r' H1 H2 H3 H4. apply Hmin; auto; [congruence|].
    unfold local_day. now rewrite H4.
  - intros [Hin [Hu [Hg [Hs Hmin]]]]. split; [split; [exact Hin|]|].
    + rewrite Hg. cbn. now rewrite N.eqb_refl.
    + apply (is_winner_spec local_day rs r Hin).
      split; [exact Hs|]. split; [congruence|].
      split; [discriminate|].
      intros r' H1 H2 H3 H4. apply Hmin; auto; [congruence|].
      unfold local_day in H4. congruence.
Qed.

(** C2 fails as stated, twice over.  Member 2 of the example stored two
    winning results for local day 100 (see the second play): the snapshot a
    refresh publishes gives the member 2 games won for the one day key
    won.  And user 4, who joins the group of the example after the last
    refresh, is a member but has no entry in the leaderboard that is
    read. *)
Lemma games_won_counts_rows_counterexample :
  (let s := Refresh.refresh_leaderboard
              (Refresh.mkSystem (fst Example.second_play) [] 0) in
   is_member (Refresh.sys_db s) 7 2
   /\ In (mkLeaderboardEntry 7 2 "bob" 2 2) (Refresh.getLeaderboard s 7)
   /\ days_won (daily_results (Refresh.sys_db s)) 7 2 = [100])
  /\ (let t := fst (Refresh.joinGroup Example.noon (Some 4%N) "abc123"
                      (Refresh.mkSystem Example.db
                         (leaderboard_scores Example.db) 0)) in
      is_member (Refresh.sys_db t) 7 4
      /\ forall e, In e (Refresh.getLeaderboard t 7) -> le_user_id e <> 4%N).
Proof.
  split; cbv zeta.
  - split; [|split].
    + eexists. split; [right; left; reflexivity|]. split; reflexivity.
    + vm_compute. auto.
    + reflexivity.
  - split.
    + eexists. split; [do 3 right; left; reflexivity|]. split; reflexivity.
    + intros e He. vm_compute in He.
      destruct He as [<- | [<- | [<- | []]]]; discriminate.
Qed.

(** C2, amended.  A refresh publishes the query over the tables as they
    are, and joining a group does not refresh.  In a snapshot that is up to
    date with the tables, every member of a group has one entry; its total
    score is its games won plus the sum of the member's adjustments; games
    won is the number of the member's winning results (solved, with the
    least guess count of their group and local date) and never reads the
    adjustments; that number is at least the number of day keys the member
    won, and equal to it when the member has one result per day key; a
    member without results and without adjustments is listed with 0 and
    0. *)
Theorem member_entry_scores : forall (s : Refresh.System) (g u : uuid),
  Refresh.consistent (Refresh.refresh_leaderboard s)
  /\ (forall c user code,
        Refresh.sys_snapshot (fst (Refresh.joinGroup c user code s))
        = Refresh.sys_snapshot s)
  /\ (Refresh.consistent s -> schema_ok (Refresh.sys_db s) ->
      is_member (Refresh.sys_db s) g u ->
      exists e,
        (forall e', In e' (Refresh.getLeaderboard s g)
                    /\ le_user_id e' = u <-> e' = e)
        /\ le_group_id e = g /\ le_user_id e = u
        /\ le_total_score e
           = le_games_won e
             + adjustment_sum (score_adjustments (Refresh.sys_db s)) g u
        /\ le_games_won e
           = Z.of_nat
               (List.length
                  (results_of
                     (View.point_earner_rows local_day
                        (daily_results (Refresh.sys_db s))) g u))
        /\ (forall r,
              In r (results_of
                      (View.point_earner_rows local_day
                         (daily_results (Refresh.sys_db s))) g u) <->
              In r (daily_results (Refresh.sys_db s))
              /\ dr_user_id r = u /\ dr_group_id r = Some g
              /\ dr_solved r = true
              /\ forall r', In r' (daily_results (Refresh.sys_db s)) ->
                            dr_solved r' = true ->
                            dr_group_id r' = Some g ->
                            dr_local_date r' = dr_local_date r ->
                            dr_guess_count r <= dr_guess_count r')
        /\ Z.of_nat
             (List.length (days_won (daily_results (Refresh.sys_db s)) g u))
           <= le_games_won e
        /\ (NoDup (map dr_local_date
                     (results_of (daily_results (Refresh.sys_db s)) g u)) ->
            le_games_won e
            = Z.of_nat
                (List.length
                   (days_won (daily_results (Refresh.sys_db s)) g u)))
        /\ (results_of (daily_results (Refresh.sys_db s)) g u = [] ->
            (forall a, In a (score_adjustments (Refresh.sys_db s)) ->
                       sa_group_id a = g -> sa_user_id a <> u) ->
            le_games_won e = 0 /\ le_total_score e = 0)).
Proof.
  intros s g u. split; [apply consistent_refresh|]. split.
  { intros c user code. unfold Refresh.joinGroup.
    now destruct (Client.joinGroup c user code (Refresh.sys_db s)). }
  intros Hc Hok Hm. set (db := Refresh.sys_db s) in *.
  destruct (member_entry local_day View.all_members
              db (daily_results db) (In_all_members db) g u Hok Hm)
    as [name Hname].
  exists (entry_of local_day db (daily_results db) g u name).
  split; [|split; [reflexivity|split; [reflexivity|split; [reflexivity|]]]].
  { intro e'. unfold Refresh.getLeaderboard. rewrite Hc, In_getLeaderboard.
    fold db. unfold leaderboard_scores. rewrite <- Hname. tauto. }
  split; [reflexivity|]. split; [intro r; apply In_winning_rows|].
  split; [apply days_won_le_games_won|]. split.
  - intro Hnd. now apply games_won_counts_days.
  - intros Hr Ha. cbn. rewrite games_won_none, adjustment_sum_none by assumption.
    split; reflexivity.
Qed.

Lemma member_entry_scores_witness :
  exists e,
    In e (Refresh.getLeaderboard
            (Refresh.mkSystem Example.db (leaderboard_scores Example.db) 0) 7)
    /\ le_user_id e = 1%N
    /\ le_games_won e
       = Z.of_nat (List.length (days_won (daily_results Example.db) 7 1)).
Proof.
  destruct (proj2 (proj2 (member_entry_scores
              (Refresh.mkSystem Example.db (leaderboard_scores Example.db) 0)
              7 1))
              eq_refl schema_ok_example
              (is_member_example 1 (or_introl eq_refl)))
    as [e [He [_ [Hu [_ [_ [_ [_ [Hd _]]]]]]]]].
  exists e. split; [|split].
  - apply (proj2 (He e) eq_refl).
  - exact Hu.
  - apply Hd. repeat constructor; simpl; intuition discriminate.
Defined.

(** ** Membership *)

Lemma is_member_after_delete : forall db u g g' u',
  is_member (delete_group_member db u g) g' u' <->
  is_member db g' u' /\ ~ (u' = u /\ g' = g).
Proof.
  intros db u g g' u'. unfold is_member, delete_group_member,
    Sql.delete_where; cbn. split.
  - intros [m [Hin [Hg Hu]]]. apply filter_In in Hin.
    destruct Hin as [Hin Hc]. split; [exists m; auto|].
    intros [E1 E2]. subst.
    rewrite !N.eqb_refl in Hc. discriminate.
  - intros [[m [Hin [Hg Hu]]] Hne]. exists m. split; auto.
    apply filter_In. split; auto.
    destruct (N.eqb (gm_user_id m) u) eqn:E1; auto.
    destruct (N.eqb (gm_group_id m) g) eqn:E2; auto.
    apply N.eqb_eq in E1, E2. exfalso. apply Hne. split; congruence.
Qed.


Lemma NoDup_snoc {A} (l : list A) (x : A) :
  NoDup l -> ~ In x l -> NoDup (l ++ [x]).
Proof.
  intros Hl Hx. apply NoDup_app; [assumption | repeat constructor; auto |].
  intros a Ha [<- | []]. contradiction.
Qed.










(** ** Row-level security *)

(** The rows the hooks write for the signed-in user pass the policies of
    their tables: the inserts and the delete of [submitResult],
    [submitPersonalResult], [joinGroup] and [leaveGroup] run for the app's
    session as they do without the policies. *)
Lemma own_rows_pass_policy : forall c uid grp params g t db,
  run_as uid db (InsertResult (Client.group_row c uid grp params))
  = insert_daily_result db (Client.group_row c uid grp params)
  /\ run_as uid db (InsertResult (Client.personal_row c uid params))
     = insert_daily_result db (Client.personal_row c uid params)
  /\ run_as uid db (InsertMember (mkGroupMember uid g t false))
     = insert_group_member db (mkGroupMember uid g t false)
  /\ run_as uid db (DeleteMember uid g) = inr (delete_group_member db uid g).
Proof.
  intros c uid grp params g t db. cbn. now rewrite !N.eqb_refl.
Qed.

(** ** Reset *)

(** With no result and no adjustment left for a group, every entry the
    query computes for it is zero. *)
Lemma entry_zero_when_cleared : forall day db g u name,
  (forall r, In r (daily_results db) -> dr_group_id r <> Some g) ->
  (forall a, In a (score_adjustments db) -> sa_group_id a <> g) ->
  entry_of day db (daily_results db) g u name
  = mkLeaderboardEntry g u name 0 0.
Proof.
  intros day db g u name Hr Ha. unfold entry_of.
  rewrite games_won_none, adjustment_sum_none; auto.
  - intros a H E. now destruct (Ha a H).
  - unfold results_of. apply filter_none. intros r H.
    specialize (Hr r H). destruct (dr_group_id r) as [g'|]; cbn; auto.
    destruct (N.eqb g' g) eqn:E; auto.
    apply N.eqb_eq in E. congruence.
Qed.

Lemma schema_ok_same_roster : forall db db',
  profiles db' = profiles db -> group_members db' = group_members db ->
  schema_ok db -> schema_ok db'.
Proof.
  intros db db' Hp Hm [H1 H2 H3]. constructor.
  - now rewrite Hp.
  - rewrite Hm. intros m H. unfold has_profile. rewrite Hp. now apply H2.
  - now rewrite Hm.
Qed.

Lemma is_member_same_roster : forall db db' g u,
  group_members db' = group_members db ->
  is_member db' g u <-> is_member db g u.
Proof. intros db db' g u H. unfold is_member. now rewrite H. Qed.

(** What the two statements of the reset leave, for the session of [uid]:
    the results of the group go when [uid] is an admin of it, and no
    adjustment goes. *)
Lemma handleResetScores_effect : forall uid g db,
  Client.handleResetScores (Some uid) g db
  = if is_group_admin db uid g then delete_daily_results db g else db.
Proof. reflexivity. Qed.

Lemma system_handleResetScores : forall uid g s,
  Refresh.handleResetScores (Some uid) g s
  = Refresh.mkSystem
      (Client.handleResetScores (Some uid) g (Refresh.sys_db s))
      (leaderboard_scores
         (Client.handleResetScores (Some uid) g (Refresh.sys_db s)))
      (S (S (Refresh.sys_refreshes s))).
Proof. reflexivity. Qed.

Lemma no_result_after_delete : forall db g r,
  In r (daily_results (delete_daily_results db g)) ->
  dr_group_id r <> Some g.
Proof.
  intros db g r Hr E. cbn in Hr. unfold Sql.delete_where in Hr.
  apply filter_In in Hr. destruct Hr as [_ Hr].
  rewrite E in Hr. cbn in Hr. now rewrite N.eqb_refl in Hr.
Qed.

Lemma games_won_after_delete : forall day db g u,
  games_won_of day (daily_results (delete_daily_results db g)) g u = 0.
Proof.
  intros day db g u. apply games_won_none. unfold results_of.
  apply filter_none. intros r H.
  pose proof (no_result_after_delete db g r H) as Hr.
  destruct (dr_group_id r) as [g'|]; cbn; auto.
  destruct (N.eqb g' g) eqn:E; auto.
  apply N.eqb_eq in E. congruence.
Qed.

(** C6.  What a reset by an admin of the group leaves: no result of the
    group, so every member is listed with games won 0; and every
    adjustment, because the DELETE on [score_adjustments] is given no row
    under the policies of that table, so the total score of a member is
    the sum of the member's adjustments and not 0. *)
Theorem reset_keeps_adjustments :
  forall (s : Refresh.System) (admin g : uuid),
  is_group_admin (Refresh.sys_db s) admin g = true ->
  schema_ok (Refresh.sys_db s) ->
  let s' := Refresh.handleResetScores (Some admin) g s in
  (forall r, In r (daily_results (Refresh.sys_db s')) ->
             dr_group_id r <> Some g)
  /\ score_adjustments (Refresh.sys_db s')
     = score_adjustments (Refresh.sys_db s)
  /\ (forall u, is_member (Refresh.sys_db s) g u ->
        exists name,
          In (mkLeaderboardEntry g u name
                (adjustment_sum (score_adjustments (Refresh.sys_db s)) g u)
                0)
             (Refresh.getLeaderboard s' g))
  /\ (forall e, In e (Refresh.getLeaderboard s' g) ->
        is_member (Refresh.sys_db s) g (le_user_id e)
        /\ le_games_won e = 0
        /\ le_total_score e
           = adjustment_sum (score_adjustments (Refresh.sys_db s)) g
               (le_user_id e)).
Proof.
  intros s admin g Hadm Hok s'. subst s'.
  rewrite system_handleResetScores, handleResetScores_effect, Hadm.
  set (db := Refresh.sys_db s) in *.
  set (db' := delete_daily_results db g).
  unfold Refresh.getLeaderboard. cbn [Refresh.sys_db Refresh.sys_snapshot].
  assert (Hok' : schema_ok db')
    by (apply (schema_ok_same_roster db); auto).
  assert (Hentry : forall u name,
            entry_of local_day db' (daily_results db') g u name
            = mkLeaderboardEntry g u name
                (adjustment_sum (score_adjustments db) g u) 0).
  { intros u name. unfold entry_of, db'.
    now rewrite (games_won_after_delete local_day db g u). }
  split; [apply no_result_after_delete|]. split; [reflexivity|]. split.
  - intros u Hu.
    destruct (member_entry local_day View.all_members db' (daily_results db')
                (In_all_members db') g u Hok' Hu) as [name Hname].
    exists name. apply In_getLeaderboard.
    destruct (proj2 (Hname _) eq_refl) as [Hin _].
    rewrite Hentry in Hin. split; [exact Hin | reflexivity].
  - intros e He. apply In_getLeaderboard in He. destruct He as [He Hg].
    unfold leaderboard_scores in He. apply In_leaderboard_rows in He.
    destruct He as [g' [u [p [Hin [_ [_ ->]]]]]]. cbn in Hg. subst g'.
    rewrite Hentry. cbn. repeat split.
    apply (In_all_members db' g u). exact Hin.
Qed.

Lemma reset_keeps_adjustments_witness :
  exists name,
    In (mkLeaderboardEntry 7 3 name 2 0)
       (Refresh.getLeaderboard
          (Refresh.handleResetScores (Some 1%N) 7
             (Refresh.mkSystem Example.db (leaderboard_scores Example.db) 0))
          7).
Proof.
  exact (proj1 (proj2 (proj2
           (reset_keeps_adjustments
              (Refresh.mkSystem Example.db (leaderboard_scores Example.db) 0)
              1 7 eq_refl schema_ok_example)))
           3%N
           (is_member_example 3 (or_intror (or_intror (or_introl eq_refl))))).
Defined.

(** ** Refresh triggers *)

Lemma exec_success : forall s st db',
  Refresh.fires_refresh st = true ->
  run_statement (Refresh.sys_db s) st = inr db' ->
  Refresh.exec s st
  = Refresh.mkSystem db' (leaderboard_scores db')
      (S (Refresh.sys_refreshes s)).
Proof.
  intros s st db' Hf Hr. unfold Refresh.exec. rewrite Hr, Hf. reflexivity.
Qed.

Lemma exec_failure : forall s st e,
  run_statement (Refresh.sys_db s) st = inl e -> Refresh.exec s st = s.
Proof. intros s st e H. unfold Refresh.exec. now rewrite H. Qed.

Lemma exec_db : forall s st,
  Refresh.sys_db (Refresh.exec s st)
  = run_script (Refresh.sys_db s) [st].
Proof.
  intros s st. unfold Refresh.exec. cbn.
  destruct (run_statement (Refresh.sys_db s) st); [reflexivity|].
  now destruct (Refresh.fires_refresh st).
Qed.

Lemma exec_script_db : forall script s,
  Refresh.sys_db (Refresh.exec_script s script)
  = run_script (Refresh.sys_db s) script.
Proof.
  induction script as [|st l IH]; intro s; [reflexivity|].
  cbn. unfold Refresh.exec_script in IH. rewrite IH, exec_db. reflexivity.
Qed.

Lemma exec_consistent : forall s st,
  Refresh.fires_refresh st = true ->
  Refresh.consistent s -> Refresh.consistent (Refresh.exec s st).
Proof.
  intros s st Hf Hc. unfold Refresh.exec.
  destruct (run_statement (Refresh.sys_db s) st); [exact Hc|].
  rewrite Hf. reflexivity.
Qed.

(** C7 fails as stated: the reset of the example group by its admin runs
    two refreshes, not one. *)
Lemma reset_refresh_count_counterexample :
  let s := Refresh.mkSystem Example.db (leaderboard_scores Example.db) 0 in
  Refresh.sys_refreshes (Refresh.handleResetScores (Some 1%N) 7 s) <> 1%nat
  /\ Refresh.sys_refreshes (Refresh.handleResetScores (Some 1%N) 7 s)
     = 2%nat.
Proof. cbv zeta. split; [discriminate | reflexivity]. Qed.

(** C7, amended.  A reset issues two DELETE statements, on the results and
    then on the adjustments, and each fires one refresh, two in all; each
    refresh publishes the query over the tables as its statement left
    them, so after the reset the snapshot is that of the tables after the
    reset and none from before is served; for an admin of the group that
    snapshot has no result of the group behind it and gives every entry of
    the group games won 0. *)
Theorem reset_refreshes_twice : forall (s : Refresh.System) (uid g : uuid),
  let s1 := Refresh.exec_as uid s (DeleteResults g) in
  let s' := Refresh.handleResetScores (Some uid) g s in
  s' = Refresh.exec_as uid s1 (DeleteAdjustments g)
  /\ Refresh.sys_refreshes s1 = S (Refresh.sys_refreshes s)
  /\ Refresh.sys_refreshes s' = S (Refresh.sys_refreshes s1)
  /\ Refresh.sys_db s'
     = Client.handleResetScores (Some uid) g (Refresh.sys_db s)
  /\ Refresh.consistent s1
  /\ Refresh.consistent s'
  /\ (is_group_admin (Refresh.sys_db s) uid g = true ->
      (forall r, In r (daily_results (Refresh.sys_db s')) ->
                 dr_group_id r <> Some g)
      /\ forall e, In e (Refresh.getLeaderboard s' g) -> le_games_won e = 0).
Proof.
  intros s uid g s1 s'.
  split; [reflexivity|]. split; [reflexivity|]. split; [reflexivity|].
  split; [reflexivity|]. split; [reflexivity|]. split; [reflexivity|].
  intro Hadm. subst s'.
  rewrite system_handleResetScores, handleResetScores_effect, Hadm.
  unfold Refresh.getLeaderboard. cbn [Refresh.sys_db Refresh.sys_snapshot].
  split; [apply no_result_after_delete|].
  intros e He. apply In_getLeaderboard in He. destruct He as [He Hg].
  unfold leaderboard_scores in He. apply In_leaderboard_rows in He.
  destruct He as [g' [u [p [_ [_ [_ ->]]]]]]. cbn in Hg. subst g'.
  cbn. apply games_won_after_delete.
Qed.

Lemma reset_refreshes_twice_witness :
  Refresh.sys_refreshes
    (Refresh.handleResetScores (Some 1%N) 7
       (Refresh.mkSystem Example.db (leaderboard_scores Example.db) 0))
  = 2%nat
  /\ le_games_won (mkLeaderboardEntry 7 3 "cat" 2 0) = 0.
Proof.
  destruct (reset_refreshes_twice
              (Refresh.mkSystem Example.db (leaderboard_scores Example.db) 0)
              1 7) as [_ [_ [H3 [_ [_ [_ H7]]]]]].
  split; [exact H3|].
  apply (proj2 (H7 eq_refl)). vm_compute. auto.
Defined.

(** C8.  Under the trigger-driven refresh, each of the four mutating
    events (insert or delete on the results, insert or delete on the
    adjustments) has a trigger; a statement that succeeds runs exactly one
    refresh, and the snapshot it publishes is the query evaluated on the
    tables as the statement left them, whatever the previous snapshot
    was; a statement that fails changes nothing; so any sequence of these
    events keeps the snapshot equal to the full recomputation. *)
Theorem refresh_after_every_event : forall (s : Refresh.System),
  (forall r, Refresh.fires_refresh (InsertResult r) = true)
  /\ (forall g, Refresh.fires_refresh (DeleteResults g) = true)
  /\ (forall a, Refresh.fires_refresh (InsertAdjustment a) = true)
  /\ (forall g, Refresh.fires_refresh (DeleteAdjustments g) = true)
  /\ (forall st db',
        Refresh.fires_refresh st = true ->
        run_statement (Refresh.sys_db s) st = inr db' ->
        Refresh.sys_db (Refresh.exec s st) = db'
        /\ Refresh.sys_snapshot (Refresh.exec s st) = leaderboard_scores db'
        /\ Refresh.sys_refreshes (Refresh.exec s st)
           = S (Refresh.sys_refreshes s))
  /\ (forall st e,
        run_statement (Refresh.sys_db s) st = inl e -> Refresh.exec s st = s)
  /\ (forall st s2,
        Refresh.fires_refresh st = true ->
        Refresh.sys_db s2 = Refresh.sys_db s ->
        (exists db', run_statement (Refresh.sys_db s) st = inr db') ->
        Refresh.sys_snapshot (Refresh.exec s2 st)
        = Refresh.sys_snapshot (Refresh.exec s st))
  /\ (forall script,
        Forall (fun st => Refresh.fires_refresh st = true) script ->
        Refresh.consistent s ->
        Refresh.consistent (Refresh.exec_script s script)).
Proof.
  intro s. repeat split; try reflexivity.
  - now rewrite (exec_success s st db').
  - now rewrite (exec_success s st db').
  - now rewrite (exec_success s st db').
  - intros st e. apply exec_failure.
  - intros st s2 Hf Hdb [db' Hr].
    rewrite (exec_success s st db' Hf Hr).
    rewrite <- Hdb in Hr. rewrite (exec_success s2 st db' Hf Hr). reflexivity.
  - intros script. revert s.
    induction script as [|st l IH]; intros s Hall Hc; [exact Hc|].
    inversion Hall; subst. cbn. apply IH; auto. now apply exec_consistent.
Qed.

Lemma refresh_after_every_event_witness :
  let s := Refresh.mkSystem Example.db [] 0 in
  Refresh.sys_snapshot (Refresh.exec s (DeleteAdjustments 7))
  = [ mkLeaderboardEntry 7 1 "ann" 2 2;
      mkLeaderboardEntry 7 2 "bob" 1 1;
      mkLeaderboardEntry 7 3 "cat" 0 0 ].
Proof.
  intro s.
  exact (proj1 (proj2
           (proj1 (proj2 (proj2 (proj2 (proj2 (refresh_after_every_event s)))))
              (DeleteAdjustments 7) _ eq_refl eq_refl))).
Defined.

(** ** UTC-12 finalisation *)

Lemma filter_ext_in_bool {A} (f g : A -> bool) (l : list A) :
  (forall x, In x l -> f x = g x) -> filter f l = filter g l.
Proof.
  induction l as [|a l IH]; simpl; intro H; auto.
  rewrite (H a) by auto. rewrite IH by (intros; apply H; auto). reflexivity.
Qed.

Lemma day_state_finalized : forall now d,
  Utc12.day_state now d = Utc12.FINALIZED <-> Utc12.finalizes_at d <= now.
Proof.
  intros now d. unfold Utc12.day_state, Utc12.is_day_finalized.
  destruct (Z.leb_spec (Utc12.finalizes_at d) now); split;
    try discriminate; auto; lia.
Qed.

Lemma day_state_pending : forall now d,
  Utc12.day_state now d = Utc12.PENDING <-> now < Utc12.finalizes_at d.
Proof.
  intros now d. unfold Utc12.day_state, Utc12.is_day_finalized.
  destruct (Z.leb_spec (Utc12.finalizes_at d) now); split;
    try discriminate; auto; lia.
Qed.

Lemma row_finalized_of_day : forall now d r,
  dr_utc_date r = Some d ->
  Utc12.row_finalized now r = Utc12.is_day_finalized now d.
Proof. intros now d r H. unfold Utc12.row_finalized. now rewrite H. Qed.

(** [pending_daily_results] shows the dated rows the leaderboard leaves
    out. *)
Lemma row_pending_not_finalized : forall now r,
  dr_utc_date r <> None ->
  Utc12.row_pending now r = negb (Utc12.row_finalized now r).
Proof.
  intros now r H. unfold Utc12.row_pending, Utc12.row_finalized.
  destruct (dr_utc_date r) as [d|]; [|congruence].
  destruct (Z.ltb_spec now (Utc12.finalizes_at d));
    destruct (Z.leb_spec (Utc12.finalizes_at d) now); auto; lia.
Qed.

(** While a day is pending its rows are not part of the input. *)
Lemma finalized_days_without_pending : forall now d rs,
  Utc12.day_state now d = Utc12.PENDING ->
  Utc12.finalized_days now (Utc12.without_day d rs)
  = Utc12.finalized_days now rs.
Proof.
  intros now d rs Hp. unfold Utc12.finalized_days, Utc12.without_day.
  rewrite <- filter_andb. apply filter_ext. intro r.
  destruct (dr_utc_date r) as [d'|] eqn:E; cbn;
    [|unfold Utc12.row_finalized; now rewrite E].
  destruct (Z.eqb_spec d' d) as [->|Hne]; cbn; auto.
  rewrite (row_finalized_of_day now d r E).
  apply day_state_pending in Hp. unfold Utc12.is_day_finalized.
  symmetry. apply Z.leb_gt. exact Hp.
Qed.

(** The winner test of a row of a finalised day does not depend on which
    other days are finalised. *)
Lemma is_winner_finalized_day : forall now d rs r,
  Utc12.day_state now d = Utc12.FINALIZED ->
  dr_utc_date r = Some d ->
  is_winner dr_utc_date (Utc12.finalized_days now rs) r
  = is_winner dr_utc_date rs r.
Proof.
  intros now d rs r Hf Hd. unfold is_winner. f_equal.
  destruct (dr_group_id r) as [g|] eqn:Hg; auto.
  rewrite Hd. do 3 f_equal.
  unfold Utc12.finalized_days.
  rewrite <- !filter_andb. apply filter_ext. intro r'.
  destruct (Utc12.row_finalized now r') eqn:E; cbn; auto.
  destruct (dr_solved r'); cbn; auto.
  destruct (group_day_eqb _ _) eqn:Ek; auto.
  apply group_day_eqb_eq in Ek. unfold View.day_key in Ek.
  inversion Ek as [[E1 E2]]. rewrite Hd in E2.
  rewrite (row_finalized_of_day now d r' E2) in E.
  apply day_state_finalized in Hf. unfold Utc12.is_day_finalized in E.
  apply Z.leb_gt in E. lia.
Qed.

(** C9.  Under the UTC-12 policy a day is pending from 00:00 UTC of its
    date until 36 hours later and finalised from then on, for ever; while
    it is pending the view reads nothing of that day (the leaderboard is
    the one of the tables without the day's rows, and the day has no
    winners); once it is finalised the day's winners are those of the
    query over all its stored rows.  The view is evaluated at every read
    from the current time and tables: nothing is kept from an earlier
    evaluation. *)
Theorem pending_then_finalized : forall (now : timestamptz) (d : date),
  Utc12.finalizes_at d = d * Utc12.ms_per_day + 36 * Utc12.ms_per_hour
  /\ (d * Utc12.ms_per_day <= now < Utc12.finalizes_at d ->
      Utc12.day_state now d = Utc12.PENDING
      /\ Utc12.is_day_finalized now d = false)
  /\ (Utc12.finalizes_at d <= now ->
      Utc12.day_state now d = Utc12.FINALIZED
      /\ Utc12.is_day_finalized now d = true)
  /\ (forall later, now <= later ->
        Utc12.day_state now d = Utc12.FINALIZED ->
        Utc12.day_state later d = Utc12.FINALIZED)
  /\ (Utc12.day_state now d = Utc12.PENDING ->
      forall db,
        Utc12.leaderboard_scores now db
        = Utc12.leaderboard_scores now
            (set_daily_results db (Utc12.without_day d (daily_results db)))
        /\ forall g, Utc12.winners now (daily_results db) g d = [])
  /\ (Utc12.day_state now d = Utc12.FINALIZED ->
      forall rs g, Utc12.winners now rs g d = Utc12.realtime_winners rs g d).
Proof.
  intros now d. split; [unfold Utc12.finalizes_at, Utc12.ms_per_day; lia|].
  split; [|split; [|split; [|split]]].
  - intros [_ H]. split; [now apply day_state_pending|].
    now apply Z.leb_gt.
  - intro H. split; [now apply day_state_finalized|].
    now apply Z.leb_le.
  - intros later Hl H. apply day_state_finalized in H.
    apply day_state_finalized. lia.
  - intros Hp db. split.
    + unfold Utc12.leaderboard_scores. cbn [daily_results set_daily_results].
      rewrite (finalized_days_without_pending now d _ Hp).
      rewrite !leaderboard_rows_spec. reflexivity.
    + intro g. unfold Utc12.winners.
      rewrite point_earner_rows_filter. rewrite filter_none; [reflexivity|].
      intros r Hr. apply filter_In in Hr. destruct Hr as [Hr _].
      apply filter_In in Hr. destruct Hr as [_ Hr].
      destruct (dr_utc_date r) as [d'|] eqn:E; cbn;
        [|now rewrite andb_false_r].
      destruct (Z.eqb_spec d' d) as [->|Hne]; [|now rewrite andb_false_r].
      rewrite (row_finalized_of_day now d r E) in Hr.
      apply day_state_pending in Hp. apply Z.leb_le in Hr. lia.
  - intros Hf rs g. unfold Utc12.winners, Utc12.realtime_winners. f_equal.
    rewrite !point_earner_rows_filter. unfold Utc12.finalized_days.
    rewrite <- !filter_andb. apply filter_ext_in_bool. intros r _.
    destruct (Sql.eq_is_true Z.eqb (dr_utc_date r) (Some d)) eqn:E;
      [|now rewrite !andb_false_r].
    destruct (dr_utc_date r) as [d'|] eqn:Ed; [|discriminate].
    cbn in E. apply Z.eqb_eq in E. subst d'.
    rewrite (row_finalized_of_day now d r Ed).
    fold (Utc12.finalized_days now rs).
    rewrite (is_winner_finalized_day now d rs r Hf Ed).
    apply day_state_finalized in Hf. apply Z.leb_le in Hf.
    unfold Utc12.is_day_finalized. rewrite Hf. reflexivity.
Qed.

Lemma pending_then_finalized_witness :
  let rs := [ mkDailyResult 1 (Some 7%N) 0 3 true 8640000000 100 0 (Some 100);
              mkDailyResult 2 (Some 7%N) 0 4 true 8640000001 100 0 (Some 100) ] in
  Utc12.winners 8640001000 rs 7 100 = []
  /\ Utc12.winners 8769600000 rs 7 100 = [1%N]
  /\ Utc12.day_state 9000000000 100 = Utc12.FINALIZED.
Proof.
  intro rs.
  destruct (pending_then_finalized 8640001000 100) as [_ [Hp [_ [_ [Hx _]]]]].
  destruct (pending_then_finalized 8769600000 100) as [_ [_ [Hf [Hm [_ Hy]]]]].
  assert (H1 : 100 * Utc12.ms_per_day <= 8640001000 < Utc12.finalizes_at 100)
    by (unfold Utc12.finalizes_at, Utc12.ms_per_day, Utc12.ms_per_hour; lia).
  assert (H2 : Utc12.finalizes_at 100 <= 8769600000)
    by (unfold Utc12.finalizes_at, Utc12.ms_per_day, Utc12.ms_per_hour; lia).
  split; [|split].
  - exact (proj2 (Hx (proj1 (Hp H1))
                    (mkDatabase [] [] [] rs [])) 7%N).
  - rewrite (Hy (proj1 (Hf H2)) rs 7%N). reflexivity.
  - apply (Hm 9000000000); [lia | exact (proj1 (Hf H2))].
Defined.

(** ** Submitting results *)

Lemma insert_daily_result_ok : forall db r db',
  insert_daily_result db r = inr db' ->
  guess_count_check r = true
  /\ existsb (conflicts_day_index r) (daily_results db) = false
  /\ existsb (conflicts_personal r) (daily_results db) = false
  /\ db' = set_daily_results db (daily_results db ++ [r]).
Proof.
  intros db r db' H. unfold insert_daily_result in H.
  destruct (guess_count_check r); [|discriminate]. cbn in H.
  destruct (existsb (conflicts_day_index r) (daily_results db));
    [discriminate|].
  destruct (existsb (conflicts_personal r) (daily_results db));
    [discriminate|]. cbn in H.
  destruct (negb _); [discriminate|]. inversion H. auto.
Qed.

(** CHECK (guess_count >= 1 AND guess_count <= 6) rejects the row. *)
Lemma insert_rejects_guess_count : forall db r,
  ~ (1 <= dr_guess_count r <= 6) ->
  insert_daily_result db r = inl CheckViolation.
Proof.
  intros db r H. unfold insert_daily_result.
  assert (E : guess_count_check r = false).
  { unfold guess_count_check.
    destruct (Z.leb_spec 1 (dr_guess_count r));
      destruct (Z.leb_spec (dr_guess_count r) 6); auto; lia. }
  now rewrite E.
Qed.

Lemma inserts_weaken : forall (P Q : DailyResult -> Prop) db db',
  (forall r, P r -> Q r) -> inserts P db db' -> inserts Q db db'.
Proof.
  intros P Q db db' H. induction 1; [constructor|].
  eapply inserts_more; eauto.
Qed.

Lemma inserts_trans : forall P db1 db2 db3,
  inserts P db1 db2 -> inserts P db2 db3 -> inserts P db1 db3.
Proof.
  intros P db1 db2 db3 H12 H23.
  induction H23 as [|db db' db'' r H IH Hi Hr]; auto.
  apply (inserts_more P db1 db' db'' r); auto.
Qed.

(** Inserts only append: stored rows stay as they are and the other
    tables are untouched. *)
Lemma inserts_appends : forall P db db',
  inserts P db db' ->
  exists added,
    db' = set_daily_results db (daily_results db ++ added)
    /\ Forall (fun r => P r /\ guess_count_check r = true) added.
Proof.
  intros P db db'. induction 1 as [db | db db1 db2 r H IH Hi Hr].
  - exists []. rewrite app_nil_r. split; [now destruct db | constructor].
  - destruct IH as [added [-> Hall]].
    apply insert_daily_result_ok in Hi. destruct Hi as [Hc [_ [_ ->]]].
    exists (added ++ [r]). cbn. rewrite app_assoc. split; [reflexivity|].
    apply Forall_app. split; auto.
Qed.

Lemma submit_to_group_inserts : forall c uid params db n errs grp,
  inserts (fun r => r = Client.group_row c uid grp params) db
    (fst (fst (Client.submit_to_group c uid params (db, n, errs) grp))).
Proof.
  intros c uid params db n errs grp. unfold Client.submit_to_group.
  destruct (Client.maybeSingle _); [constructor|].
  destruct (insert_daily_result db (Client.group_row c uid grp params))
    as [e|db'] eqn:E; cbn; [constructor|].
  eapply inserts_more; [constructor | exact E | reflexivity].
Qed.

Lemma submit_fold_inserts : forall c uid params groups st,
  inserts (fun r => exists grp, In grp groups
                                /\ r = Client.group_row c uid grp params)
    (fst (fst st))
    (fst (fst (fold_left (Client.submit_to_group c uid params) groups st))).
Proof.
  intros c uid params groups.
  induction groups as [|grp l IH]; intro st; cbn [fold_left]; [constructor|].
  apply (inserts_trans _ _
           (fst (fst (Client.submit_to_group c uid params st grp)))).
  - destruct st as [[db n] errs]. cbn [fst].
    eapply inserts_weaken; [|apply submit_to_group_inserts].
    intros r ->. exists grp. split; [left|]; reflexivity.
  - eapply inserts_weaken; [|apply IH].
    intros r [g [Hg ->]]. exists g. split; [right|]; auto.
Qed.

Lemma submitPersonalResult_inserts : forall c uid params db,
  inserts (fun r => r = Client.personal_row c uid params) db
    (fst (Client.submitPersonalResult c (Some uid) params db)).
Proof.
  intros c uid params db. unfold Client.submitPersonalResult.
  destruct (Client.maybeSingle _); [constructor|].
  destruct (insert_daily_result db (Client.personal_row c uid params))
    as [e|db'] eqn:E; cbn; [constructor|].
  eapply inserts_more; [constructor | exact E | reflexivity].
Qed.

(** Whatever [submitResult] stores is a row it built from the call's clock
    and accepted by the table. *)
Lemma submitResult_inserts : forall c uid groups params db,
  inserts (fun r => (exists grp, In grp groups
                                 /\ r = Client.group_row c uid grp params)
                    \/ (groups = [] /\ r = Client.personal_row c uid params))
    db (fst (Client.submitResult c (Some uid) groups params db)).
Proof.
  intros c uid groups params db. unfold Client.submitResult.
  destruct groups as [|grp l].
  - pose proof (submitPersonalResult_inserts c uid params db) as H.
    destruct (Client.submitPersonalResult c (Some uid) params db)
      as [db' [ok err]]. cbn in *.
    eapply inserts_weaken; [|exact H]. intros r ->. right. auto.
  - pose proof (submit_fold_inserts c uid params (grp :: l) (db, 0%nat, []))
      as H.
    destruct (fold_left _ (grp :: l) (db, 0%nat, [])) as [[db' n] errs].
    cbn in *. eapply inserts_weaken; [|exact H]. intros r Hr. left. exact Hr.
Qed.

Lemma not_In_of_existsb_false {A} (f : A -> bool) (l : list A) x :
  existsb f l = false -> In x l -> f x = false.
Proof.
  intros H Hin. destruct (f x) eqn:E; auto.
  assert (existsb f l = true) by (apply existsb_exists; eauto). congruence.
Qed.

(** A successful insert keeps both uniqueness rules. *)
Lemma insert_keeps_unique : forall db r db',
  insert_daily_result db r = inr db' ->
  unique_day_index (daily_results db) ->
  unique_personal_play (daily_results db) ->
  unique_day_index (daily_results db')
  /\ unique_personal_play (daily_results db').
Proof.
  intros db r db' H Hg Hp. apply insert_daily_result_ok in H.
  destruct H as [_ [Hcg [Hcp ->]]]. cbn [daily_results set_daily_results].
  unfold unique_day_index, unique_personal_play in *.
  rewrite !filter_app, !map_app. cbn [filter].
  destruct (is_personal r) eqn:Er; cbn [negb map app].
  - rewrite app_nil_r. split; [exact Hg|]. apply NoDup_snoc; auto.
    intro Hin. apply in_map_iff in Hin. destruct Hin as [r' [E Hr']].
    apply filter_In in Hr'. destruct Hr' as [Hr' Epers].
    pose proof (not_In_of_existsb_false _ _ r' Hcp Hr') as Hc.
    unfold conflicts_personal in Hc. inversion E as [[E1 E2]].
    now rewrite Er, Epers, E1, E2, N.eqb_refl, Z.eqb_refl in Hc.
  - rewrite app_nil_r. split; [|exact Hp]. apply NoDup_snoc; auto.
    intro Hin. apply in_map_iff in Hin. destruct Hin as [r' [E Hr']].
    apply filter_In in Hr'. destruct Hr' as [Hr' Epers].
    pose proof (not_In_of_existsb_false _ _ r' Hcg Hr') as Hc.
    unfold conflicts_day_index in Hc. inversion E as [[E1 E2 E3]].
    rewrite E1, E2, E3, N.eqb_refl, Z.eqb_refl in Hc.
    unfold is_personal in Er. destruct (dr_group_id r); [|discriminate].
    cbn in Hc. now rewrite N.eqb_refl in Hc.
Qed.

Lemma inserts_keep_unique : forall P db db',
  inserts P db db' ->
  unique_day_index (daily_results db) ->
  unique_personal_play (daily_results db) ->
  unique_day_index (daily_results db')
  /\ unique_personal_play (daily_results db').
Proof.
  intros P db db'. induction 1 as [db | db db1 db2 r H IH Hi Hr]; auto.
  intros Hg Hp. destruct (IH Hg Hp) as [Hg1 Hp1].
  now apply (insert_keeps_unique db1 r db2).
Qed.

Lemma set_daily_results_same : forall db,
  set_daily_results db (daily_results db) = db.
Proof. now destruct db. Qed.

Lemma guess_count_check_range : forall r,
  guess_count_check r = true <-> 1 <= dr_guess_count r <= 6.
Proof.
  intro r. unfold guess_count_check.
  rewrite andb_true_iff, !Z.leb_le. tauto.
Qed.

(** A call whose rows all fail the CHECK stores nothing. *)
Lemma inserts_nothing : forall (P : DailyResult -> Prop) db db',
  (forall r, P r -> guess_count_check r = false) ->
  inserts P db db' -> db' = db.
Proof.
  intros P db db' HP H. apply inserts_appends in H.
  destruct H as [[|r l] [-> Hall]].
  - rewrite app_nil_r. apply set_daily_results_same.
  - inversion Hall as [|? ? [Hr Hc] _]; subst.
    rewrite (HP r Hr) in Hc. discriminate.
Qed.

(** C10.  A submission whose guess count is outside 1..6 is rejected by
    the table (check violation, at the insert itself); the call stores no
    row and leaves every table, and so every winner set and score, as it
    was, with or without the refresh triggers; any row the table accepts
    has a guess count in 1..6. *)
Theorem invalid_guess_count_rejected :
  forall (c : Client.Clock) (uid : uuid)
         (groups : list Client.GroupWithMembership)
         (params : Client.SubmitResultParams) (db : Database),
  ~ (1 <= Client.guessCount params <= 6) ->
  (forall r, dr_guess_count r = Client.guessCount params ->
             insert_daily_result db r = inl CheckViolation)
  /\ fst (Client.submitResult c (Some uid) groups params db) = db
  /\ leaderboard_scores (fst (Client.submitResult c (Some uid) groups params db))
     = leaderboard_scores db
  /\ (forall s r, dr_guess_count r = Client.guessCount params ->
                  Refresh.exec s (InsertResult r) = s)
  /\ (forall r db', insert_daily_result db r = inr db' ->
                    1 <= dr_guess_count r <= 6).
Proof.
  intros c uid groups params db Hbad.
  assert (H1 : forall d r, dr_guess_count r = Client.guessCount params ->
                           insert_daily_result d r = inl CheckViolation).
  { intros d r E. apply insert_rejects_guess_count. now rewrite E. }
  assert (H2 : fst (Client.submitResult c (Some uid) groups params db) = db).
  { refine (inserts_nothing _ db _ _
              (submitResult_inserts c uid groups params db)).
    intros r Hr.
    assert (E : dr_guess_count r = Client.guessCount params)
      by (destruct Hr as [[g [_ ->]] | [_ ->]]; reflexivity).
    destruct (guess_count_check r) eqn:Ec; auto.
    apply guess_count_check_range in Ec. rewrite E in Ec. contradiction. }
  split; [apply H1|]. split; [exact H2|]. split; [now rewrite H2|].
  split.
  - intros s r E. apply (exec_failure s _ CheckViolation). cbn. now apply H1.
  - intros r db' H. apply insert_daily_result_ok in H.
    now apply guess_count_check_range.
Qed.

Lemma invalid_guess_count_rejected_witness :
  fst (Client.submitResult (Client.mkClock 8812800000 0) (Some 2%N)
         (Client.fetchGroups Example.db 2) (Client.mkParams 7 true)
         Example.db)
  = Example.db.
Proof.
  refine (proj1 (proj2 (invalid_guess_count_rejected
            (Client.mkClock 8812800000 0) 2%N
            (Client.fetchGroups Example.db 2) (Client.mkParams 7 true)
            Example.db _))).
  cbn. lia.
Defined.

(** ** The day key *)

Lemma getLocalDate_bounds : forall c,
  Client.ms_per_day * Client.getLocalDate c
  <= Client.now c - 60000 * Client.tz_offset c
  < Client.ms_per_day * (Client.getLocalDate c + 1).
Proof.
  intro c. unfold Client.getLocalDate, Client.local_ms, Client.tz_offset,
    Client.ms_per_day.
  set (a := Client.now c
            - Client.offset_at (Client.zone c) (Client.now c) * 60000).
  replace (Client.now c
           - 60000 * Client.offset_at (Client.zone c) (Client.now c))
    with a by (unfold a; lia).
  pose proof (Z.div_mod a (24 * 60 * 60 * 1000) ltac:(lia)).
  pose proof (Z.mod_pos_bound a (24 * 60 * 60 * 1000) ltac:(lia)).
  lia.
Qed.

(** In a zone whose offset never changes, [calculateDayIndex] is the
    difference of the two local day numbers. *)
Lemma calculateDayIndex_days : forall now offset joinedAt,
  Client.calculateDayIndex (Client.mkClock now offset) joinedAt
  = Client.getLocalDate (Client.mkClock now offset)
    - (joinedAt - offset * 60000) / Client.ms_per_day.
Proof.
  intros now offset j. unfold Client.calculateDayIndex,
    Client.startOfLocalDay, Client.getLocalDate, Client.local_ms.
  cbn [Client.mkClock Client.now Client.zone Client.offset_at
       Client.offset_of_local].
  set (a := (now - offset * 60000) / Client.ms_per_day).
  set (b := (j - offset * 60000) / Client.ms_per_day).
  replace (a * Client.ms_per_day + offset * 60000
           - (b * Client.ms_per_day + offset * 60000))
    with ((a - b) * Client.ms_per_day) by lia.
  apply Z.div_mul. unfold Client.ms_per_day. lia.
Qed.

(** Where the zone moves its clocks forward it is not: joined on local day
    100, the user has day index 1 on local day 101 and again on local day
    102, the local midnights of days 100 and 102 being 47 hours apart. *)
Lemma calculateDayIndex_across_offset_change :
  Client.getLocalDate Example.day_of_change = 101
  /\ Client.getLocalDate Example.day_after_change = 102
  /\ Client.calculateDayIndex Example.day_of_change
       (100 * Client.ms_per_day + 43200000) = 1
  /\ Client.calculateDayIndex Example.day_after_change
       (100 * Client.ms_per_day + 43200000) = 1.
Proof. repeat split; reflexivity. Qed.

(** The earlier revision of [getLocalDate] returned the UTC date: late in
    the evening east of Greenwich the two differ. *)
Lemma getLocalDate_iso_differs :
  let c := Client.mkClock (100 * Client.ms_per_day + 23 * 3600000) (-120) in
  Client.getLocalDate c = 101 /\ Client.getLocalDate_iso c = 100.
Proof. split; reflexivity. Qed.

(** The winner rows depend on the stored user, group, local date, guess
    count and solved flag of the results, and on nothing else. *)
Lemma point_earner_rows_map : forall (f : DailyResult -> DailyResult) rs,
  (forall r, dr_user_id (f r) = dr_user_id r
             /\ dr_group_id (f r) = dr_group_id r
             /\ dr_local_date (f r) = dr_local_date r
             /\ dr_guess_count (f r) = dr_guess_count r
             /\ dr_solved (f r) = dr_solved r) ->
  View.point_earner_rows local_day (map f rs)
  = map f (View.point_earner_rows local_day rs).
Proof.
  intros f rs Hf. rewrite !point_earner_rows_filter, filter_map_comm.
  f_equal. apply filter_ext. intro r.
  destruct (Hf r) as [_ [Hg [Hd [Hc Hs]]]].
  unfold is_winner, local_day, View.day_key. rewrite Hs, Hg, Hd, Hc.
  rewrite !filter_map_comm, map_map.
  rewrite (map_ext (fun x => dr_guess_count (f x)) dr_guess_count)
    by (intro x; apply Hf).
  rewrite (filter_ext (fun a => dr_solved (f a)) dr_solved)
    by (intro x; apply Hf).
  rewrite (filter_ext
             (fun a => group_day_eqb
                         (dr_group_id (f a), Some (dr_local_date (f a)))
                         (dr_group_id r, Some (dr_local_date r)))
             (fun a => group_day_eqb
                         (dr_group_id a, Some (dr_local_date a))
                         (dr_group_id r, Some (dr_local_date r)))).
  - reflexivity.
  - intro x. destruct (Hf x) as [_ [Hg' [Hd' _]]]. now rewrite Hg', Hd'.
Qed.

(** The users the view credits for a group and local date compete among
    the rows stored with that local date, and no others. *)
Lemma winners_by_stored_date : forall rs g d u,
  In u (winners rs g d) <->
  exists r, In r rs /\ dr_user_id r = u /\ dr_solved r = true
            /\ dr_group_id r = Some g /\ dr_local_date r = d
            /\ forall r', In r' rs -> dr_solved r' = true ->
                          dr_group_id r' = Some g ->
                          dr_local_date r' = d ->
                          dr_guess_count r <= dr_guess_count r'.
Proof.
  intros rs g d u. rewrite In_winners. split.
  - intros [r [Hr Hd]]. apply In_winning_rows in Hr.
    destruct Hr as [Hin [Hu [Hg [Hs Hmin]]]]. exists r.
    repeat split; auto. intros r' H1 H2 H3 H4. apply Hmin; auto. congruence.
  - intros [r [Hin [Hu [Hs [Hg [Hd Hmin]]]]]]. exists r. split; [|exact Hd].
    apply In_winning_rows. repeat split; auto.
    intros r' H1 H2 H3 H4. apply Hmin; auto. congruence.
Qed.

(** C4.  Under the local-date policy every row a submission stores
    carries as its local date the calendar day of the submission instant
    in the submitter's own time zone, and the winners of a group and day
    are computed from that stored column: a user wins for a group and date
    exactly by a solved row stored with that local date whose guess count
    is the least among the solved rows of the group stored with the same
    local date, and the winners stay the same when any other column of the
    rows (day index, submission time, zone offset, UTC date) is changed. *)
Theorem local_date_is_day_key :
  forall (c : Client.Clock) (uid : uuid)
         (groups : list Client.GroupWithMembership)
         (params : Client.SubmitResultParams) (db : Database),
  (forall r,
     In r (daily_results
             (fst (Client.submitResult c (Some uid) groups params db))) ->
     In r (daily_results db)
     \/ (dr_local_date r = Client.getLocalDate c
         /\ Client.ms_per_day * dr_local_date r
            <= Client.now c - 60000 * Client.tz_offset c
            < Client.ms_per_day * (dr_local_date r + 1)))
  /\ (forall rs g d u,
        In u (winners rs g d) <->
        exists r, In r rs /\ dr_user_id r = u /\ dr_solved r = true
                  /\ dr_group_id r = Some g /\ dr_local_date r = d
                  /\ forall r', In r' rs -> dr_solved r' = true ->
                                dr_group_id r' = Some g ->
                                dr_local_date r' = d ->
                                dr_guess_count r <= dr_guess_count r')
  /\ (forall rs (f : DailyResult -> DailyResult) g d,
        (forall r, dr_user_id (f r) = dr_user_id r
                   /\ dr_group_id (f r) = dr_group_id r
                   /\ dr_local_date (f r) = dr_local_date r
                   /\ dr_guess_count (f r) = dr_guess_count r
                   /\ dr_solved (f r) = dr_solved r) ->
        winners (map f rs) g d = winners rs g d).
Proof.
  intros c uid groups params db. split; [|split].
  - intros r Hr.
    destruct (inserts_appends _ _ _
                (submitResult_inserts c uid groups params db))
      as [added [E Hall]].
    rewrite E in Hr. cbn in Hr. apply in_app_iff in Hr.
    destruct Hr as [Hr | Hr]; [left; exact Hr | right].
    rewrite Forall_forall in Hall. destruct (Hall r Hr) as [HP _].
    assert (Hd : dr_local_date r = Client.getLocalDate c)
      by (destruct HP as [[grp [_ ->]] | [_ ->]]; reflexivity).
    split; [exact Hd|]. rewrite Hd. apply getLocalDate_bounds.
  - apply winners_by_stored_date.
  - intros rs f g d Hf. unfold winners.
    rewrite (point_earner_rows_map f rs Hf), filter_map_comm, map_map.
    rewrite (map_ext (fun x => dr_user_id (f x)) dr_user_id)
      by (intro x; apply Hf).
    f_equal. apply filter_ext. intro x.
    destruct (Hf x) as [_ [Hg [Hd _]]]. now rewrite Hg, Hd.
Qed.

Lemma local_date_is_day_key_witness :
  Client.ms_per_day * 100
  <= Client.now Example.noon - 60000 * Client.tz_offset Example.noon
  < Client.ms_per_day * (100 + 1)
  /\ exists r0, In r0 (daily_results Example.first_play)
                /\ dr_user_id r0 = 2%N /\ dr_local_date r0 = 100.
Proof.
  destruct (local_date_is_day_key Example.noon 2
              (Client.fetchGroups Example.roster 2) (Client.mkParams 3 true)
              Example.roster) as [H1 [H2 _]].
  split.
  - destruct (H1 (mkDailyResult 2 (Some 7%N) 5 3 true 8683200000 100 0 None)
                (or_introl eq_refl)) as [[] | [_ H]].
    exact H.
  - destruct (proj1 (H2 (daily_results Example.first_play) 7%N 100 2%N)
                (or_introl eq_refl)) as [r0 [Hin [Hu [_ [_ [Hd _]]]]]].
    exists r0. auto.
Defined.

(** ** One result per day *)

Lemma submit_to_group_duplicate : forall c uid params db n errs grp r0,
  In r0 (daily_results db) ->
  dr_user_id r0 = uid ->
  dr_group_id r0 = Some (Client.gw_id grp) ->
  dr_day_index r0 = Client.calculateDayIndex c (Client.gw_joined_at grp) ->
  fst (fst (Client.submit_to_group c uid params (db, n, errs) grp)) = db.
Proof.
  intros c uid params db n errs grp r0 Hin Hu Hg Hd.
  unfold Client.submit_to_group.
  destruct (Client.maybeSingle _); [reflexivity|].
  destruct (insert_daily_result db (Client.group_row c uid grp params))
    as [e|db'] eqn:E; [reflexivity|].
  apply insert_daily_result_ok in E. destruct E as [_ [Hc _]].
  pose proof (not_In_of_existsb_false _ _ r0 Hc Hin) as H.
  unfold conflicts_day_index, Client.group_row in H. cbn in H.
  rewrite Hu, Hg, Hd, N.eqb_refl, Z.eqb_refl in H. cbn in H.
  now rewrite N.eqb_refl in H.
Qed.

Lemma submitPersonalResult_duplicate : forall c uid params db r0,
  In r0 (daily_results db) ->
  dr_user_id r0 = uid ->
  dr_group_id r0 = None ->
  dr_local_date r0 = Client.getLocalDate c ->
  fst (Client.submitPersonalResult c (Some uid) params db) = db.
Proof.
  intros c uid params db r0 Hin Hu Hg Hd.
  unfold Client.submitPersonalResult.
  destruct (Client.maybeSingle _); [reflexivity|].
  destruct (insert_daily_result db (Client.personal_row c uid params))
    as [e|db'] eqn:E; [reflexivity|].
  apply insert_daily_result_ok in E. destruct E as [_ [_ [Hc _]]].
  pose proof (not_In_of_existsb_false _ _ r0 Hc Hin) as H.
  unfold conflicts_personal, Client.personal_row, is_personal in H.
  cbn in H. now rewrite Hu, Hg, Hd, N.eqb_refl, Z.eqb_refl in H.
Qed.

Lemma filter_comm {A} (f g : A -> bool) (l : list A) :
  filter f (filter g l) = filter g (filter f l).
Proof.
  rewrite <- !filter_andb. apply filter_ext. intro x. apply andb_comm.
Qed.

(** Deleting rows keeps both uniqueness rules. *)
Lemma reset_keeps_unique : forall user g db,
  unique_day_index (daily_results db) ->
  unique_personal_play (daily_results db) ->
  unique_day_index (daily_results (Client.handleResetScores user g db))
  /\ unique_personal_play
       (daily_results (Client.handleResetScores user g db)).
Proof.
  intros [admin|] g db Hg Hp; [|split; assumption].
  rewrite handleResetScores_effect.
  destruct (is_group_admin db admin g); [|split; assumption].
  cbn. unfold Sql.delete_where, unique_day_index, unique_personal_play in *.
  split; rewrite filter_comm; now apply NoDup_map_filter.
Qed.

(** C5 fails as stated: member 2 of the example plays at noon of local
    day 100, leaves the group, joins again and plays a second time the
    same day.  The day index restarts at 0 with the new membership, so the
    second row is accepted: two stored results share user, group and local
    date, and the one day counts twice in games won. *)
Lemma second_result_same_day_counterexample :
  daily_results (fst Example.second_play)
  = [ mkDailyResult 2 (Some 7%N) 5 3 true 8683200000 100 0 None;
      mkDailyResult 2 (Some 7%N) 0 3 true 8690400000 100 0 None ]
  /\ Client.submitted (snd Example.second_play) = 1%nat
  /\ ~ NoDup (map (fun r => (dr_user_id r, dr_group_id r, dr_local_date r))
                  (daily_results (fst Example.second_play)))
  /\ days_won (daily_results (fst Example.second_play)) 7 2 = [100]
  /\ Client.getLeaderboard (leaderboard_scores (fst Example.second_play)) 7
     = [ mkLeaderboardEntry 7 2 "bob" 2 2;
         mkLeaderboardEntry 7 1 "ann" 0 0 ].
Proof.
  split; [reflexivity|]. split; [reflexivity|]. split; [|split; reflexivity].
  intro H. inversion H as [|? ? Hn _]; subst. apply Hn. left. reflexivity.
Qed.

(** C5, amended.  The stored results are unique per (user, group, day
    index) for group plays and per (user, local date) for personal plays,
    and a submission keeps both: it only appends rows, the table rejects a
    row that repeats the key of a stored one, and a submission for a group
    and day index (or, without groups, for a local date) that already has
    a result of the user changes nothing. *)
Theorem one_result_per_day_index :
  forall (c : Client.Clock) (uid : uuid)
         (groups : list Client.GroupWithMembership)
         (params : Client.SubmitResultParams) (db : Database),
  unique_day_index (daily_results db) ->
  unique_personal_play (daily_results db) ->
  let db' := fst (Client.submitResult c (Some uid) groups params db) in
  unique_day_index (daily_results db')
  /\ unique_personal_play (daily_results db')
  /\ (exists added, daily_results db' = daily_results db ++ added)
  /\ (forall r r0,
        In r0 (daily_results db) ->
        conflicts_day_index r r0 = true \/ conflicts_personal r r0 = true ->
        guess_count_check r = true ->
        insert_daily_result db r = inl UniqueViolation)
  /\ (forall grp r0,
        groups = [grp] ->
        In r0 (daily_results db) ->
        dr_user_id r0 = uid ->
        dr_group_id r0 = Some (Client.gw_id grp) ->
        dr_day_index r0
        = Client.calculateDayIndex c (Client.gw_joined_at grp) ->
        db' = db)
  /\ (forall r0,
        groups = [] ->
        In r0 (daily_results db) ->
        dr_user_id r0 = uid ->
        dr_group_id r0 = None ->
        dr_local_date r0 = Client.getLocalDate c ->
        db' = db)
  /\ (forall admin g,
        unique_day_index
          (daily_results (Client.handleResetScores admin g db))
        /\ unique_personal_play
             (daily_results (Client.handleResetScores admin g db))).
Proof.
  intros c uid groups params db Hg Hp db'.
  pose proof (submitResult_inserts c uid groups params db) as Hins.
  fold db' in Hins.
  destruct (inserts_keep_unique _ _ _ Hins Hg Hp) as [Hg' Hp'].
  split; [exact Hg'|]. split; [exact Hp'|].
  split; [|split; [|split; [|split]]].
  5:{ intros admin g. now apply reset_keeps_unique. }
  - destruct (inserts_appends _ _ _ Hins) as [added [E _]].
    exists added. now rewrite E.
  - intros r r0 Hin Hc Hk. unfold insert_daily_result. rewrite Hk. cbn.
    assert (E : existsb (conflicts_day_index r) (daily_results db)
                || existsb (conflicts_personal r) (daily_results db) = true).
    { apply orb_true_iff.
      destruct Hc as [Hc | Hc]; [left | right];
        apply existsb_exists; eauto. }
    now rewrite E.
  - intros grp r0 -> Hin Hu Hgr Hd. subst db'. unfold Client.submitResult.
    cbn [fold_left].
    pose proof (submit_to_group_duplicate c uid params db 0%nat [] grp r0
                  Hin Hu Hgr Hd) as H.
    destruct (Client.submit_to_group c uid params (db, 0%nat, []) grp)
      as [[d n] errs]. exact H.
  - intros r0 -> Hin Hu Hgr Hd. subst db'. unfold Client.submitResult.
    pose proof (submitPersonalResult_duplicate c uid params db r0
                  Hin Hu Hgr Hd) as H.
    destruct (Client.submitPersonalResult c (Some uid) params db)
      as [d [ok err]]. exact H.
Qed.

Lemma one_result_per_day_index_witness :
  let again :=
    fst (Client.submitResult Example.noon (Some 2%N)
           (Client.fetchGroups Example.roster 2) (Client.mkParams 4 true)
           Example.first_play) in
  again = Example.first_play
  /\ unique_day_index (daily_results again).
Proof.
  intro again.
  assert (Hg : unique_day_index (daily_results Example.first_play))
    by (repeat constructor; simpl; intuition discriminate).
  assert (Hp : unique_personal_play (daily_results Example.first_play))
    by constructor.
  destruct (one_result_per_day_index Example.noon 2
              (Client.fetchGroups Example.roster 2) (Client.mkParams 4 true)
              Example.first_play Hg Hp) as [H1 [_ [_ [_ [H5 _]]]]].
  split; [|exact H1].
  exact (H5 _ (mkDailyResult 2 (Some 7%N) 5 3 true 8683200000 100 0 None)
           eq_refl (or_introl eq_refl) eq_refl eq_refl eq_refl).
Defined.

(** ** Checking a guess *)

Section ArrayFacts.

Context {A : Type}.

Lemma cell_nil : forall j, Game.cell (@nil (option A)) j = None.
Proof. now destruct j. Qed.

Lemma cell_put : forall (l : list (option A)) i x j,
  Game.cell (Game.put l i x) j = if Nat.eqb j i then x else Game.cell l j.
Proof.
  intros l i. revert l.
  induction i as [|i IH]; intros l x j.
  - destruct l, j; cbn; auto. now destruct j.
  - destruct l as [|y t], j as [|j]; cbn; auto.
    + change (Game.cell (Game.put [] i x) j
              = if Nat.eqb j i then x else None).
      now rewrite IH, cell_nil.
    + apply (IH t x j).
Qed.

Lemma length_put : forall (l : list (option A)) i x,
  List.length (Game.put l i x) = Nat.max (List.length l) (S i).
Proof.
  intros l i. revert l.
  induction i as [|i IH]; intros [|y t] x; cbn; auto;
    try (now destruct (List.length t)); now rewrite IH.
Qed.

Lemma cell_beyond : forall (l : list (option A)) i,
  (List.length l <= i)%nat -> Game.cell l i = None.
Proof.
  intros l i H. unfold Game.cell.
  now rewrite (proj2 (nth_error_None l i) H).
Qed.

Lemma cell_map_Some : forall (l : list A) i,
  Game.cell (map Some l) i = nth_error l i.
Proof.
  intros l i. unfold Game.cell. rewrite nth_error_map.
  now destruct (nth_error l i).
Qed.

End ArrayFacts.

(** A loop over the characters keeps what each of its turns keeps. *)
Lemma forEach_invariant {St} (P : nat -> St -> Prop)
    (body : nat -> Ascii.ascii -> St -> St) :
  forall chars i st,
    P i st ->
    (forall k c st', nth_error chars k = Some c ->
                     P (i + k)%nat st' -> P (S (i + k)) (body (i + k)%nat c st')) ->
    P (i + List.length chars)%nat (Game.forEach body i chars st).
Proof.
  induction chars as [|c t IH]; intros i st H0 Hstep; cbn.
  - now rewrite Nat.add_0_r.
  - rewrite <- Nat.add_succ_comm. apply IH.
    + specialize (Hstep 0%nat c st eq_refl). rewrite Nat.add_0_r in Hstep.
      now apply Hstep.
    + intros k c' st' Hk Hp. rewrite Nat.add_succ_comm in *.
      now apply (Hstep (S k)).
Qed.

Lemma indexOf_found : forall l c k,
  Game.indexOf l c = Some k -> Game.cell l k = Some c.
Proof.
  induction l as [|x t IH]; intros c k H; [discriminate|].
  cbn in H. destruct x as [c'|].
  - destruct (Ascii.eqb_spec c' c) as [->|Hne].
    + inversion H. reflexivity.
    + destruct (Game.indexOf t c) as [k'|] eqn:E; [|discriminate].
      inversion H. cbn. now apply IH.
  - destruct (Game.indexOf t c) as [k'|] eqn:E; [|discriminate].
    inversion H. cbn. now apply IH.
Qed.

Lemma cell_fresh : forall j,
  Game.cell (repeat (Some Game.absent) 5) j = Game.blank j.
Proof. do 5 (destruct j as [|j]; [reflexivity|]). now destruct j. Qed.

Lemma available_fresh : forall s c,
  Game.available (map Some s) c = Game.occurrences s c.
Proof.
  intros s c. unfold Game.available, Game.occurrences.
  induction s as [|a t IH]; cbn; auto.
  destruct (Ascii.eqb a c); cbn; now rewrite IH.
Qed.

(** Using up a letter of the solution takes one from what is available
    of that letter and nothing from the others. *)
Lemma available_put : forall sol m c0 c,
  Game.cell sol m = Some c0 ->
  (Game.available (Game.put sol m None) c
   + (if Ascii.eqb c0 c then 1 else 0))%nat
  = Game.available sol c.
Proof.
  unfold Game.available. induction sol as [|x t IH]; intros m c0 c H.
  - now rewrite cell_nil in H.
  - destruct m as [|m]; cbn in H |- *.
    + subst x. cbn. destruct (Ascii.eqb c0 c); cbn; lia.
    + specialize (IH m c0 c H).
      destruct (Game.is_cell_char x c); cbn; lia.
Qed.

Lemma indexOf_missing : forall l c,
  Game.indexOf l c = None -> Game.available l c = 0%nat.
Proof.
  unfold Game.available. induction l as [|x t IH]; intros c H; auto.
  cbn in H |- *. destruct x as [c'|]; cbn.
  - destruct (Ascii.eqb c' c); [discriminate|].
    destruct (Game.indexOf t c) eqn:E; [discriminate|]. now apply IH.
  - destruct (Game.indexOf t c) eqn:E; [discriminate|]. now apply IH.
Qed.

Lemma count_flip : forall (p q : nat -> bool) l k,
  NoDup l -> In k l -> p k = false -> q k = true ->
  (forall j, j <> k -> q j = p j) ->
  List.length (filter q l) = S (List.length (filter p l)).
Proof.
  intros p q l k Hnd Hin Hp Hq Hsame.
  induction l as [|a t IH]; [contradiction|].
  inversion Hnd as [|? ? Ha Ht]; subst. cbn.
  destruct (Nat.eq_dec a k) as [->|Hne].
  - rewrite Hp, Hq. cbn. f_equal. f_equal.
    apply filter_ext_in_bool. intros j Hj. apply Hsame. congruence.
  - destruct Hin as [E|Hin]; [congruence|].
    rewrite (Hsame a Hne). destruct (p a); cbn; now rewrite IH.
Qed.

(** Colouring a tile that was not coloured adds one to the coloured tiles
    of its letter and none to the others. *)
Lemma coloured_put : forall g res k c0 v c,
  nth_error g k = Some c0 ->
  Game.is_coloured (Game.cell res k) = false ->
  Game.is_coloured v = true ->
  Game.coloured g (Game.put res k v) c
  = (Game.coloured g res c + (if Ascii.eqb c0 c then 1 else 0))%nat.
Proof.
  intros g res k c0 v c Hk Hold Hnew. unfold Game.coloured.
  assert (Hlt : (k < List.length g)%nat)
    by (apply nth_error_Some; congruence).
  destruct (Ascii.eqb c0 c) eqn:E.
  - rewrite Nat.add_1_r. apply (count_flip _ _ _ k).
    + apply seq_NoDup.
    + apply in_seq. lia.
    + now rewrite Hold, andb_false_r.
    + now rewrite cell_put, Nat.eqb_refl, Hnew, cell_map_Some, Hk; cbn;
        rewrite E.
    + intros j Hj. rewrite cell_put.
      now rewrite (proj2 (Nat.eqb_neq j k) Hj).
  - rewrite Nat.add_0_r. f_equal. apply filter_ext_in_bool. intros j _.
    rewrite cell_put. destruct (Nat.eqb_spec j k) as [->|]; auto.
    rewrite cell_map_Some, Hk. cbn. now rewrite E.
Qed.

Lemma same_at_guess : forall g s k c,
  nth_error g k = Some c ->
  Game.is_cell_char (nth_error s k) c = Game.same_at g s k.
Proof. intros g s k c H. unfold Game.same_at. now rewrite H. Qed.

(** After the first pass: the green tiles are the positions where guess
    and solution agree, the letters of those positions are used up, and
    every used letter is accounted for by a coloured tile. *)
Lemma first_pass : forall g s,
  let st := Game.forEach Game.mark_correct 0 g
              (repeat (Some Game.absent) 5, map Some s) in
  (forall j, Game.cell (fst st) j
             = if Game.same_at g s j then Some Game.correct else Game.blank j)
  /\ (forall j, Game.cell (snd st) j
                = if Game.same_at g s j then None else nth_error s j)
  /\ (forall c, (Game.coloured g (fst st) c + Game.available (snd st) c)%nat
                = Game.occurrences s c).
Proof.
  intros g s.
  pose (P := fun (n : nat) (st : Game.Marks) =>
    (forall j, Game.cell (fst st) j
               = if Nat.ltb j n && Game.same_at g s j
                 then Some Game.correct else Game.blank j)
    /\ (forall j, Game.cell (snd st) j
                  = if Nat.ltb j n && Game.same_at g s j
                    then None else nth_error s j)
    /\ (forall c, (Game.coloured g (fst st) c
                   + Game.available (snd st) c)%nat
                  = Game.occurrences s c)).
  assert (H : P (0 + List.length g)%nat
                (Game.forEach Game.mark_correct 0 g
                   (repeat (Some Game.absent) 5, map Some s))).
  { apply forEach_invariant.
    - repeat split; cbn [fst snd].
      + intro j. apply cell_fresh.
      + intro j. apply cell_map_Some.
      + intro c. rewrite available_fresh. unfold Game.coloured.
        rewrite filter_none; [reflexivity|].
        intros j _. rewrite cell_fresh. unfold Game.blank.
        destruct (Nat.ltb j 5); apply andb_false_r.
    - intros k c [res sol] Hk [Hr [Hs Hb]]. cbn [Nat.add fst snd] in *.
      unfold Game.mark_correct. cbn [fst snd].
      assert (Hsk : Game.cell sol k = nth_error s k).
      { rewrite Hs. now rewrite Nat.ltb_irrefl. }
      assert (Hrk : Game.cell res k = Game.blank k).
      { rewrite Hr. now rewrite Nat.ltb_irrefl. }
      rewrite Hsk, (same_at_guess g s k c Hk).
      destruct (Game.same_at g s k) eqn:Esame; repeat split; cbn [fst snd].
      + intro j. rewrite cell_put, Hr.
        destruct (Nat.eqb_spec j k) as [->|Hne].
        * now rewrite (proj2 (Nat.ltb_lt k (S k)) (Nat.lt_succ_diag_r k)),
            Esame.
        * replace (Nat.ltb j (S k)) with (Nat.ltb j k); auto.
          apply eq_true_iff_eq. rewrite !Nat.ltb_lt. lia.
      + intro j. rewrite cell_put, Hs.
        destruct (Nat.eqb_spec j k) as [->|Hne].
        * now rewrite (proj2 (Nat.ltb_lt k (S k)) (Nat.lt_succ_diag_r k)),
            Esame.
        * replace (Nat.ltb j (S k)) with (Nat.ltb j k); auto.
          apply eq_true_iff_eq. rewrite !Nat.ltb_lt. lia.
      + intro c'.
        assert (Hc : Game.cell sol k = Some c).
        { rewrite Hsk. unfold Game.same_at in Esame. rewrite Hk in Esame.
          destruct (nth_error s k) as [b|]; [|discriminate].
          apply Ascii.eqb_eq in Esame. now subst. }
        rewrite (coloured_put g res k c (Some Game.correct) c' Hk);
          [| rewrite Hrk; unfold Game.blank; now destruct (Nat.ltb k 5)
           | reflexivity].
        pose proof (available_put sol k c c' Hc). rewrite <- Hb. lia.
      + intro j. rewrite Hr.
        destruct (Nat.eqb_spec j k) as [->|Hne].
        * now rewrite Esame, !andb_false_r.
        * replace (Nat.ltb j (S k)) with (Nat.ltb j k); auto.
          apply eq_true_iff_eq. rewrite !Nat.ltb_lt. lia.
      + intro j. rewrite Hs.
        destruct (Nat.eqb_spec j k) as [->|Hne].
        * now rewrite Esame, !andb_false_r.
        * replace (Nat.ltb j (S k)) with (Nat.ltb j k); auto.
          apply eq_true_iff_eq. rewrite !Nat.ltb_lt. lia.
      + exact Hb. }
  destruct H as [Hr [Hs Hb]]. cbn [Nat.add] in Hr, Hs.
  assert (Hout : forall j, Nat.ltb j (List.length g) && Game.same_at g s j
                           = Game.same_at g s j).
  { intro j. destruct (Nat.ltb_spec j (List.length g)); auto.
    unfold Game.same_at.
    now rewrite (proj2 (nth_error_None g j)) by assumption. }
  repeat split.
  - intro j. now rewrite Hr, Hout.
  - intro j. now rewrite Hs, Hout.
  - exact Hb.
Qed.

Lemma available_put_le : forall sol m c0 c,
  Game.cell sol m = Some c0 ->
  (Game.available (Game.put sol m None) c <= Game.available sol c)%nat.
Proof.
  intros sol m c0 c H. pose proof (available_put sol m c0 c H). lia.
Qed.

Lemma blank_not_coloured : forall j, Game.is_coloured (Game.blank j) = false.
Proof. intro j. unfold Game.blank. now destruct (Nat.ltb j 5). Qed.

(** After both passes. *)
Lemma both_passes : forall g s,
  let st := Game.forEach Game.mark_present 0 g
              (Game.forEach Game.mark_correct 0 g
                 (repeat (Some Game.absent) 5, map Some s)) in
  (forall j, Game.is_correct (Game.cell (fst st) j) = Game.same_at g s j)
  /\ (forall j, Game.cell (fst st) j = Some Game.correct
                \/ Game.cell (fst st) j = Some Game.present
                \/ Game.cell (fst st) j = Game.blank j)
  /\ (forall c, (Game.coloured g (fst st) c + Game.available (snd st) c)%nat
                = Game.occurrences s c)
  /\ (forall j c, nth_error g j = Some c ->
                  Game.is_coloured (Game.cell (fst st) j) = false ->
                  Game.available (snd st) c = 0%nat).
Proof.
  intros g s.
  destruct (first_pass g s) as [Hr1 [_ Hb1]].
  set (st1 := Game.forEach Game.mark_correct 0 g
                (repeat (Some Game.absent) 5, map Some s)) in *.
  pose (P := fun (n : nat) (st : Game.Marks) =>
    (forall j, Game.is_correct (Game.cell (fst st) j) = Game.same_at g s j)
    /\ (forall j, (n <= j)%nat ->
                  Game.cell (fst st) j
                  = if Game.same_at g s j then Some Game.correct
                    else Game.blank j)
    /\ (forall j, Game.cell (fst st) j = Some Game.correct
                  \/ Game.cell (fst st) j = Some Game.present
                  \/ Game.cell (fst st) j = Game.blank j)
    /\ (forall c, (Game.coloured g (fst st) c
                   + Game.available (snd st) c)%nat
                  = Game.occurrences s c)
    /\ (forall j c, (j < n)%nat -> nth_error g j = Some c ->
                    Game.is_coloured (Game.cell (fst st) j) = false ->
                    Game.available (snd st) c = 0%nat)).
  assert (H : P (0 + List.length g)%nat
                (Game.forEach Game.mark_present 0 g st1)).
  { apply forEach_invariant.
    - unfold P. split; [|split; [|split; [|split]]].
      + intro j. rewrite Hr1. unfold Game.blank.
        destruct (Game.same_at g s j); auto. now destruct (Nat.ltb j 5).
      + intros j _. apply Hr1.
      + intro j. rewrite Hr1. destruct (Game.same_at g s j); auto.
      + exact Hb1.
      + intros j c Hj. lia.
    - intros k c [res sol] Hk [Ha [Hb [Hc [Hd He]]]].
      cbn [Nat.add fst snd] in *. unfold Game.mark_present. cbn [fst snd].
      assert (Hkeep :
        (Game.is_coloured (Game.cell res k) = true
         \/ Game.available sol c = 0%nat) -> P (S k) (res, sol)).
      { intro Hcase. unfold P. cbn [fst snd].
        split; [exact Ha|]. split; [intros j Hj; apply Hb; lia|].
        split; [exact Hc|]. split; [exact Hd|].
        intros j c' Hj Hg Hcol.
        destruct (Nat.eq_dec j k) as [->|Hne]; [|apply (He j); auto; lia].
        destruct Hcase as [Hcase|Hcase]; [congruence|]. congruence. }
      destruct (Game.is_correct (Game.cell res k)) eqn:Ecor; cbn [negb].
      { apply Hkeep. left. destruct (Game.cell res k) as [[]|]; auto;
          discriminate. }
      destruct (Game.indexOf sol c) as [m|] eqn:Eidx;
        [|apply Hkeep; right; now apply indexOf_missing].
      assert (Hm : Game.cell sol m = Some c) by now apply indexOf_found.
      assert (Hsame : Game.same_at g s k = false) by now rewrite <- Ha.
      assert (Hblank : Game.cell res k = Game.blank k)
        by (rewrite (Hb k (Nat.le_refl k)), Hsame; reflexivity).
      unfold P. cbn [fst snd]. split; [|split; [|split; [|split]]].
      + intro j. rewrite cell_put.
        destruct (Nat.eqb_spec j k) as [->|]; auto.
      + intros j Hj. rewrite cell_put.
        rewrite (proj2 (Nat.eqb_neq j k)) by lia. apply Hb. lia.
      + intro j. rewrite cell_put.
        destruct (Nat.eqb_spec j k) as [->|]; auto.
      + intro c'.
        rewrite (coloured_put g res k c (Some Game.present) c' Hk);
          [| rewrite Hblank; apply blank_not_coloured | reflexivity].
        pose proof (available_put sol m c c' Hm). rewrite <- Hd. lia.
      + intros j c' Hj Hg Hcol. rewrite cell_put in Hcol.
        destruct (Nat.eqb_spec j k) as [->|Hne]; [discriminate|].
        assert (H0 : Game.available sol c' = 0%nat)
          by (apply (He j); auto; lia).
        pose proof (available_put_le sol m c c' Hm). lia. }
  destruct H as [Ha [_ [Hc [Hd He]]]]. cbn [Nat.add] in He.
  split; [exact Ha|]. split; [exact Hc|]. split; [exact Hd|].
  intros j c Hg. apply He; auto. apply nth_error_Some. congruence.
Qed.

Lemma checkGuess_length : forall g s,
  (List.length g <= 5)%nat -> List.length (Game.checkGuess g s) = 5%nat.
Proof.
  intros g s Hg. unfold Game.checkGuess.
  pose (P := fun (n : nat) (st : Game.Marks) => List.length (fst st) = 5%nat).
  assert (Hstep : forall body,
    (forall k c st, (k < 5)%nat -> P k st -> P (S k) (body k c st)) ->
    forall st, P 0%nat st ->
               P (0 + List.length g)%nat (Game.forEach body 0 g st)).
  { intros body Hbody st H0. apply forEach_invariant; auto.
    intros k c st' Hk. apply Hbody.
    assert (k < List.length g)%nat by (apply nth_error_Some; congruence).
    cbn. lia. }
  apply (Hstep Game.mark_present).
  - intros k c [res sol] Hk H. unfold P, Game.mark_present in *. cbn in *.
    destruct (negb _); auto. destruct (Game.indexOf sol c); auto.
    cbn. rewrite length_put. lia.
  - apply (Hstep Game.mark_correct).
    + intros k c [res sol] Hk H. unfold P, Game.mark_correct in *. cbn in *.
      destruct (Game.is_cell_char _ c); auto. cbn. rewrite length_put. lia.
    + reflexivity.
Qed.

Lemma cells_determine {A} (l l' : list (option A)) :
  List.length l = List.length l' ->
  (forall j, Game.cell l j = Game.cell l' j) -> l = l'.
Proof.
  revert l'. induction l as [|x t IH]; intros [|y u] Hlen H;
    try discriminate; auto.
  f_equal.
  - exact (H 0%nat).
  - apply IH; [now inversion Hlen | intro j; exact (H (S j))].
Qed.

Lemma nth_error_determine {A} (l l' : list A) :
  (forall j, nth_error l j = nth_error l' j) -> l = l'.
Proof.
  revert l'. induction l as [|x t IH]; intros [|y u] H; auto.
  - specialize (H 0%nat). discriminate.
  - specialize (H 0%nat). discriminate.
  - f_equal; [pose proof (H 0%nat) as E; now inversion E|].
    apply IH. intro j. exact (H (S j)).
Qed.

(** X1.  [checkGuess] colours a tile green exactly where the guess has
    the solution's letter; it never leaves a tile in the initial state,
    and for a guess of at most five letters it returns five tiles, each
    green, yellow or grey. *)
Theorem checkGuess_green_tiles : forall (g s : list Ascii.ascii) (j : nat),
  (Game.cell (Game.checkGuess g s) j = Some Game.correct <->
   exists c, nth_error g j = Some c /\ nth_error s j = Some c)
  /\ Game.cell (Game.checkGuess g s) j <> Some Game.initial
  /\ ((List.length g <= 5)%nat ->
      List.length (Game.checkGuess g s) = 5%nat
      /\ ((j < 5)%nat ->
          Game.cell (Game.checkGuess g s) j = Some Game.correct
          \/ Game.cell (Game.checkGuess g s) j = Some Game.present
          \/ Game.cell (Game.checkGuess g s) j = Some Game.absent)).
Proof.
  intros g s j. destruct (both_passes g s) as [Ha [Hc _]].
  fold (Game.checkGuess g s) in Ha, Hc.
  split; [|split].
  - specialize (Ha j). unfold Game.same_at in Ha. split.
    + intro E. rewrite E in Ha. cbn in Ha.
      destruct (nth_error g j) as [a|]; [|discriminate].
      destruct (nth_error s j) as [b|]; [|discriminate].
      symmetry in Ha. apply Ascii.eqb_eq in Ha. subst. eauto.
    + intros [c [Hg Hs]]. rewrite Hg, Hs, Ascii.eqb_refl in Ha.
      destruct (Game.cell (Game.checkGuess g s) j) as [[]|]; auto;
        discriminate.
  - destruct (Hc j) as [E|[E|E]]; rewrite E; try discriminate.
    unfold Game.blank. destruct (Nat.ltb j 5); discriminate.
  - intro Hlen. split; [now apply checkGuess_length|].
    intro Hj. destruct (Hc j) as [E|[E|E]]; auto.
    right. right. rewrite E. unfold Game.blank.
    now rewrite (proj2 (Nat.ltb_lt j 5) Hj).
Qed.

Lemma checkGuess_green_tiles_witness :
  List.length
    (Game.checkGuess (list_ascii_of_string "SPEED")
       (list_ascii_of_string "ABIDE")) = 5%nat.
Proof.
  refine (proj1 (proj2 (proj2 (checkGuess_green_tiles
            (list_ascii_of_string "SPEED") (list_ascii_of_string "ABIDE")
            0%nat)) _)).
  cbn. lia.
Defined.

(** X2.  For five-letter words the row is all green exactly when the
    guess is the solution, which is the test [handleEnter] uses to end
    the game as won. *)
Theorem checkGuess_all_green : forall g s : list Ascii.ascii,
  List.length g = 5%nat -> List.length s = 5%nat ->
  (Game.checkGuess g s = repeat (Some Game.correct) 5 <-> g = s).
Proof.
  intros g s Hg Hs. destruct (both_passes g s) as [Ha _].
  fold (Game.checkGuess g s) in Ha. split.
  - intro E. apply nth_error_determine. intro j.
    destruct (Nat.ltb_spec j 5) as [Hj|Hj].
    + specialize (Ha j). rewrite E in Ha.
      assert (Hc : Game.is_correct
                     (Game.cell (repeat (Some Game.correct) 5) j) = true).
      { do 5 (destruct j as [|j]; [reflexivity|]). lia. }
      rewrite Hc in Ha. unfold Game.same_at in Ha.
      destruct (nth_error g j) as [a|]; [|discriminate].
      destruct (nth_error s j) as [b|]; [|discriminate].
      symmetry in Ha. apply Ascii.eqb_eq in Ha. now subst.
    + rewrite (proj2 (nth_error_None g j)), (proj2 (nth_error_None s j));
        auto; lia.
  - intros <-. apply cells_determine.
    + rewrite checkGuess_length by lia. reflexivity.
    + intro j. specialize (Ha j). unfold Game.same_at in Ha.
      destruct (Nat.ltb_spec j 5) as [Hj|Hj].
      * destruct (nth_error g j) as [a|] eqn:E.
        -- rewrite Ascii.eqb_refl in Ha.
           replace (Game.cell (repeat (Some Game.correct) 5) j)
             with (Some Game.correct)
             by (do 5 (destruct j as [|j]; [reflexivity|]); lia).
           destruct (Game.cell (Game.checkGuess g g) j) as [[]|]; auto;
             discriminate.
        -- apply nth_error_None in E. lia.
      * rewrite (cell_beyond (Game.checkGuess g g) j)
          by (rewrite checkGuess_length; lia).
        rewrite cell_beyond; [reflexivity | cbn; lia].
Qed.

Lemma checkGuess_all_green_witness :
  Game.checkGuess (list_ascii_of_string "ABIDE")
    (list_ascii_of_string "ABIDE")
  = repeat (Some Game.correct) 5.
Proof.
  exact (proj2 (checkGuess_all_green (list_ascii_of_string "ABIDE")
                  (list_ascii_of_string "ABIDE") eq_refl eq_refl) eq_refl).
Defined.

Lemma forallb_false_witness {A} (p : A -> bool) (l : list A) :
  forallb p l = false -> exists x, In x l /\ p x = false.
Proof.
  induction l as [|a t IH]; cbn; [discriminate|].
  destruct (p a) eqn:E; cbn.
  - intro H. destruct (IH H) as [x [Hx Hp]]. eauto.
  - intros _. eauto.
Qed.

Lemma positions_of_letter : forall g c,
  List.length
    (filter (fun i => Game.is_cell_char (Game.cell (map Some g) i) c)
            (seq 0 (List.length g)))
  = Game.occurrences g c.
Proof.
  intros g c. unfold Game.occurrences.
  induction g as [|a t IH]; [reflexivity|].
  cbn [List.length seq filter map]. rewrite <- seq_shift, filter_map_comm.
  change (fun a0 : nat =>
            Game.is_cell_char (Game.cell (Some a :: map Some t) (S a0)) c)
    with (fun i : nat => Game.is_cell_char (Game.cell (map Some t) i) c).
  change (Game.is_cell_char (Game.cell (Some a :: map Some t) 0) c)
    with (Ascii.eqb a c).
  destruct (Ascii.eqb a c); cbn [List.length]; rewrite length_map, IH;
    reflexivity.
Qed.

(** X3.  For every letter, the number of tiles of that letter that
    [checkGuess] colours green or yellow is the smaller of its number of
    occurrences in the guess and in the solution: a repeated letter is
    never coloured more often than the solution has it, and never left
    grey while the solution still has a copy to spare. *)
Theorem checkGuess_letter_budget : forall (g s : list Ascii.ascii) (c : Ascii.ascii),
  Game.coloured g (Game.checkGuess g s) c
  = Nat.min (Game.occurrences g c) (Game.occurrences s c).
Proof.
  intros g s c. destruct (both_passes g s) as [_ [_ [Hd He]]].
  fold (Game.checkGuess g s) in Hd, He.
  set (res := Game.checkGuess g s) in *.
  set (sol := snd (Game.forEach Game.mark_present 0 g
                     (Game.forEach Game.mark_correct 0 g
                        (repeat (Some Game.absent) 5, map Some s)))) in *.
  assert (Hle : (Game.coloured g res c <= Game.occurrences g c)%nat).
  { rewrite <- positions_of_letter. unfold Game.coloured.
    rewrite filter_andb. apply filter_length_le. }
  destruct (forallb (fun i => implb (Game.is_cell_char
                                       (Game.cell (map Some g) i) c)
                                    (Game.is_coloured (Game.cell res i)))
              (seq 0 (List.length g))) eqn:Eall.
  - assert (E : Game.coloured g res c = Game.occurrences g c).
    { rewrite <- positions_of_letter. unfold Game.coloured. f_equal.
      apply filter_ext_in_bool. intros i Hi.
      rewrite forallb_forall in Eall. specialize (Eall i Hi).
      destruct (Game.is_cell_char _ c); auto. }
    specialize (Hd c). lia.
  - assert (Hex : exists i, nth_error g i = Some c
                            /\ Game.is_coloured (Game.cell res i) = false).
    { destruct (forallb_false_witness _ _ Eall) as [i [_ Hi]].
      rewrite cell_map_Some in Hi.
      destruct (nth_error g i) as [a|] eqn:Ea; [|discriminate].
      cbn in Hi. destruct (Ascii.eqb_spec a c) as [->|]; [|discriminate].
      exists i. split; auto. }
    destruct Hex as [i [Hi Hcol]].
    pose proof (He i c Hi Hcol) as H0. specialize (Hd c). lia.
Qed.

(** ** The word of the day *)

Lemma toInt32_range : forall x, - 2 ^ 31 <= Game.toInt32 x < 2 ^ 31.
Proof.
  intro x. unfold Game.toInt32.
  pose proof (Z.mod_pos_bound (x + 2 ^ 31) (2 ^ 32) ltac:(lia)). lia.
Qed.

Lemma toInt32_shift : forall x k,
  Game.toInt32 (x + k * 2 ^ 32) = Game.toInt32 x.
Proof.
  intros x k. unfold Game.toInt32.
  replace (x + k * 2 ^ 32 + 2 ^ 31) with (x + 2 ^ 31 + k * 2 ^ 32) by lia.
  now rewrite Z.mod_add by lia.
Qed.

Lemma toInt32_multiple : forall x, exists k, Game.toInt32 x = x + k * 2 ^ 32.
Proof.
  intro x. unfold Game.toInt32. exists (- ((x + 2 ^ 31) / 2 ^ 32)).
  pose proof (Z.div_mod (x + 2 ^ 31) (2 ^ 32) ltac:(lia)). lia.
Qed.

(** One turn of the loop multiplies by 31 and adds the character code,
    modulo 2^32. *)
Lemma hash_step_31 : forall a c,
  Game.hash_step (Game.toInt32 a) c = Game.toInt32 (31 * a + c).
Proof.
  intros a c. unfold Game.hash_step. rewrite Z.shiftl_mul_pow2 by lia.
  destruct (toInt32_multiple a) as [k Hk].
  destruct (toInt32_multiple (Game.toInt32 a)) as [k1 Hk1].
  destruct (toInt32_multiple (Game.toInt32 (Game.toInt32 a) * 2 ^ 5))
    as [k2 Hk2].
  rewrite Hk2, Hk1, Hk.
  replace ((a + k * 2 ^ 32 + k1 * 2 ^ 32) * 2 ^ 5 + k2 * 2 ^ 32
           - (a + k * 2 ^ 32) + c)
    with (31 * a + c + (32 * k + 32 * k1 + k2 - k) * 2 ^ 32)
    by (change (2 ^ 32) with 4294967296; change (2 ^ 5) with 32; lia).
  apply toInt32_shift.
Qed.

Lemma hash_fold_31 : forall codes a,
  fold_left Game.hash_step codes (Game.toInt32 a)
  = Game.toInt32 (fold_left (fun h c => 31 * h + c) codes a).
Proof.
  induction codes as [|c t IH]; intro a; [reflexivity|].
  cbn [fold_left]. now rewrite hash_step_31, IH.
Qed.

(** X4.  [hashDateString] is the absolute value of the 31-polynomial of
    the character codes reduced to a signed 32-bit integer; it lies
    between 0 and 2^31 inclusive. *)
Theorem hashDateString_polynomial : forall dateStr : string,
  Game.hashDateString dateStr
  = Z.abs (Game.toInt32
             (fold_left (fun h c => 31 * h + c) (Game.charCodes dateStr) 0))
  /\ 0 <= Game.hashDateString dateStr <= 2 ^ 31.
Proof.
  intro dateStr. unfold Game.hashDateString.
  change (fold_left Game.hash_step (Game.charCodes dateStr) 0)
    with (fold_left Game.hash_step (Game.charCodes dateStr)
            (Game.toInt32 0)).
  rewrite hash_fold_31. split; [reflexivity|].
  pose proof (toInt32_range
                (fold_left (fun h c => 31 * h + c)
                   (Game.charCodes dateStr) 0)).
  lia.
Qed.

(** X5.  With a non-empty word list [getWordOfDay] always yields a word
    of the list: the index it computes is within bounds; with an empty
    list it yields nothing. *)
Theorem getWordOfDay_in_list : forall (WORDS : list string) (localDate : string),
  (WORDS <> [] ->
   exists w, Game.getWordOfDay WORDS localDate = Some w /\ In w WORDS)
  /\ Game.getWordOfDay [] localDate = None.
Proof.
  intros WORDS localDate. split; [|reflexivity].
  intro Hne. unfold Game.getWordOfDay.
  destruct WORDS as [|w0 t]; [congruence|].
  set (l := w0 :: t).
  destruct (hashDateString_polynomial localDate) as [_ [Hlo _]].
  assert (Hlen : 0 < Z.of_nat (List.length l)) by (cbn; lia).
  pose proof (Z.mod_pos_bound (Game.hashDateString localDate)
                (Z.of_nat (List.length l)) Hlen) as Hb.
  destruct (nth_error l (Z.to_nat (Game.hashDateString localDate
                                   mod Z.of_nat (List.length l))))
    as [w|] eqn:E.
  - exists w. split; auto. now apply nth_error_In in E.
  - apply nth_error_None in E. lia.
Qed.

Lemma getWordOfDay_in_list_witness :
  exists w,
    Game.getWordOfDay ["ABIDE"%string; "SPEED"%string] "2025-12-18" = Some w
    /\ In w ["ABIDE"%string; "SPEED"%string].
Proof.
  apply (proj1 (getWordOfDay_in_list ["ABIDE"%string; "SPEED"%string]
                  "2025-12-18")).
  discriminate.
Defined.

(** ** Key colours *)

Lemma key_state_set : forall keys c v k,
  Game.key_state (Game.key_set keys c v) k
  = if Ascii.eqb c k then Some v else Game.key_state keys k.
Proof.
  induction keys as [|[k0 w] t IH]; intros c v k; cbn.
  - reflexivity.
  - destruct (Ascii.eqb_spec k0 c) as [->|Hne]; cbn.
    + now destruct (Ascii.eqb c k).
    + rewrite IH. destruct (Ascii.eqb_spec k0 k) as [->|]; auto.
      destruct (Ascii.eqb_spec c k); congruence.
Qed.

(** One letter of a checked guess never lowers a key, leaves the other
    keys alone, and brings its own key at least to the tile's colour. *)
Lemma merge_key_rank : forall result i char keys k,
  (Game.rank (Game.key_state keys k)
   <= Game.rank (Game.key_state (Game.merge_key result i char keys) k))%nat
  /\ (k <> char ->
      Game.key_state (Game.merge_key result i char keys) k
      = Game.key_state keys k)
  /\ (Game.rank (Game.cell result i)
      <= Game.rank (Game.key_state (Game.merge_key result i char keys) char))%nat.
Proof.
  intros result i char keys k. unfold Game.merge_key.
  destruct (Game.cell result i) as [[]|];
    destruct (Game.key_state keys char) as [[]|] eqn:Ec; cbn [negb Game.is_correct];
    rewrite ?key_state_set, ?Ascii.eqb_refl, ?Ec;
    (split; [|split]);
    try (intro Hne; destruct (Ascii.eqb_spec char k); congruence);
    try (destruct (Ascii.eqb_spec char k) as [<-|]; [rewrite ?Ec|]);
    cbn; lia.
Qed.

(** X6.  Folding a checked guess into the keyboard never lowers a key
    (a green key stays green, a yellow key never turns grey), leaves the
    keys of letters not in the guess untouched, and leaves the key of each
    guessed letter at least as revealed as every tile of that letter. *)
Theorem updateUsedKeys_never_lowers :
  forall (usedKeys : Game.UsedKeys) (guess : list Ascii.ascii)
         (result : list (option Game.LetterState)) (k : Ascii.ascii),
  (Game.rank (Game.key_state usedKeys k)
   <= Game.rank (Game.key_state
                   (Game.updateUsedKeys usedKeys guess result) k))%nat
  /\ (~ In k guess ->
      Game.key_state (Game.updateUsedKeys usedKeys guess result) k
      = Game.key_state usedKeys k)
  /\ (forall i, nth_error guess i = Some k ->
        (Game.rank (Game.cell result i)
         <= Game.rank (Game.key_state
                         (Game.updateUsedKeys usedKeys guess result) k))%nat).
Proof.
  intros usedKeys guess result k. unfold Game.updateUsedKeys.
  pose (P := fun (n : nat) (keys : Game.UsedKeys) =>
    (forall x, Game.rank (Game.key_state usedKeys x)
               <= Game.rank (Game.key_state keys x))%nat
    /\ (forall x, ~ In x guess ->
                  Game.key_state keys x = Game.key_state usedKeys x)
    /\ (forall i x, (i < n)%nat -> nth_error guess i = Some x ->
                    (Game.rank (Game.cell result i)
                     <= Game.rank (Game.key_state keys x))%nat)).
  assert (H : P (0 + List.length guess)%nat
                (Game.forEach (Game.merge_key result) 0 guess usedKeys)).
  { apply forEach_invariant.
    - repeat split; auto. intros i x Hi. lia.
    - intros n c keys Hn [H1 [H2 H3]]. cbn [Nat.add] in *.
      split; [|split].
      + intro x. destruct (merge_key_rank result n c keys x) as [Hm _].
        specialize (H1 x). lia.
      + intros x Hx. destruct (merge_key_rank result n c keys x) as [_ [Hm _]].
        rewrite Hm; auto. intros ->. apply Hx.
        now apply nth_error_In in Hn.
      + intros i x Hi Hx.
        destruct (Nat.eq_dec i n) as [->|Hne].
        * rewrite Hn in Hx. inversion Hx; subst.
          now destruct (merge_key_rank result n x keys x) as [_ [_ Hm]].
        * destruct (merge_key_rank result n c keys x) as [Hm _].
          assert (Hold := H3 i x ltac:(lia) Hx). lia. }
  destruct H as [H1 [H2 H3]]. split; [apply H1|]. split; [apply H2|].
  intros i Hi. apply (H3 i k); auto. apply nth_error_Some. congruence.
Qed.

Lemma updateUsedKeys_never_lowers_witness :
  Game.key_state
    (Game.updateUsedKeys [(Ascii.ascii_of_nat 69, Game.correct)]
       (list_ascii_of_string "SPEED")
       (Game.checkGuess (list_ascii_of_string "SPEED")
          (list_ascii_of_string "ABIDE")))
    (Ascii.ascii_of_nat 81)
  = None.
Proof.
  refine (proj1 (proj2 (updateUsedKeys_never_lowers
            [(Ascii.ascii_of_nat 69, Game.correct)] (list_ascii_of_string "SPEED")
            (Game.checkGuess (list_ascii_of_string "SPEED")
               (list_ascii_of_string "ABIDE")) (Ascii.ascii_of_nat 81))) _).
  cbn. intuition discriminate.
Defined.

(** ** Played today *)


(** The groups [fetchGroups] returns have distinct ids, by the primary key
    of [groups] and UNIQUE(user_id, group_id) of [group_members]. *)
Lemma fetchGroups_distinct_ids : forall db uid,
  NoDup (map g_id (groups db)) ->
  NoDup (map (fun m => (gm_group_id m, gm_user_id m)) (group_members db)) ->
  NoDup (map Client.gw_id (Client.fetchGroups db uid)).
Proof.
  intros db uid Hg Hm. unfold Client.fetchGroups.
  assert (Hms : NoDup (map gm_group_id
                         (filter (fun m => N.eqb (gm_user_id m) uid)
                                 (group_members db)))).
  { induction (group_members db) as [|m l IH]; [constructor|].
    cbn [map] in Hm. inversion Hm as [|? ? Ha Hl]; subst. cbn [filter].
    destruct (N.eqb (gm_user_id m) uid) eqn:E; [|now apply IH].
    cbn [map]. constructor; [|now apply IH].
    intro Hin. apply in_map_iff in Hin. destruct Hin as [m' [Eg Hm']].
    apply filter_In in Hm'. destruct Hm' as [Hm' Eu].
    apply N.eqb_eq in E, Eu. apply Ha. apply in_map_iff. exists m'.
    split; [|exact Hm']. congruence. }
  induction (filter (fun m => N.eqb (gm_user_id m) uid) (group_members db))
    as [|m l IH]; [constructor|].
  cbn [map] in Hms. inversion Hms as [|? ? Ha Hl]; subst.
  cbn [flat_map]. rewrite map_app, map_map. cbn [Client.gw_id].
  apply NoDup_app.
  - now apply NoDup_map_filter.
  - now apply IH.
  - intros x Hx Hx'. apply in_map_iff in Hx. destruct Hx as [grp [<- Hgrp]].
    apply filter_In in Hgrp. destruct Hgrp as [_ E]. apply N.eqb_eq in E.
    apply in_map_iff in Hx'. destruct Hx' as [w [Ew Hw]].
    apply in_flat_map in Hw. destruct Hw as [m' [Hm' Hw]].
    apply in_map_iff in Hw. destruct Hw as [grp' [<- Hgrp']].
    apply filter_In in Hgrp'. destruct Hgrp' as [_ E'].
    apply N.eqb_eq in E'. cbn in Ew. apply Ha. apply in_map_iff.
    exists m'. split; [congruence | exact Hm'].
Qed.




(** X8.  For a non-empty list of groups, signed in or not, [submitResult]
    appends exactly [submitted] rows to the results; it reports success
    exactly when it recorded no error; and the rows it stored and the
    errors it recorded are together no more than the groups.  Signed out
    it stores nothing and reports one error. *)
Theorem submitResult_counts :
  forall (c : Client.Clock) (user : option uuid)
         (groups : list Client.GroupWithMembership)
         (params : Client.SubmitResultParams) (db : Database),
  groups <> [] ->
  let out := Client.submitResult c user groups params db in
  List.length (daily_results (fst out))
  = (List.length (daily_results db) + Client.submitted (snd out))%nat
  /\ (Client.success (snd out) = true <-> Client.errors (snd out) = [])
  /\ (Client.submitted (snd out) + List.length (Client.errors (snd out))
      <= List.length groups)%nat
  /\ (user = None ->
      out = (db, Client.mkOutcome false 0 [Client.NotAuthenticated])).
Proof.
  intros c user groups params db Hne out.
  destruct user as [uid|].
  2:{ subst out. cbn. destruct groups as [|g t]; [congruence|].
      cbn. repeat split; try discriminate; lia. }
  assert (H : forall gs st,
    let st' := fold_left (Client.submit_to_group c uid params) gs st in
    (List.length (daily_results (fst (fst st'))) + snd (fst st)
     = List.length (daily_results (fst (fst st))) + snd (fst st'))%nat
    /\ (snd (fst st') + List.length (snd st')
        <= snd (fst st) + List.length (snd st) + List.length gs)%nat).
  { induction gs as [|g t IH]; intro st; cbn [fold_left].
    - cbn. lia.
    - destruct (IH (Client.submit_to_group c uid params st g)) as [H1 H2].
      cbv zeta in *.
      set (st1 := Client.submit_to_group c uid params st g) in *.
      assert (Hs : (List.length (daily_results (fst (fst st1)))
                    + snd (fst st)
                    = List.length (daily_results (fst (fst st)))
                      + snd (fst st1))%nat
                   /\ (snd (fst st1) + List.length (snd st1)
                       <= snd (fst st) + List.length (snd st) + 1)%nat).
      { subst st1. destruct st as [[d n] errs].
        unfold Client.submit_to_group.
        destruct (Client.maybeSingle _); cbn; [lia|].
        destruct (insert_daily_result d (Client.group_row c uid g params))
          as [e|d'] eqn:E; cbn.
        - rewrite length_app. cbn. lia.
        - apply insert_daily_result_ok in E.
          destruct E as [_ [_ [_ ->]]]. cbn. rewrite length_app. cbn. lia. }
      cbn [List.length]. lia. }
  specialize (H groups (db, 0%nat, [])). cbv zeta in H.
  subst out. unfold Client.submitResult.
  destruct groups as [|g t]; [congruence|].
  destruct (fold_left (Client.submit_to_group c uid params) (g :: t)
              (db, 0%nat, [])) as [[d n] errs].
  cbn in H |- *. split; [lia|]. split; [|split; [lia | discriminate]].
  destruct errs; split; auto; discriminate.
Qed.

Lemma submitResult_counts_witness :
  List.length (daily_results Example.first_play) = 1%nat.
Proof.
  refine (eq_trans (proj1 (submitResult_counts Example.noon (Some 2%N)
            (Client.fetchGroups Example.roster 2) (Client.mkParams 3 true)
            Example.roster _)) _).
  - discriminate.
  - reflexivity.
Defined.

(** ** Groups *)

Lemma maybeSingle_In {R} (l : list R) (x : R) :
  Client.maybeSingle l = Some x -> l = [x].
Proof. destruct l as [|a [|b t]]; cbn; congruence. Qed.

Lemma insert_group_member_ok : forall db m db',
  insert_group_member db m = inr db' ->
  existsb (fun m' => N.eqb (gm_user_id m') (gm_user_id m)
                     && N.eqb (gm_group_id m') (gm_group_id m))
          (group_members db) = false
  /\ db' = set_group_members db (group_members db ++ [m]).
Proof.
  intros db m db' H. unfold insert_group_member in H.
  destruct (existsb _ (group_members db)); [discriminate|].
  destruct (negb _); [discriminate|]. inversion H. auto.
Qed.

(** X9.  [joinGroup] either reports failure and changes nothing (not
    signed in, no single group with the code, already a member, or the
    insert refused), or reports success having appended exactly one
    membership: the caller's, not admin, joined at the call's instant, in
    the group that carries the code and that the caller was not yet a
    member of. *)
Theorem joinGroup_outcomes :
  forall (c : Client.Clock) (user : option uuid) (code : string)
         (db : Database),
  let out := Client.joinGroup c user code db in
  (snd out = false -> fst out = db)
  /\ (snd out = true ->
      exists uid grp,
        user = Some uid
        /\ In grp (groups db) /\ g_invite_code grp = code
        /\ ~ is_member db (g_id grp) uid
        /\ fst out
           = set_group_members db
               (group_members db
                ++ [mkGroupMember uid (g_id grp) (Client.now c) false])).
Proof.
  intros c user code db. unfold Client.joinGroup.
  destruct user as [uid|]; [|cbn; split; [auto|discriminate]].
  destruct (Client.maybeSingle
              (filter (fun g => String.eqb (g_invite_code g) code)
                      (groups db))) as [grp|] eqn:Eg;
    [|cbn; split; [auto|discriminate]].
  destruct (Client.maybeSingle
              (filter (fun m => N.eqb (gm_user_id m) uid
                                && N.eqb (gm_group_id m) (g_id grp))
                      (group_members db))) as [m|] eqn:Em;
    [cbn; split; [auto|discriminate]|].
  destruct (insert_group_member db
              (mkGroupMember uid (g_id grp) (Client.now c) false))
    as [e|db'] eqn:Ei; cbn; [split; [auto|discriminate]|].
  split; [discriminate|]. intros _.
  apply insert_group_member_ok in Ei. destruct Ei as [Hex ->].
  apply maybeSingle_In in Eg.
  assert (Hin : In grp (filter (fun g => String.eqb (g_invite_code g) code)
                          (groups db))) by (rewrite Eg; left; auto).
  apply filter_In in Hin. destruct Hin as [Hin Hcode].
  apply String.eqb_eq in Hcode.
  exists uid, grp. repeat split; auto.
  intros [m [Hm [Hg Hu]]]. cbn in Hex.
  pose proof (not_In_of_existsb_false _ _ m Hex Hm) as H. cbn in H.
  now rewrite Hg, Hu, !N.eqb_refl in H.
Qed.

Lemma In_fetchGroups : forall db uid g,
  In g (Client.fetchGroups db uid) <->
  exists m grp,
    In m (group_members db) /\ gm_user_id m = uid
    /\ In grp (groups db) /\ g_id grp = gm_group_id m
    /\ g = Client.mkGroupWithMembership (g_id grp) (g_name grp)
             (g_invite_code grp) (gm_is_admin m) (gm_joined_at m).
Proof.
  intros db uid g. unfold Client.fetchGroups. rewrite in_flat_map. split.
  - intros [m [Hm Hg]]. apply filter_In in Hm. destruct Hm as [Hm Hu].
    apply in_map_iff in Hg. destruct Hg as [grp [<- Hgrp]].
    apply filter_In in Hgrp. destruct Hgrp as [Hgrp E].
    apply N.eqb_eq in Hu, E. exists m, grp. auto.
  - intros [m [grp [Hm [Hu [Hgrp [E ->]]]]]]. exists m. split.
    + apply filter_In. split; auto. now apply N.eqb_eq.
    + apply in_map_iff. exists grp. split; auto.
      apply filter_In. split; auto. now apply N.eqb_eq.
Qed.

(** X10.  After [leaveGroup] the caller's list of groups no longer has
    the group, and has every other group exactly as before; the
    memberships of the other users are untouched. *)
Theorem leaveGroup_forgets_group :
  forall (uid groupId : uuid) (db : Database),
  let db' := fst (Client.leaveGroup (Some uid) groupId db) in
  (forall g, In g (Client.fetchGroups db' uid) <->
             In g (Client.fetchGroups db uid) /\ Client.gw_id g <> groupId)
  /\ (forall other, other <> uid ->
                    Client.fetchGroups db' other
                    = Client.fetchGroups db other)
  /\ ~ is_member db' groupId uid.
Proof.
  intros uid groupId db db'. subst db'. cbn [Client.leaveGroup fst].
  split; [|split].
  - intro g. rewrite !In_fetchGroups. split.
    + intros [m [grp [Hm [Hu [Hgrp [E ->]]]]]]. cbn in Hm.
      apply filter_In in Hm. destruct Hm as [Hm Hc]. split.
      * exists m, grp. auto.
      * cbn. intro Eg. rewrite E in Eg.
        now rewrite Hu, Eg, !N.eqb_refl in Hc.
    + intros [[m [grp [Hm [Hu [Hgrp [E ->]]]]]] Hne]. cbn in Hne.
      exists m, grp. repeat split; auto. cbn. apply filter_In.
      split; auto. apply negb_true_iff. apply andb_false_iff. right.
      apply N.eqb_neq. congruence.
  - intros other Hne. unfold Client.fetchGroups, delete_group_member,
      Sql.delete_where. cbn [group_members set_group_members groups].
    f_equal. rewrite <- filter_andb. apply filter_ext. intro m.
    destruct (N.eqb_spec (gm_user_id m) other) as [->|];
      [|now rewrite andb_false_r].
    rewrite (proj2 (N.eqb_neq other uid) Hne). reflexivity.
  - intro H. apply is_member_after_delete in H. destruct H as [_ H].
    apply H. auto.
Qed.

Lemma joinGroup_outcomes_witness :
  exists uid grp,
    Some 4%N = Some uid
    /\ In grp (groups Example.db) /\ g_invite_code grp = "abc123"%string
    /\ ~ is_member Example.db (g_id grp) uid
    /\ fst (Client.joinGroup Example.noon (Some 4%N) "abc123" Example.db)
       = set_group_members Example.db
           (group_members Example.db
            ++ [mkGroupMember uid (g_id grp) (Client.now Example.noon) false]).
Proof.
  exact (proj2 (joinGroup_outcomes Example.noon (Some 4%N) "abc123"
                  Example.db) eq_refl).
Defined.

Lemma leaveGroup_forgets_group_witness :
  Client.fetchGroups (fst (Client.leaveGroup (Some 2%N) 7 Example.db)) 1
  = Client.fetchGroups Example.db 1.
Proof.
  refine (proj1 (proj2 (leaveGroup_forgets_group 2 7 Example.db)) 1%N _).
  discriminate.
Defined.

(** X11.  When [createGroup] succeeds the new group is stored and its
    creator is made a member with the admin flag by the group trigger, so
    the creator's list of groups shows it as admin; the memberships and
    groups there were stay as they are.  When it fails (not signed in, id
    or invite code taken, no profile) nothing changes. *)
Theorem createGroup_makes_admin :
  forall (c : Client.Clock) (user : option uuid) (name : string)
         (id : uuid) (code : string) (db : Database),
  let out := Hooks.createGroup c user name id code db in
  (snd out = None -> fst out = db)
  /\ (forall g, snd out = Some g ->
      exists uid,
        user = Some uid /\ g = mkGroup id name code uid
        /\ groups (fst out) = groups db ++ [g]
        /\ group_members (fst out)
           = group_members db ++ [mkGroupMember uid id (Client.now c) true]
        /\ (forall x, In x (groups db) ->
                      g_id x <> id /\ g_invite_code x <> code)
        /\ In (Client.mkGroupWithMembership id name code true (Client.now c))
              (Client.fetchGroups (fst out) uid)).
Proof.
  intros c user name id code db. unfold Hooks.createGroup.
  destruct user as [uid|]; [|cbn; split; [auto|discriminate]].
  destruct (Hooks.insert_group (Client.now c) db (mkGroup id name code uid))
    as [e|db'] eqn:E; cbn [fst snd]; [split; [auto|discriminate]|].
  split; [discriminate|]. intros g Hg. inversion Hg; subst g; clear Hg.
  unfold Hooks.insert_group in E. cbn [g_id g_invite_code g_creator_id] in E.
  destruct (existsb _ (groups db)) eqn:Eu; [discriminate|].
  destruct (negb (has_profile db uid)); [discriminate|].
  apply insert_group_member_ok in E. destruct E as [_ ->].
  exists uid.
  split; [reflexivity|]. split; [reflexivity|].
  split; [reflexivity|]. split; [reflexivity|]. split.
  - intros x Hx. pose proof (not_In_of_existsb_false _ _ x Eu Hx) as Hn.
    apply orb_false_iff in Hn. destruct Hn as [Hi Hc].
    split; [now apply N.eqb_neq | now apply String.eqb_neq].
  - apply (proj2 (In_fetchGroups _ _ _)).
    exists (mkGroupMember uid id (Client.now c) true),
           (mkGroup id name code uid).
    cbn. repeat split; auto; apply in_app_iff; right; left; reflexivity.
Qed.

Lemma createGroup_makes_admin_witness :
  exists uid,
    Some 4%N = Some uid
    /\ mkGroup 9 "rivals" "ffee00" 4 = mkGroup 9 "rivals" "ffee00" uid
    /\ In (Client.mkGroupWithMembership 9 "rivals" "ffee00" true
             (Client.now Example.noon))
          (Client.fetchGroups
             (fst (Hooks.createGroup Example.noon (Some 4%N) "rivals" 9
                     "ffee00" Example.db)) uid).
Proof.
  destruct (proj2 (createGroup_makes_admin Example.noon (Some 4%N) "rivals"
                     9 "ffee00" Example.db) _ eq_refl)
    as [uid [H1 [H2 [_ [_ [_ H6]]]]]].
  exists uid. auto.
Defined.

(** ** Score adjustments *)

Lemma adjustment_sum_snoc : forall adj x g u,
  adjustment_sum (adj ++ [x]) g u
  = adjustment_sum adj g u
    + (if N.eqb (sa_group_id x) g && N.eqb (sa_user_id x) u
       then sa_adjustment x else 0).
Proof.
  intros adj x g u. unfold adjustment_sum.
  rewrite filter_app, map_app, fold_left_app. cbn [filter].
  destruct (N.eqb (sa_group_id x) g && N.eqb (sa_user_id x) u); cbn; lia.
Qed.

Lemma bump_entry_of : forall day db rs x g u name,
  entry_of day (set_score_adjustments db (score_adjustments db ++ [x]))
    rs g u name
  = Hooks.bump (sa_group_id x) (sa_user_id x) (sa_adjustment x)
      (entry_of day db rs g u name).
Proof.
  intros day db rs x g u name. unfold entry_of, Hooks.bump.
  cbn [score_adjustments set_score_adjustments le_group_id le_user_id
       le_username le_total_score le_games_won].
  rewrite adjustment_sum_snoc, (N.eqb_sym g), (N.eqb_sym u).
  destruct (N.eqb (sa_group_id x) g && N.eqb (sa_user_id x) u);
    f_equal; lia.
Qed.

Lemma map_over_flat_map {A B C} (h : B -> C) (f : A -> list B) (l : list A) :
  map h (flat_map f l) = flat_map (fun a => map h (f a)) l.
Proof.
  induction l as [|a l IH]; cbn; [reflexivity|].
  now rewrite map_app, IH.
Qed.

Lemma bump_zero : forall g u e, Hooks.bump g u 0 e = e.
Proof.
  intros g u [a b n t w]. unfold Hooks.bump. cbn.
  destruct (N.eqb a g && N.eqb b u); [|reflexivity].
  now rewrite Z.add_0_r.
Qed.

(** The app's INSERT into [score_adjustments]: accepted exactly when the
    value fits a 32-bit integer, the caller is an admin of the group, and
    the player, the group and the caller exist. *)
Lemma run_as_adjustment : forall uid db a,
  let accepted :=
    is_int4 (sa_adjustment a) && is_group_admin db uid (sa_group_id a)
    && (has_profile db (sa_user_id a) && has_group db (sa_group_id a)
        && has_profile db (sa_adjusted_by a)) in
  (accepted = true ->
   run_as uid db (InsertAdjustment a)
   = inr (set_score_adjustments db (score_adjustments db ++ [a])))
  /\ (accepted = false -> exists e, run_as uid db (InsertAdjustment a) = inl e).
Proof.
  intros uid db a. cbv zeta. cbn [run_as]. unfold insert_score_adjustment.
  destruct (is_int4 (sa_adjustment a)); cbn [negb andb];
    [|split; [discriminate | eauto]].
  destruct (is_group_admin db uid (sa_group_id a)); cbn [andb];
    [|split; [discriminate | eauto]].
  destruct (has_profile db (sa_user_id a) && has_group db (sa_group_id a)
            && has_profile db (sa_adjusted_by a)); cbn [negb];
    split; try discriminate; eauto.
Qed.

Lemma bump_leaderboard : forall db x,
  leaderboard_scores
    (set_score_adjustments db (score_adjustments db ++ [x]))
  = map (Hooks.bump (sa_group_id x) (sa_user_id x) (sa_adjustment x))
        (leaderboard_scores db).
Proof.
  intros db x. unfold leaderboard_scores.
  rewrite !leaderboard_rows_spec. rewrite map_over_flat_map.
  cbn [group_members profiles daily_results set_score_adjustments].
  apply flat_map_ext. intro am. rewrite map_map.
  apply map_ext. intro p. apply (bump_entry_of local_day db).
Qed.

(** X12.  An adjustment by an admin of the group, of a value that fits a
    32-bit integer, for a player, a group and a caller that exist, is
    stored and refreshes the snapshot; when the snapshot was up to date,
    the new one differs from it in one place: the total of that player in
    that group moves by the adjustment, its games won and every other
    entry stay as they were.  A signed-out caller, an adjustment of 0 or
    out of range, a caller who is not an admin of the group, or an unknown
    player or group leave tables and snapshot as they were.  Results and
    memberships are never touched. *)
Theorem adjustment_moves_one_total :
  forall (c : Client.Clock) (user : option uuid) (g target : uuid) (a : Z)
         (s : Refresh.System),
  let s' := Refresh.handleAdjustScore c user g target a s in
  (forall admin,
     user = Some admin ->
     Refresh.consistent s ->
     is_group_admin (Refresh.sys_db s) admin g = true ->
     has_profile (Refresh.sys_db s) target = true ->
     has_group (Refresh.sys_db s) g = true ->
     has_profile (Refresh.sys_db s) admin = true ->
     is_int4 a = true ->
     Refresh.sys_snapshot s'
     = map (Hooks.bump g target a) (Refresh.sys_snapshot s)
     /\ Refresh.consistent s')
  /\ (user = None \/ a = 0 \/ is_int4 a = false
      \/ (exists uid, user = Some uid
                      /\ is_group_admin (Refresh.sys_db s) uid g = false)
      \/ has_profile (Refresh.sys_db s) target = false
      \/ has_group (Refresh.sys_db s) g = false ->
      s' = s)
  /\ Refresh.sys_db s'
     = Client.handleAdjustScore c user g target a (Refresh.sys_db s)
  /\ daily_results (Refresh.sys_db s') = daily_results (Refresh.sys_db s)
  /\ group_members (Refresh.sys_db s') = group_members (Refresh.sys_db s).
Proof.
  intros c user g target a s s'. subst s'.
  unfold Refresh.handleAdjustScore, Client.handleAdjustScore,
    Client.handleAdjustScore_script.
  destruct user as [uid|].
  2:{ split; [intros admin E; discriminate|]. repeat split; auto. }
  destruct (Z.eqb a 0) eqn:Ea.
  { apply Z.eqb_eq in Ea. subst a. cbn.
    split; [|split; [|split; [|split]]]; auto.
    intros admin _ Hc _ _ _ _ _. split; [|exact Hc].
    rewrite (map_ext _ (fun e => e)).
    - now rewrite map_id.
    - intro e. apply bump_zero. }
  apply Z.eqb_neq in Ea.
  set (row := mkScoreAdjustment target g a _ uid (Client.now c)).
  cbn [Refresh.exec_script_as run_script_as fold_left].
  unfold Refresh.exec_as.
  destruct (run_as_adjustment uid (Refresh.sys_db s) row) as [Hyes Hno].
  cbn [row sa_adjustment sa_group_id sa_user_id sa_adjusted_by] in Hyes, Hno.
  destruct (is_int4 a && is_group_admin (Refresh.sys_db s) uid g
            && (has_profile (Refresh.sys_db s) target
                && has_group (Refresh.sys_db s) g
                && has_profile (Refresh.sys_db s) uid)) eqn:Eok.
  - rewrite (Hyes eq_refl). cbn [Refresh.fires_refresh].
    apply andb_true_iff in Eok. destruct Eok as [Eok1 Eok2].
    apply andb_true_iff in Eok1. destruct Eok1 as [Eint Eadm].
    apply andb_true_iff in Eok2. destruct Eok2 as [Eok2 _].
    apply andb_true_iff in Eok2. destruct Eok2 as [Etgt Egrp].
    split; [|split; [|split; [|split]]]; try reflexivity.
    + intros admin _ Hc _ _ _ _ _. split; [|reflexivity].
      cbn [Refresh.sys_snapshot Refresh.refresh_leaderboard Refresh.sys_db].
      rewrite Hc. apply (bump_leaderboard (Refresh.sys_db s) row).
    + intros [H | [H | [H | [[u [Hu H]] | [H | H]]]]];
        try discriminate; try contradiction; congruence.
  - destruct (Hno eq_refl) as [e ->].
    split; [|split; [|split; [|split]]]; try reflexivity.
    intros admin E Hc H1 H2 H3 H4 H5. inversion E; subst admin.
    rewrite H1, H2, H3, H4, H5 in Eok. discriminate.
Qed.

Lemma adjustment_moves_one_total_witness :
  Refresh.sys_snapshot
    (Refresh.handleAdjustScore Example.noon (Some 1%N) 7 2 3
       (Refresh.mkSystem Example.db (leaderboard_scores Example.db) 0))
  = map (Hooks.bump 7 2 3) (leaderboard_scores Example.db).
Proof.
  exact (proj1 (proj1 (adjustment_moves_one_total Example.noon (Some 1%N)
                         7 2 3
                         (Refresh.mkSystem Example.db
                            (leaderboard_scores Example.db) 0))
                  1%N eq_refl eq_refl eq_refl eq_refl eq_refl eq_refl
                  eq_refl)).
Defined.

(** ** The leaderboard panel *)






(** ** The first leaderboard view *)

Lemma In_first_order_desc : forall l x,
  In x (FirstView.order_desc l) <-> In x l.
Proof.
  assert (Hi : forall l e x,
             In x (FirstView.insert_desc e l) <-> x = e \/ In x l).
  { induction l as [|a l IH]; intros e x; cbn [FirstView.insert_desc].
    - cbn. split; intros [H | H]; auto.
    - destruct (FirstView.sorts_after _ _); cbn [In].
      + split; intros [H | H]; auto.
      + rewrite IH. cbn [In]. split; intros [H | [H | H]]; auto. }
  induction l as [|a l IH]; intro x; cbn; [tauto|].
  rewrite Hi, IH. split; intros [H | H]; auto.
Qed.

Lemma first_key_eqb_eq : forall x y, FirstView.key_eqb x y = true <-> x = y.
Proof.
  intros [a n] [b m]. unfold FirstView.key_eqb. cbn [fst snd].
  rewrite andb_true_iff, group_user_eqb_eq, String.eqb_eq.
  split; [intros [-> ->]; auto | intro E; inversion E; auto].
Qed.

Lemma profile_lookup : forall db p,
  NoDup (map p_id (profiles db)) -> In p (profiles db) ->
  filter (fun q => N.eqb (p_id q) (p_id p)) (profiles db) = [p].
Proof.
  intros db p. induction (profiles db) as [|a l IH]; [intros _ []|].
  cbn [map filter]. intros Hnd Hin. inversion Hnd as [|? ? Ha Hl]; subst.
  destruct Hin as [-> | Hin].
  - rewrite N.eqb_refl. f_equal. apply filter_none. intros q Hq.
    apply N.eqb_neq. intro E. apply Ha. rewrite <- E. now apply in_map.
  - destruct (N.eqb (p_id a) (p_id p)) eqn:E; [|now apply IH].
    apply N.eqb_eq in E. exfalso. apply Ha. rewrite E. now apply in_map.
Qed.

Lemma In_earners_with_profile : forall db pe p,
  In (pe, p) (FirstView.earners_with_profile db) <->
  In pe (View.point_earner_rows FirstView.day_index_day (daily_results db))
  /\ In p (profiles db) /\ p_id p = dr_user_id pe.
Proof.
  intros db pe p. unfold FirstView.earners_with_profile, Sql.join_matches.
  rewrite in_flat_map. split.
  - intros [r [Hr H]]. apply in_map_iff in H. destruct H as [q [E Hq]].
    inversion E; subst r q. apply filter_In in Hq.
    destruct Hq as [Hq E']. apply N.eqb_eq in E'. auto.
  - intros [Hr [Hp E]]. exists pe. split; auto. apply in_map_iff.
    exists p. split; auto. apply filter_In. split; auto. now apply N.eqb_eq.
Qed.

(** The rows of one group of the first view: the winner rows of the user
    in the group, each with the user's profile. *)
Lemma first_view_group : forall db g p,
  NoDup (map p_id (profiles db)) -> In p (profiles db) ->
  filter (fun x => FirstView.key_eqb
                     (dr_group_id (fst x), dr_user_id (fst x),
                      p_username (snd x))
                     (Some g, p_id p, p_username p))
         (FirstView.earners_with_profile db)
  = map (fun pe => (pe, p))
        (filter (fun r => Sql.eq_is_true N.eqb (dr_group_id r) (Some g)
                          && N.eqb (dr_user_id r) (p_id p))
           (View.point_earner_rows FirstView.day_index_day
              (daily_results db))).
Proof.
  intros db g p Hnd Hp. unfold FirstView.earners_with_profile.
  induction (View.point_earner_rows FirstView.day_index_day
               (daily_results db)) as [|pe l IH]; [reflexivity|].
  cbn [flat_map filter]. rewrite filter_app, IH. clear IH.
  unfold Sql.join_matches.
  destruct (N.eqb (dr_user_id pe) (p_id p)) eqn:E.
  - apply N.eqb_eq in E. rewrite E, (profile_lookup db p Hnd Hp).
    cbn [map filter fst snd]. unfold FirstView.key_eqb, group_user_eqb.
    cbn [fst snd]. rewrite E, N.eqb_refl, String.eqb_refl, !andb_true_r.
    destruct (dr_group_id pe) as [g'|]; cbn;
      [destruct (N.eqb g' g)|]; reflexivity.
  - rewrite andb_false_r. rewrite filter_none; [reflexivity|].
    intros [r q] H. apply in_map_iff in H. destruct H as [q' [E' _]].
    inversion E'; subst r q'. unfold FirstView.key_eqb, group_user_eqb.
    cbn [fst snd]. now rewrite E, andb_false_r.
Qed.

Lemma point_earner_has_group : forall day rs r,
  In r (View.point_earner_rows day rs) -> exists g, dr_group_id r = Some g.
Proof.
  intros day rs r H. rewrite point_earner_rows_filter in H.
  apply filter_In in H. destruct H as [_ H]. unfold is_winner in H.
  apply andb_true_iff in H. destruct H as [_ H].
  destruct (dr_group_id r) as [g|]; [eauto|discriminate].
Qed.

(** X14.  The first leaderboard view of the schema lists exactly the
    players with a profile and at least one winning result in a group,
    whether or not they are still members of it, with the number of wins
    (by [day_index]) as both score and days won; a member without a win and
    a personal play never appear. *)
Theorem first_view_lists_winners :
  forall (db : Database), NoDup (map p_id (profiles db)) ->
  forall e : FirstView.Entry,
    In e (FirstView.leaderboard_scores db) <->
    exists g p,
      In p (profiles db)
      /\ 0 < games_won_of FirstView.day_index_day (daily_results db) g
               (p_id p)
      /\ e = FirstView.mkEntry (Some g) (p_id p) (p_username p)
               (Some (games_won_of FirstView.day_index_day
                        (daily_results db) g (p_id p)))
               (games_won_of FirstView.day_index_day (daily_results db) g
                  (p_id p)).
Proof.
  intros db Hnd e. unfold FirstView.leaderboard_scores.
  rewrite In_first_order_desc, in_map_iff. unfold Sql.group_by.
  assert (Hagg : forall g p, In p (profiles db) ->
    let grp := filter (fun x => FirstView.key_eqb
                         (dr_group_id (fst x), dr_user_id (fst x),
                          p_username (snd x))
                         (Some g, p_id p, p_username p))
                      (FirstView.earners_with_profile db) in
    Z.of_nat (List.length grp)
    = games_won_of FirstView.day_index_day (daily_results db) g (p_id p)
    /\ (grp <> [] ->
        Sql.sum (map (fun _ => 1) grp)
        = Some (games_won_of FirstView.day_index_day (daily_results db) g
                  (p_id p)))).
  { intros g p Hp grp. subst grp. rewrite (first_view_group db g p Hnd Hp).
    unfold games_won_of. rewrite length_map. split; [reflexivity|].
    intro Hne. rewrite <- sum_ones.
    destruct (filter _ _) as [|a l]; [now destruct Hne|].
    cbn [map Sql.sum]. rewrite !map_map. reflexivity. }
  split.
  - intros [[k v] [<- Hk]]. apply in_map_iff in Hk.
    destruct Hk as [k' [E Hk]]. inversion E; subst k' v. clear E.
    apply (proj1 (distinct_In FirstView.key_eqb first_key_eqb_eq _ _)) in Hk.
    apply in_map_iff in Hk. destruct Hk as [[pe p] [<- Hx]].
    pose proof Hx as Hx'. apply In_earners_with_profile in Hx'.
    destruct Hx' as [Hpe [Hp Hu]].
    destruct (point_earner_has_group _ _ _ Hpe) as [g Hg].
    cbn [fst snd]. rewrite Hg, <- Hu.
    destruct (Hagg g p Hp) as [Hlen Hsum].
    assert (Hne : filter (fun x => FirstView.key_eqb
                            (dr_group_id (fst x), dr_user_id (fst x),
                             p_username (snd x))
                            (Some g, p_id p, p_username p))
                         (FirstView.earners_with_profile db) <> []).
    { intro Hnil.
      assert (Hin : In (pe, p) (filter (fun x => FirstView.key_eqb
                            (dr_group_id (fst x), dr_user_id (fst x),
                             p_username (snd x))
                            (Some g, p_id p, p_username p))
                         (FirstView.earners_with_profile db))).
      { apply filter_In. split; [exact Hx|]. cbn [fst snd].
        apply first_key_eqb_eq. now rewrite Hg, Hu. }
      rewrite Hnil in Hin. exact Hin. }
    exists g, p. split; [exact Hp|]. split.
    + rewrite <- Hlen.
      destruct (filter _ (FirstView.earners_with_profile db));
        [now destruct Hne | cbn; lia].
    + rewrite (Hsum Hne), Hlen. reflexivity.
  - intros [g [p [Hp [Hpos ->]]]].
    destruct (Hagg g p Hp) as [Hlen Hsum].
    assert (Hne : filter (fun x => FirstView.key_eqb
                            (dr_group_id (fst x), dr_user_id (fst x),
                             p_username (snd x))
                            (Some g, p_id p, p_username p))
                         (FirstView.earners_with_profile db) <> []).
    { intro Hnil. rewrite Hnil in Hlen. cbn in Hlen. lia. }
    exists ((Some g, p_id p, p_username p),
            (Some (games_won_of FirstView.day_index_day (daily_results db)
                     g (p_id p)),
             games_won_of FirstView.day_index_day (daily_results db) g
               (p_id p))).
    split; [reflexivity|]. apply in_map_iff.
    exists (Some g, p_id p, p_username p). split.
    + rewrite (Hsum Hne), Hlen. reflexivity.
    + apply (proj2 (distinct_In FirstView.key_eqb first_key_eqb_eq _ _)).
      destruct (filter _ (FirstView.earners_with_profile db))
        as [|[pe q] l] eqn:E; [now destruct Hne|].
      assert (Hin : In (pe, q) ((pe, q) :: l)) by now left.
      rewrite <- E in Hin. apply filter_In in Hin. destruct Hin as [Hin Hk].
      apply first_key_eqb_eq in Hk. apply in_map_iff.
      exists (pe, q). auto.
Qed.

Lemma first_view_lists_winners_witness :
  exists g p,
    In p (profiles Example.db)
    /\ 0 < games_won_of FirstView.day_index_day (daily_results Example.db) g
             (p_id p)
    /\ FirstView.mkEntry (Some 7%N) 1 "ann" (Some 2) 2
       = FirstView.mkEntry (Some g) (p_id p) (p_username p)
           (Some (games_won_of FirstView.day_index_day
                    (daily_results Example.db) g (p_id p)))
           (games_won_of FirstView.day_index_day (daily_results Example.db)
              g (p_id p)).
Proof.
  apply (proj1 (first_view_lists_winners Example.db
                  (profiles_pk Example.db schema_ok_example)
                  (FirstView.mkEntry (Some 7%N) 1 "ann" (Some 2) 2))).
  vm_compute. auto.
Defined.

(** ** Saved games in the browser *)

Lemma load_other_day : forall today p,
  LocalStore.gp_date p <> today ->
  LocalStore.loadGameProgress today (Some p) = (None, None).
Proof.
  intros today p H. unfold LocalStore.loadGameProgress.
  apply String.eqb_neq in H. now rewrite H.
Qed.

Lemma load_same_day : forall p,
  LocalStore.loadGameProgress (LocalStore.gp_date p) (Some p)
  = (Some p, Some p).
Proof.
  intro p. unfold LocalStore.loadGameProgress. now rewrite String.eqb_refl.
Qed.

(** X15.  Progress saved in the browser is read back unchanged for the
    rest of the local day.  Read on any other day it is not returned and
    the stored item is removed, so it is gone for the day it was saved on
    as well. *)
Theorem saved_progress_lasts_the_day :
  forall (today other : string) (progress : LocalStore.ProgressData)
         (st : LocalStore.Storage),
  LocalStore.pd_date progress = None ->
  let saved := LocalStore.saveGameProgress today progress st in
  let p := LocalStore.mkGameProgress today
             (LocalStore.pd_guesses progress)
             (LocalStore.pd_guessStates progress)
             (LocalStore.pd_turn progress)
             (LocalStore.pd_isGameOver progress)
             (LocalStore.pd_isGameWon progress)
             (LocalStore.pd_usedKeys progress) in
  LocalStore.loadGameProgress today saved = (saved, Some p)
  /\ LocalStore.hasCompletedGameToday today saved
     = (saved, LocalStore.pd_isGameOver progress)
  /\ (other <> today ->
      LocalStore.loadGameProgress other saved = (None, None)
      /\ LocalStore.loadGameProgress today
           (fst (LocalStore.loadGameProgress other saved)) = (None, None)).
Proof.
  intros today other progress st Hd saved p. subst saved.
  unfold LocalStore.saveGameProgress. rewrite Hd. fold p.
  assert (E : LocalStore.loadGameProgress today (Some p) = (Some p, Some p))
    by apply (load_same_day p).
  split; [exact E|]. split.
  - unfold LocalStore.hasCompletedGameToday. now rewrite E.
  - intro Hne. rewrite (load_other_day other p); [split; reflexivity|].
    cbn. congruence.
Qed.

Lemma saved_progress_lasts_the_day_witness :
  LocalStore.loadGameProgress "2025-01-02"
    (LocalStore.saveGameProgress "2025-01-01"
       (LocalStore.mkProgressData None ["crane"%string] [] 1 false false [])
       None)
  = (None, None).
Proof.
  refine (proj1 (proj2 (proj2
            (saved_progress_lasts_the_day "2025-01-01" "2025-01-02"
               (LocalStore.mkProgressData None ["crane"%string] [] 1 false
                  false [])
               None eq_refl)) _)).
  discriminate.
Defined.

(** X16.  A guest's end-of-game status is kept only on top of progress
    already saved today: that progress is then marked over, won or not as
    reported (not won when unreported), and the guest counts as having
    played today.  With nothing saved, or progress of another day, the
    status is dropped, the store ends empty and the guest counts as not
    having played. *)
Theorem guest_status_needs_progress :
  forall (today : string) (solved : option bool) (st : LocalStore.Storage),
  let st' := LocalStore.saveGuestPlayStatus today solved st in
  (forall e, st = Some e -> LocalStore.gp_date e = today ->
     st' = Some (LocalStore.mkGameProgress today
                   (LocalStore.gp_guesses e) (LocalStore.gp_guessStates e)
                   (LocalStore.gp_turn e) true
                   (match solved with Some b => b | None => false end)
                   (LocalStore.gp_usedKeys e))
     /\ snd (LocalStore.hasGuestPlayedToday today st') = true)
  /\ (st = None \/ (exists e, st = Some e /\ LocalStore.gp_date e <> today) ->
      st' = None
      /\ snd (LocalStore.hasGuestPlayedToday today st') = false).
Proof.
  intros today solved st st'. subst st'. split.
  - intros e -> Hd. unfold LocalStore.saveGuestPlayStatus.
    rewrite <- Hd, load_same_day.
    unfold LocalStore.saveGameProgress. cbn [LocalStore.pd_date
      LocalStore.pd_guesses LocalStore.pd_guessStates LocalStore.pd_turn
      LocalStore.pd_isGameOver LocalStore.pd_isGameWon
      LocalStore.pd_usedKeys].
    split; [reflexivity|].
    unfold LocalStore.hasGuestPlayedToday, LocalStore.hasCompletedGameToday,
      LocalStore.loadGameProgress.
    cbn [LocalStore.gp_date]. now rewrite String.eqb_refl.
  - intros [-> | [e [-> Hd]]]; unfold LocalStore.saveGuestPlayStatus.
    + cbn. auto.
    + rewrite (load_other_day today e Hd). cbn. auto.
Qed.

Lemma guest_status_needs_progress_witness :
  LocalStore.saveGuestPlayStatus "2025-01-02" (Some true)
    (Some (LocalStore.mkGameProgress "2025-01-01" [] [] 0 false false []))
  = None.
Proof.
  refine (proj1 (proj2 (guest_status_needs_progress "2025-01-02" (Some true)
            (Some (LocalStore.mkGameProgress "2025-01-01" [] [] 0 false
                     false []))) _)).
  right. eexists. split; [reflexivity|]. discriminate.
Defined.

(** ** Saved games in the database *)






Lemma In_cleanup : forall now t r,
  In r (fst (ProgressDb.cleanup_old_game_progress now t)) <->
  In r t /\ now / Client.ms_per_day - 2 <= ProgressDb.ugp_local_date r.
Proof.
  intros now t r. unfold ProgressDb.cleanup_old_game_progress,
    Sql.delete_where. cbn [fst].
  rewrite filter_In, negb_true_iff, Z.ltb_ge. tauto.
Qed.






(** ** Results of one group and the leaderboards of the others *)

Lemma is_winner_other_group : forall day rs r x,
  dr_group_id r <> dr_group_id x ->
  is_winner day (rs ++ [r]) x = is_winner day rs x.
Proof.
  intros day rs r x Hne. unfold is_winner.
  rewrite !filter_app.
  assert (E : filter (fun r' => group_day_eqb (View.day_key day r')
                                  (View.day_key day x))
                     (filter dr_solved [r]) = []).
  { apply filter_none. intros y Hy. apply filter_In in Hy.
    destruct Hy as [[<- | []] _].
    unfold group_day_eqb, View.day_key. cbn [fst snd].
    destruct (opt_uuid_eqb (dr_group_id r) (dr_group_id x)) eqn:Eg;
      [|reflexivity].
    apply opt_uuid_eqb_eq in Eg. contradiction. }
  now rewrite E, app_nil_r.
Qed.

Lemma games_won_other_group : forall day rs r g u,
  dr_group_id r <> Some g ->
  games_won_of day (rs ++ [r]) g u = games_won_of day rs g u.
Proof.
  intros day rs r g u Hne. unfold games_won_of.
  rewrite !point_earner_rows_filter, <- !filter_andb, filter_app.
  assert (Hr : filter (fun x => is_winner day (rs ++ [r]) x
                                && (Sql.eq_is_true N.eqb (dr_group_id x)
                                      (Some g)
                                    && N.eqb (dr_user_id x) u)) [r] = []).
  { apply filter_none. intros y [<- | []].
    destruct (dr_group_id r) as [g'|] eqn:Eg; cbn.
    - destruct (N.eqb g' g) eqn:E; [|now rewrite andb_false_r].
      apply N.eqb_eq in E. congruence.
    - now rewrite andb_false_r. }
  rewrite Hr, app_nil_r. do 2 f_equal. apply filter_ext. intro x.
  destruct (Sql.eq_is_true N.eqb (dr_group_id x) (Some g)) eqn:Eg;
    [|cbn [andb]; now rewrite !andb_false_r].
  rewrite is_winner_other_group; [reflexivity|].
  destruct (dr_group_id x) as [g'|]; [|discriminate]. cbn in Eg.
  apply N.eqb_eq in Eg. congruence.
Qed.

Lemma inserts_frame : forall (P : DailyResult -> Prop) db db' g,
  (forall r, P r -> dr_group_id r <> Some g) ->
  inserts P db db' ->
  profiles db' = profiles db /\ group_members db' = group_members db
  /\ score_adjustments db' = score_adjustments db
  /\ forall u, games_won_of local_day (daily_results db') g u
               = games_won_of local_day (daily_results db) g u.
Proof.
  intros P db db' g HP H. induction H as [db | db db1 db2 r _ IH Hins Hr].
  - auto.
  - destruct IH as [H1 [H2 [H3 H4]]].
    apply insert_daily_result_ok in Hins. destruct Hins as [_ [_ [_ ->]]].
    cbn [profiles group_members score_adjustments daily_results
         set_daily_results].
    repeat split; auto.
    intro u. rewrite games_won_other_group by (apply HP; exact Hr).
    apply H4.
Qed.

Lemma group_rows_frame : forall db db' g,
  profiles db' = profiles db -> group_members db' = group_members db ->
  score_adjustments db' = score_adjustments db ->
  (forall u, games_won_of local_day (daily_results db') g u
             = games_won_of local_day (daily_results db) g u) ->
  filter (fun e => N.eqb (le_group_id e) g) (leaderboard_scores db')
  = filter (fun e => N.eqb (le_group_id e) g) (leaderboard_scores db).
Proof.
  intros db db' g Hp Hm Ha Hw.
  unfold leaderboard_scores. rewrite !leaderboard_rows_spec, Hp, Hm.
  induction (View.all_members (group_members db)) as [|am l IH];
    [reflexivity|].
  cbn [flat_map]. rewrite !filter_app, IH. f_equal.
  rewrite !filter_map_comm. cbn [le_group_id entry_of].
  destruct (N.eqb (fst am) g) eqn:E.
  - apply N.eqb_eq in E. rewrite E. rewrite !filter_true.
    apply map_ext. intro p. unfold entry_of. now rewrite Ha, Hw.
  - now rewrite !filter_none by reflexivity.
Qed.

(** [submitResult] on the system stores what [submitResult] on the tables
    stores, reports the same, and keeps an up-to-date snapshot up to
    date: every insert that succeeds refreshes. *)
Lemma system_insert_result : forall s r,
  match Refresh.insert_result s r with
  | inl e => insert_daily_result (Refresh.sys_db s) r = inl e
  | inr s' =>
      insert_daily_result (Refresh.sys_db s) r = inr (Refresh.sys_db s')
      /\ Refresh.consistent s'
  end.
Proof.
  intros s r. unfold Refresh.insert_result.
  destruct (insert_daily_result (Refresh.sys_db s) r); [reflexivity|].
  split; reflexivity.
Qed.

Lemma system_submit_to_group : forall c uid params s n errs grp,
  let st' := Refresh.submit_to_group c uid params (s, n, errs) grp in
  (Refresh.sys_db (fst (fst st')), snd (fst st'), snd st')
  = Client.submit_to_group c uid params (Refresh.sys_db s, n, errs) grp
  /\ (Refresh.consistent s -> Refresh.consistent (fst (fst st'))).
Proof.
  intros c uid params s n errs grp. cbv zeta.
  unfold Refresh.submit_to_group, Client.submit_to_group.
  destruct (Client.maybeSingle _); [split; auto|].
  pose proof (system_insert_result s (Client.group_row c uid grp params))
    as H.
  destruct (Refresh.insert_result s (Client.group_row c uid grp params))
    as [e|s'].
  - rewrite H. split; auto.
  - destruct H as [-> Hc]. split; auto.
Qed.

Lemma system_submit_fold : forall c uid params gs s n errs,
  let st' := fold_left (Refresh.submit_to_group c uid params) gs
               (s, n, errs) in
  (Refresh.sys_db (fst (fst st')), snd (fst st'), snd st')
  = fold_left (Client.submit_to_group c uid params) gs
      (Refresh.sys_db s, n, errs)
  /\ (Refresh.consistent s -> Refresh.consistent (fst (fst st'))).
Proof.
  intros c uid params gs.
  induction gs as [|h t IH]; intros s n errs; cbn [fold_left].
  - split; auto.
  - destruct (system_submit_to_group c uid params s n errs h) as [E Hc].
    cbv zeta in E, Hc.
    destruct (Refresh.submit_to_group c uid params (s, n, errs) h)
      as [[s1 n1] errs1]. cbn [fst snd] in E, Hc.
    rewrite <- E. destruct (IH s1 n1 errs1) as [E' Hc']. split; auto.
Qed.

Lemma system_submitResult : forall c user groups params s,
  Refresh.sys_db (fst (Refresh.submitResult c user groups params s))
  = fst (Client.submitResult c user groups params (Refresh.sys_db s))
  /\ snd (Refresh.submitResult c user groups params s)
     = snd (Client.submitResult c user groups params (Refresh.sys_db s))
  /\ (Refresh.consistent s ->
      Refresh.consistent (fst (Refresh.submitResult c user groups params s))).
Proof.
  intros c user groups params s.
  unfold Refresh.submitResult, Client.submitResult.
  destruct user as [uid|]; [|auto].
  destruct groups as [|h t].
  - unfold Refresh.submitPersonalResult, Client.submitPersonalResult.
    destruct (Client.maybeSingle _); [auto|].
    pose proof (system_insert_result s (Client.personal_row c uid params))
      as H.
    destruct (Refresh.insert_result s (Client.personal_row c uid params))
      as [e|s'].
    + rewrite H. auto.
    + destruct H as [-> Hc]. auto.
  - destruct (system_submit_fold c uid params (h :: t) s 0%nat [])
      as [E Hc]. cbv zeta in E, Hc.
    destruct (fold_left (Refresh.submit_to_group c uid params) (h :: t)
                (s, 0%nat, [])) as [[s1 n1] errs1].
    cbn [fst snd] in E, Hc. rewrite <- E. auto.
Qed.

(** X19.  When the snapshot is up to date, submitting a result does not
    change what it holds for a group the result was not submitted to: for
    every group outside the list handed to [submitResult], the rows of the
    group in the snapshot are the same before and after, so a read returns
    the same entries; a personal play (an empty list) therefore changes no
    group's rows.  The snapshot stays up to date. *)
Theorem other_groups_unmoved :
  forall (c : Client.Clock) (user : option uuid)
         (groups : list Client.GroupWithMembership)
         (params : Client.SubmitResultParams) (s : Refresh.System)
         (g : uuid),
  Refresh.consistent s ->
  (forall grp, In grp groups -> Client.gw_id grp <> g) ->
  let s' := fst (Refresh.submitResult c user groups params s) in
  filter (fun e => N.eqb (le_group_id e) g) (Refresh.sys_snapshot s')
  = filter (fun e => N.eqb (le_group_id e) g) (Refresh.sys_snapshot s)
  /\ (forall e, In e (Refresh.getLeaderboard s' g) <->
                In e (Refresh.getLeaderboard s g))
  /\ Refresh.consistent s'
  /\ Refresh.sys_db s'
     = fst (Client.submitResult c user groups params (Refresh.sys_db s)).
Proof.
  intros c user groups params s g Hc Hg s'.
  destruct (system_submitResult c user groups params s) as [Hdb [_ Hc']].
  fold s' in Hdb, Hc'. specialize (Hc' Hc).
  assert (Hrows : filter (fun e => N.eqb (le_group_id e) g)
                    (Refresh.sys_snapshot s')
                  = filter (fun e => N.eqb (le_group_id e) g)
                      (Refresh.sys_snapshot s)).
  { rewrite Hc', Hc, Hdb. destruct user as [uid|]; [|reflexivity].
    pose proof (submitResult_inserts c uid groups params (Refresh.sys_db s))
      as Hins.
    apply (inserts_frame _ _ _ g) in Hins.
    - destruct Hins as [H1 [H2 [H3 H4]]]. now apply group_rows_frame.
    - intros r [[grp [Hin ->]] | [_ ->]]; cbn.
      + intro E. inversion E. now apply (Hg grp Hin).
      + discriminate. }
  split; [exact Hrows|]. split; [|split; [exact Hc' | exact Hdb]].
  intro e. unfold Refresh.getLeaderboard, Client.getLeaderboard.
  now rewrite !In_order_desc, Hrows.
Qed.

Lemma other_groups_unmoved_witness :
  filter (fun e => N.eqb (le_group_id e) 7)
    (Refresh.sys_snapshot
       (fst (Refresh.submitResult Example.noon (Some 2%N) []
               (Client.mkParams 2 true)
               (Refresh.mkSystem Example.db
                  (leaderboard_scores Example.db) 0))))
  = filter (fun e => N.eqb (le_group_id e) 7) (leaderboard_scores Example.db).
Proof.
  refine (proj1 (other_groups_unmoved Example.noon (Some 2%N) []
                   (Client.mkParams 2 true)
                   (Refresh.mkSystem Example.db
                      (leaderboard_scores Example.db) 0)
                   7 eq_refl _)).
  intros grp [].
Defined.
